(** * Main::Domain — the multi-account session orchestrator

    A shallow embedding of [Telegram/SourceFiles/main/main_domain.cpp].
    The members of [Main::Domain] and the collaborators it talks to
    (the application object, the storage object, the global passcode flag,
    the two deferred-call queues) are the fields of one record [Domain];
    every member function is a function on that record.  Calls that the
    C++ code aborts on ([Expects], [Assert], [Unexpected], a null or dangling
    pointer dereference) return [Fatal]. *)

From Stdlib Require Import ZArith List Bool Lia String Permutation Finite.
Import ListNotations.
Local Open Scope Z_scope.

(** ** Fallible computations *)

Inductive Result (A : Type) : Type :=
| Ok (value : A)
| Fatal (message : string).

Arguments Ok {A} value.
Arguments Fatal {A} message.

Definition bind {A B : Type} (r : Result A) (k : A -> Result B) : Result B :=
  match r with
  | Ok a => k a
  | Fatal m => Fatal m
  end.

Notation "x <- e ;; k" := (bind e (fun x => k))
  (at level 61, e at next level, right associativity).

Definition succeeded {A : Type} (r : Result A) : bool :=
  match r with
  | Ok _ => true
  | Fatal _ => false
  end.

(** ** Machine integers

    [int] is 32 bits wide.  Values are carried as [Z]; [int_wrap] is the
    two's complement reduction that [+=] on an [int] performs. *)

Definition INT_MIN : Z := - 2 ^ 31.
Definition INT_MAX : Z := 2 ^ 31 - 1.

Definition int_wrap (z : Z) : Z := (z + 2 ^ 31) mod 2 ^ 32 - 2 ^ 31.

Definition int_add (a b : Z) : Z := int_wrap (a + b).

Definition in_int_range (z : Z) : Prop := INT_MIN <= z <= INT_MAX.

(** ** The protocol configuration *)

Inductive Environment : Type :=
| Production
| Test.

Definition Environment_eqb (a b : Environment) : bool :=
  match a, b with
  | Production, Production => true
  | Test, Test => true
  | _, _ => false
  end.

(** Modelled from the spec: the declaration of [MTP::Config] is not part of
    the excerpt.  It is "an opaque, cloneable value" built for one
    environment: either the defaults [MTP::Config(environment)] starts with,
    or contents obtained later (numbered, since they are opaque). Cloning
    ([std::make_unique<MTP::Config>(config)]) copies the value. *)
Inductive ConfigContents : Type :=
| BuiltIn
| Loaded (revision : N).

Record Config : Type := {
  Config_environment : Environment;
  Config_contents : ConfigContents
}.

Definition Config_new (environment : Environment) : Config :=
  {| Config_environment := environment; Config_contents := BuiltIn |}.

Definition cloneConfig (config : Config) : Config := config.

(** [MTP::Instance], as far as [Domain] looks at it: [environment()] and
    [config()]. *)
Record Instance : Type := {
  mtp_environment : Environment;
  mtp_config : Config
}.

(** ** Sessions and accounts *)

(** [Data::Session]: [unreadBadge()] and [unreadBadgeMuted()]. *)
Record Data : Type := {
  data_unreadBadge : Z;
  data_unreadBadgeMuted : bool
}.

Record Session : Type := {
  data : Data
}.

(** An [Account*] is an address; the nullable pointer held by
    [rpl::variable<Account*>] is an [option AccountPtr], [None] being
    [nullptr]. *)
Definition AccountPtr : Type := positive.

Definition ptr_eqb (a b : AccountPtr) : bool := Pos.eqb a b.

Definition optptr_eqb (a b : option AccountPtr) : bool :=
  match a, b with
  | Some x, Some y => ptr_eqb x y
  | None, None => true
  | _, _ => false
  end.

(** [Main::Account]: where it lives, its session slot ([sessionExists()]
    is "the slot is not empty") and its started [mtp()]. *)
Record Account : Type := {
  account_ptr : AccountPtr;
  account_session : option Session;
  account_mtp : Instance
}.

Definition sessionExists (a : Account) : bool :=
  match account_session a with
  | Some _ => true
  | None => false
  end.

(** [Domain::AccountWithIndex].  The owning pointer is never null in the
    registry ([Expects(accountWithIndex.account != nullptr)]), so the entry
    carries the account itself. *)
Record AccountWithIndex : Type := {
  index : Z;
  account : Account
}.

Definition QByteArray : Type := list Byte.byte.

Definition QByteArray_isEmpty (b : QByteArray) : bool :=
  match b with
  | [] => true
  | _ :: _ => false
  end.

(** ** Deferred calls and observable effects *)

(** The three closures the file hands to the main scheduling context. *)
Inductive Task : Type :=
| TaskUpdateUnreadBadge
| TaskWriteAccounts
| TaskRemoveRedundantAccounts.

(** What the outside can observe, in the order it happens: values fired on
    the three streams and calls into the collaborators. *)
Inductive Effect : Type :=
| ActiveChanged (account : option AccountPtr)
| ActiveSessionsFired (session : option Session)
| UnreadBadgeChangesFired
| LocalReset
| UnlockPasscode
| SetPasscode (passcode : QByteArray)
| WriteAccounts (indices : list Z) (active : Z)
| RefreshFallbackProductionConfig (config : Config)
| StartAdded (account : AccountPtr) (config : Config).

Definition is_ActiveChanged (e : Effect) : bool :=
  match e with
  | ActiveChanged _ => true
  | _ => false
  end.

Definition is_UnreadBadgeChangesFired (e : Effect) : bool :=
  match e with
  | UnreadBadgeChangesFired => true
  | _ => false
  end.

Definition is_LocalReset (e : Effect) : bool :=
  match e with
  | LocalReset => true
  | _ => false
  end.

Definition is_RefreshFallback (e : Effect) : bool :=
  match e with
  | RefreshFallbackProductionConfig _ => true
  | _ => false
  end.

Definition is_TaskUpdateUnreadBadge (t : Task) : bool :=
  match t with
  | TaskUpdateUnreadBadge => true
  | _ => false
  end.

Definition is_TaskWriteAccounts (t : Task) : bool :=
  match t with
  | TaskWriteAccounts => true
  | _ => false
  end.

Definition count_if {A : Type} (p : A -> bool) (l : list A) : nat :=
  List.length (filter p l).

(** ** The state *)

Record Domain : Type := {
  (* members of Main::Domain *)
  _accounts : list AccountWithIndex;
  _active : option AccountPtr;
  _activeLifetime : option AccountPtr;
  _accountToActivate : Z;
  _unreadBadge : Z;
  _unreadBadgeMuted : bool;
  _unreadBadgeUpdateScheduled : bool;
  _writeAccountsScheduled : bool;
  (* Core::App(), Global:: and the storage object *)
  fallbackProductionConfig : Config;
  LocalPasscode : bool;
  passcode : QByteArray;
  postponedCalls : list Task;
  mainCalls : list Task;
  (* everything observable that happened so far, oldest first *)
  trace : list Effect
}.

Definition set_accounts (v : list AccountWithIndex) (d : Domain) : Domain :=
  {| _accounts := v; _active := _active d;
     _activeLifetime := _activeLifetime d;
     _accountToActivate := _accountToActivate d;
     _unreadBadge := _unreadBadge d;
     _unreadBadgeMuted := _unreadBadgeMuted d;
     _unreadBadgeUpdateScheduled := _unreadBadgeUpdateScheduled d;
     _writeAccountsScheduled := _writeAccountsScheduled d;
     fallbackProductionConfig := fallbackProductionConfig d;
     LocalPasscode := LocalPasscode d; passcode := passcode d;
     postponedCalls := postponedCalls d; mainCalls := mainCalls d;
     trace := trace d |}.

Definition set_active (v : option AccountPtr) (d : Domain) : Domain :=
  {| _accounts := _accounts d; _active := v;
     _activeLifetime := _activeLifetime d;
     _accountToActivate := _accountToActivate d;
     _unreadBadge := _unreadBadge d;
     _unreadBadgeMuted := _unreadBadgeMuted d;
     _unreadBadgeUpdateScheduled := _unreadBadgeUpdateScheduled d;
     _writeAccountsScheduled := _writeAccountsScheduled d;
     fallbackProductionConfig := fallbackProductionConfig d;
     LocalPasscode := LocalPasscode d; passcode := passcode d;
     postponedCalls := postponedCalls d; mainCalls := mainCalls d;
     trace := trace d |}.

Definition set_activeLifetime (v : option AccountPtr) (d : Domain) : Domain :=
  {| _accounts := _accounts d; _active := _active d;
     _activeLifetime := v;
     _accountToActivate := _accountToActivate d;
     _unreadBadge := _unreadBadge d;
     _unreadBadgeMuted := _unreadBadgeMuted d;
     _unreadBadgeUpdateScheduled := _unreadBadgeUpdateScheduled d;
     _writeAccountsScheduled := _writeAccountsScheduled d;
     fallbackProductionConfig := fallbackProductionConfig d;
     LocalPasscode := LocalPasscode d; passcode := passcode d;
     postponedCalls := postponedCalls d; mainCalls := mainCalls d;
     trace := trace d |}.

Definition set_accountToActivate (v : Z) (d : Domain) : Domain :=
  {| _accounts := _accounts d; _active := _active d;
     _activeLifetime := _activeLifetime d;
     _accountToActivate := v;
     _unreadBadge := _unreadBadge d;
     _unreadBadgeMuted := _unreadBadgeMuted d;
     _unreadBadgeUpdateScheduled := _unreadBadgeUpdateScheduled d;
     _writeAccountsScheduled := _writeAccountsScheduled d;
     fallbackProductionConfig := fallbackProductionConfig d;
     LocalPasscode := LocalPasscode d; passcode := passcode d;
     postponedCalls := postponedCalls d; mainCalls := mainCalls d;
     trace := trace d |}.

Definition set_unreadBadge (v : Z) (d : Domain) : Domain :=
  {| _accounts := _accounts d; _active := _active d;
     _activeLifetime := _activeLifetime d;
     _accountToActivate := _accountToActivate d;
     _unreadBadge := v;
     _unreadBadgeMuted := _unreadBadgeMuted d;
     _unreadBadgeUpdateScheduled := _unreadBadgeUpdateScheduled d;
     _writeAccountsScheduled := _writeAccountsScheduled d;
     fallbackProductionConfig := fallbackProductionConfig d;
     LocalPasscode := LocalPasscode d; passcode := passcode d;
     postponedCalls := postponedCalls d; mainCalls := mainCalls d;
     trace := trace d |}.

Definition set_unreadBadgeMuted (v : bool) (d : Domain) : Domain :=
  {| _accounts := _accounts d; _active := _active d;
     _activeLifetime := _activeLifetime d;
     _accountToActivate := _accountToActivate d;
     _unreadBadge := _unreadBadge d;
     _unreadBadgeMuted := v;
     _unreadBadgeUpdateScheduled := _unreadBadgeUpdateScheduled d;
     _writeAccountsScheduled := _writeAccountsScheduled d;
     fallbackProductionConfig := fallbackProductionConfig d;
     LocalPasscode := LocalPasscode d; passcode := passcode d;
     postponedCalls := postponedCalls d; mainCalls := mainCalls d;
     trace := trace d |}.

Definition set_unreadBadgeUpdateScheduled (v : bool) (d : Domain) : Domain :=
  {| _accounts := _accounts d; _active := _active d;
     _activeLifetime := _activeLifetime d;
     _accountToActivate := _accountToActivate d;
     _unreadBadge := _unreadBadge d;
     _unreadBadgeMuted := _unreadBadgeMuted d;
     _unreadBadgeUpdateScheduled := v;
     _writeAccountsScheduled := _writeAccountsScheduled d;
     fallbackProductionConfig := fallbackProductionConfig d;
     LocalPasscode := LocalPasscode d; passcode := passcode d;
     postponedCalls := postponedCalls d; mainCalls := mainCalls d;
     trace := trace d |}.

Definition set_writeAccountsScheduled (v : bool) (d : Domain) : Domain :=
  {| _accounts := _accounts d; _active := _active d;
     _activeLifetime := _activeLifetime d;
     _accountToActivate := _accountToActivate d;
     _unreadBadge := _unreadBadge d;
     _unreadBadgeMuted := _unreadBadgeMuted d;
     _unreadBadgeUpdateScheduled := _unreadBadgeUpdateScheduled d;
     _writeAccountsScheduled := v;
     fallbackProductionConfig := fallbackProductionConfig d;
     LocalPasscode := LocalPasscode d; passcode := passcode d;
     postponedCalls := postponedCalls d; mainCalls := mainCalls d;
     trace := trace d |}.

Definition set_fallbackProductionConfig (v : Config) (d : Domain) : Domain :=
  {| _accounts := _accounts d; _active := _active d;
     _activeLifetime := _activeLifetime d;
     _accountToActivate := _accountToActivate d;
     _unreadBadge := _unreadBadge d;
     _unreadBadgeMuted := _unreadBadgeMuted d;
     _unreadBadgeUpdateScheduled := _unreadBadgeUpdateScheduled d;
     _writeAccountsScheduled := _writeAccountsScheduled d;
     fallbackProductionConfig := v;
     LocalPasscode := LocalPasscode d; passcode := passcode d;
     postponedCalls := postponedCalls d; mainCalls := mainCalls d;
     trace := trace d |}.

Definition set_passcode_fields (flag : bool) (v : QByteArray) (d : Domain)
  : Domain :=
  {| _accounts := _accounts d; _active := _active d;
     _activeLifetime := _activeLifetime d;
     _accountToActivate := _accountToActivate d;
     _unreadBadge := _unreadBadge d;
     _unreadBadgeMuted := _unreadBadgeMuted d;
     _unreadBadgeUpdateScheduled := _unreadBadgeUpdateScheduled d;
     _writeAccountsScheduled := _writeAccountsScheduled d;
     fallbackProductionConfig := fallbackProductionConfig d;
     LocalPasscode := flag; passcode := v;
     postponedCalls := postponedCalls d; mainCalls := mainCalls d;
     trace := trace d |}.

Definition set_postponedCalls (v : list Task) (d : Domain) : Domain :=
  {| _accounts := _accounts d; _active := _active d;
     _activeLifetime := _activeLifetime d;
     _accountToActivate := _accountToActivate d;
     _unreadBadge := _unreadBadge d;
     _unreadBadgeMuted := _unreadBadgeMuted d;
     _unreadBadgeUpdateScheduled := _unreadBadgeUpdateScheduled d;
     _writeAccountsScheduled := _writeAccountsScheduled d;
     fallbackProductionConfig := fallbackProductionConfig d;
     LocalPasscode := LocalPasscode d; passcode := passcode d;
     postponedCalls := v; mainCalls := mainCalls d;
     trace := trace d |}.

Definition set_mainCalls (v : list Task) (d : Domain) : Domain :=
  {| _accounts := _accounts d; _active := _active d;
     _activeLifetime := _activeLifetime d;
     _accountToActivate := _accountToActivate d;
     _unreadBadge := _unreadBadge d;
     _unreadBadgeMuted := _unreadBadgeMuted d;
     _unreadBadgeUpdateScheduled := _unreadBadgeUpdateScheduled d;
     _writeAccountsScheduled := _writeAccountsScheduled d;
     fallbackProductionConfig := fallbackProductionConfig d;
     LocalPasscode := LocalPasscode d; passcode := passcode d;
     postponedCalls := postponedCalls d; mainCalls := v;
     trace := trace d |}.

(** Appends one observable effect to the trace. *)
Definition emit (e : Effect) (d : Domain) : Domain :=
  {| _accounts := _accounts d; _active := _active d;
     _activeLifetime := _activeLifetime d;
     _accountToActivate := _accountToActivate d;
     _unreadBadge := _unreadBadge d;
     _unreadBadgeMuted := _unreadBadgeMuted d;
     _unreadBadgeUpdateScheduled := _unreadBadgeUpdateScheduled d;
     _writeAccountsScheduled := _writeAccountsScheduled d;
     fallbackProductionConfig := fallbackProductionConfig d;
     LocalPasscode := LocalPasscode d; passcode := passcode d;
     postponedCalls := postponedCalls d; mainCalls := mainCalls d;
     trace := trace d ++ [e] |}.

(** ** Reading the registry *)

Definition indices (accounts : list AccountWithIndex) : list Z :=
  map index accounts.

Definition pointers (accounts : list AccountWithIndex) : list AccountPtr :=
  map (fun e => account_ptr (account e)) accounts.

Definition has_ptr (p : AccountPtr) (e : AccountWithIndex) : bool :=
  ptr_eqb (account_ptr (account e)) p.

Definition has_session (e : AccountWithIndex) : bool :=
  sessionExists (account e).

Definition sessionValue (e : AccountWithIndex) : option Session :=
  account_session (account e).

Definition uses (environment : Environment) (e : AccountWithIndex) : bool :=
  Environment_eqb (mtp_environment (account_mtp (account e))) environment.

(** The registry owns every live account, so following an [Account*] is
    finding the entry that lives at that address. *)
Definition lookup (p : AccountPtr) (accounts : list AccountWithIndex)
  : option AccountWithIndex :=
  find (has_ptr p) accounts.

Definition deref (p : option AccountPtr) (d : Domain) : Result Account :=
  match p with
  | None => Fatal "null pointer dereference"
  | Some a =>
      match lookup a (_accounts d) with
      | Some e => Ok (account e)
      | None => Fatal "dangling pointer dereference"
      end
  end.

(** [Domain::started]. *)
Definition started (d : Domain) : bool :=
  match _accounts d with
  | [] => false
  | _ :: _ => true
  end.

(** The state [Domain::Domain] builds, with the member initialisers of the
    class ([_accountToActivate = -1], [_unreadBadge = 0],
    [_unreadBadgeMuted = true]). *)
Definition Domain_new (fallback : Config) (flag : bool) (code : QByteArray)
  : Domain :=
  {| _accounts := []; _active := None; _activeLifetime := None;
     _accountToActivate := -1;
     _unreadBadge := 0; _unreadBadgeMuted := true;
     _unreadBadgeUpdateScheduled := false;
     _writeAccountsScheduled := false;
     fallbackProductionConfig := fallback;
     LocalPasscode := flag; passcode := code;
     postponedCalls := []; mainCalls := [];
     trace := [] |}.

(** ** Collaborators *)

(** Modelled from the spec: [rpl::variable<Account*>::operator=] is not in
    the excerpt.  [active] is "observable" and its change event fires "once
    per effective change": assigning the value already held fires nothing. *)
Definition assign_active (v : option AccountPtr) (d : Domain) : Domain :=
  if optptr_eqb (_active d) v then d
  else emit (ActiveChanged v) (set_active v d).

(** [Local::reset()], [Core::App().unlockPasscode()]: calls into
    collaborators, visible in the trace. *)
Definition Local_reset (d : Domain) : Domain := emit LocalReset d.

Definition unlockPasscode (d : Domain) : Domain := emit UnlockPasscode d.

(** Modelled from the spec: [Storage::Domain::setPasscode] is not in the
    excerpt ("Storage collaborator: setPasscode(bytes)").  It stores the
    bytes; a passcode "is set" when they are not empty. *)
Definition setPasscode (code : QByteArray) (d : Domain) : Domain :=
  emit (SetPasscode code)
    (set_passcode_fields (negb (QByteArray_isEmpty code)) code d).

(** Modelled from the spec: [Storage::Domain::writeAccounts] is not in the
    excerpt; it writes "the account-index/active-index set". *)
Definition writeAccounts (d : Domain) : Domain :=
  emit (WriteAccounts (indices (_accounts d)) (_accountToActivate d)) d.

(** Modelled from the spec: [Core::App().refreshFallbackProductionConfig]
    is not in the excerpt; the config "is pushed back up to the process-wide
    fallback". *)
Definition refreshFallbackProductionConfig (config : Config) (d : Domain)
  : Domain :=
  emit (RefreshFallbackProductionConfig config)
    (set_fallbackProductionConfig (cloneConfig config) d).

(** Modelled from the spec: [Storage::Domain::startAdded] and
    [Account::start] are not in the excerpt; the new account runs on the
    provisioned config, in that config's environment. *)
Definition Instance_start (config : Config) : Instance :=
  {| mtp_environment := Config_environment config; mtp_config := config |}.

(** Modelled from the spec: [Core::App().postponeCall] and [crl::on_main]
    are not in the excerpt; each "runs callback exactly once,
    asynchronously", first in first out per source. *)
Definition postponeCall (t : Task) (d : Domain) : Domain :=
  set_postponedCalls (postponedCalls d ++ [t]) d.

Definition on_main (t : Task) (d : Domain) : Domain :=
  set_mainCalls (mainCalls d ++ [t]) d.

(** ** Member functions *)

(** [Domain::accountAddedInStorage]. *)
Definition accountAddedInStorage (accountWithIndex : AccountWithIndex)
    (d : Domain) : Result Domain :=
  if existsb (fun e => index e =? index accountWithIndex) (_accounts d)
  then Fatal "Repeated account index."
  else Ok (set_accounts (_accounts d ++ [accountWithIndex]) d).

(** [Domain::activateFromStorage], [Domain::activeForStorage]. *)
Definition activateFromStorage (i : Z) (d : Domain) : Domain :=
  set_accountToActivate i d.

Definition activeForStorage (d : Domain) : Z := _accountToActivate d.

(** [Domain::finish]. *)
Definition finish (d : Domain) : Domain :=
  set_accounts [] (assign_active None (set_accountToActivate (-1) d)).

(** [Domain::scheduleWriteAccounts]; the closure it defers is
    [TaskWriteAccounts]. *)
Definition scheduleWriteAccounts (d : Domain) : Domain :=
  if _writeAccountsScheduled d then d
  else on_main TaskWriteAccounts (set_writeAccountsScheduled true d).

(** [Domain::scheduleUpdateUnreadBadge]; the closure it defers is
    [TaskUpdateUnreadBadge]. *)
Definition scheduleUpdateUnreadBadge (d : Domain) : Domain :=
  if _unreadBadgeUpdateScheduled d then d
  else postponeCall TaskUpdateUnreadBadge
         (set_unreadBadgeUpdateScheduled true d).

(** The loop of [Domain::updateUnreadBadge]. *)
Fixpoint updateUnreadBadge_loop (accounts : list AccountWithIndex)
    (d : Domain) : Domain :=
  match accounts with
  | [] => d
  | e :: rest =>
      match account_session (account e) with
      | Some session =>
          let d1 :=
            set_unreadBadge
              (int_add (_unreadBadge d) (data_unreadBadge (data session))) d in
          let d2 :=
            if negb (data_unreadBadgeMuted (data session))
            then set_unreadBadgeMuted false d1
            else d1 in
          updateUnreadBadge_loop rest d2
      | None => updateUnreadBadge_loop rest d
      end
  end.

(** [Domain::updateUnreadBadge]. *)
Definition updateUnreadBadge (d : Domain) : Domain :=
  let d1 := set_unreadBadge 0 d in
  let d2 := set_unreadBadgeMuted true d1 in
  let d3 := updateUnreadBadge_loop (_accounts d2) d2 in
  emit UnreadBadgeChangesFired d3.

(** [Domain::activate]. *)
Definition activate (account : AccountPtr) (d : Domain) : Result Domain :=
  if optptr_eqb (_active d) (Some account) then Ok d
  else
    match lookup account (_accounts d) with
    | None => Fatal "Assert(i != end(_accounts))"
    | Some i =>
        let changed := negb (_accountToActivate d =? index i) in
        let d1 := set_activeLifetime None d in
        let d2 := set_accountToActivate (index i) d1 in
        let d3 := assign_active (Some account) d2 in
        let d4 :=
          emit (ActiveSessionsFired (sessionValue i))
            (set_activeLifetime (Some account) d3) in
        if changed then Ok (scheduleWriteAccounts d4) else Ok d4
    end.

(** [Domain::activateAuthedAccount]. *)
Definition activateAuthedAccount (d : Domain) : Result Domain :=
  if negb (started d) then Fatal "Expects(started())"
  else
    current <- deref (_active d) d ;;
    if sessionExists current then Ok d
    else
      match find has_session (_accounts d) with
      | Some i => activate (account_ptr (account i)) d
      | None => Ok d
      end.

(** [Domain::removePasscodeIfEmpty]. *)
Definition removePasscodeIfEmpty (d : Domain) : Result (bool * Domain) :=
  if negb (Nat.eqb (List.length (_accounts d)) 1) then Ok (false, d)
  else
    current <- deref (_active d) d ;;
    if sessionExists current then Ok (false, d)
    else
      let d1 := Local_reset d in
      if negb (LocalPasscode d1) then Ok (false, d1)
      else
        let d2 := unlockPasscode d1 in
        let d3 := setPasscode [] d2 in
        Ok (true, d3).

(** [Domain::checkForLastProductionConfig]; [a] is the account the pointer
    argument designates. *)
Definition checkForLastProductionConfig (a : Account) (d : Domain) : Domain :=
  let mtp := account_mtp a in
  if negb (Environment_eqb (mtp_environment mtp) Production) then d
  else if existsb
            (fun e => negb (has_ptr (account_ptr a) e) && uses Production e)
            (_accounts d)
  then d
  else refreshFallbackProductionConfig (mtp_config mtp) d.

(** The erasing loop of [Domain::removeRedundantAccounts].  The iterator
    [i] splits the vector into the entries before it ([before], all kept)
    and the entries from it on ([from_i]); the vector held by [d] is
    [before ++ from_i] throughout. *)
Fixpoint removeRedundantAccounts_loop (before from_i : list AccountWithIndex)
    (d : Domain) : Domain :=
  match from_i with
  | [] => d
  | e :: rest =>
      if optptr_eqb (Some (account_ptr (account e))) (_active d)
         || has_session e
      then removeRedundantAccounts_loop (before ++ [e]) rest d
      else
        let d1 := checkForLastProductionConfig (account e) d in
        let d2 := set_accounts (before ++ rest) d1 in
        removeRedundantAccounts_loop before rest d2
  end.

(** [Domain::removeRedundantAccounts]. *)
Definition removeRedundantAccounts (d : Domain) : Result Domain :=
  if negb (started d) then Fatal "Expects(started())"
  else
    let was := List.length (_accounts d) in
    d1 <- activateAuthedAccount d ;;
    let d2 := removeRedundantAccounts_loop [] (_accounts d1) d1 in
    r <- removePasscodeIfEmpty d2 ;;
    if negb (fst r) && negb (Nat.eqb (List.length (_accounts (snd r))) was)
    then Ok (scheduleWriteAccounts (snd r))
    else Ok (snd r).

(** The [config] lambda of [Domain::add]. *)
Definition accountConfig (a : Account) : Config :=
  cloneConfig (mtp_config (account_mtp a)).

Definition add_config (environment : Environment) (d : Domain)
  : Result Config :=
  current <- deref (_active d) d ;;
  if Environment_eqb (mtp_environment (account_mtp current)) environment
  then Ok (accountConfig current)
  else
    match find (uses environment) (_accounts d) with
    | Some e => Ok (accountConfig (account e))
    | None =>
        if Environment_eqb environment Production
        then Ok (cloneConfig (fallbackProductionConfig d))
        else Ok (Config_new environment)
    end.

(** The [while (ranges::contains(...)) ++index;] loop of [Domain::add].
    [fuel] bounds the number of iterations; [add_index_total] below shows
    that one more than the size of the registry is always enough, and
    [add_index_smallest] that the result is at most that size, so [++index]
    stays far from the end of [int]. *)
Definition contains_index (accounts : list AccountWithIndex) (i : Z) : bool :=
  existsb (fun e => index e =? i) accounts.

Fixpoint add_index_loop (fuel : nat) (accounts : list AccountWithIndex)
    (i : Z) : option Z :=
  match fuel with
  | O => None
  | S fuel' =>
      if contains_index accounts i
      then add_index_loop fuel' accounts (i + 1)
      else Some i
  end.

Definition add_index (accounts : list AccountWithIndex) : option Z :=
  add_index_loop (S (List.length accounts)) accounts 0.

(** [Domain::add].  [fresh] is the address [std::make_unique<Account>]
    returns.  [watchSession] only subscribes: the new account has no
    session yet, so nothing is delivered at this point. *)
Definition add (environment : Environment) (fresh : AccountPtr) (d : Domain)
  : Result (AccountPtr * Domain) :=
  if negb (started d) then Fatal "Expects(started())"
  else
    config <- add_config environment d ;;
    match add_index (_accounts d) with
    | None => Fatal "no free index found"
    | Some i =>
        let created :=
          {| account_ptr := fresh;
             account_session := None;
             account_mtp := Instance_start config |} in
        let d1 :=
          set_accounts (_accounts d ++ [{| index := i; account := created |}])
            d in
        let d2 := emit (StartAdded fresh config) d1 in
        Ok (fresh, d2)
    end.

(** [Domain::activateAfterStarting]. *)
Definition activateAfterStarting (d : Domain) : Result Domain :=
  match _accounts d with
  | [] => Fatal "Expects(started())"
  | front :: _ =>
      let toActivate :=
        fold_left
          (fun chosen e =>
             if index e =? _accountToActivate d
             then account_ptr (account e)
             else chosen)
          (_accounts d) (account_ptr (account front)) in
      d1 <- activate toActivate d ;;
      r <- removePasscodeIfEmpty d1 ;;
      Ok (snd r)
  end.

(** ** Session-lifecycle events ([Domain::watchSession]) *)

Definition with_session (s : option Session) (a : Account) : Account :=
  {| account_ptr := account_ptr a;
     account_session := s;
     account_mtp := account_mtp a |}.

Definition update_account (p : AccountPtr) (f : Account -> Account)
    (accounts : list AccountWithIndex) : list AccountWithIndex :=
  map (fun e =>
         if has_ptr p e
         then {| index := index e; account := f (account e) |}
         else e)
      accounts.

(** The second subscriber of [watchSession]: runs when [sessionChanges()]
    of [account] delivers [nullptr]. *)
Definition watchSession_sessionEnded (account : AccountPtr) (d : Domain)
  : Result Domain :=
  let d1 := scheduleUpdateUnreadBadge d in
  d2 <- (if optptr_eqb (Some account) (_active d1)
         then activateAuthedAccount d1
         else Ok d1) ;;
  Ok (on_main TaskRemoveRedundantAccounts d2).

(** The innermost subscriber of [watchSession]: runs when the unread stream
    of a live session fires. *)
Definition watchSession_unreadBadgeChanged (d : Domain) : Domain :=
  scheduleUpdateUnreadBadge d.

(** What the accounts do on their own, seen from [Domain]: a session
    appears, its unread state changes (the new state is stored if the
    session is there, and the subscriber is notified), it disappears. *)
Definition sessionCreated (p : AccountPtr) (s : Session) (d : Domain)
  : Domain :=
  set_accounts (update_account p (with_session (Some s)) (_accounts d)) d.

Definition unreadStateChanged (p : AccountPtr) (v : Data) (d : Domain)
  : Domain :=
  watchSession_unreadBadgeChanged
    (set_accounts
       (update_account p
          (fun a =>
             match account_session a with
             | Some _ => with_session (Some {| data := v |}) a
             | None => a
             end)
          (_accounts d))
       d).

Definition sessionEnded (p : AccountPtr) (d : Domain) : Result Domain :=
  watchSession_sessionEnded p
    (set_accounts (update_account p (with_session None) (_accounts d)) d).

(** ** The main scheduling context *)

(** [_unreadBadgeChanges.fire({})] is the last statement of
    [updateUnreadBadge], and it runs the subscribers of
    [unreadBadgeChanges()] before it returns.  They are outside this file;
    [subscribers] is what they do to the Domain while they run (nothing,
    or calls back into it). *)
Definition updateUnreadBadge_firing (subscribers : Domain -> Domain)
    (d : Domain) : Domain :=
  subscribers (updateUnreadBadge d).

(** The bodies of the three deferred closures, in the order of their
    statements. *)
Definition runTask_firing (subscribers : Domain -> Domain) (t : Task)
    (d : Domain) : Result Domain :=
  match t with
  | TaskUpdateUnreadBadge =>
      let d1 := set_unreadBadgeUpdateScheduled false d in
      Ok (updateUnreadBadge_firing subscribers d1)
  | TaskWriteAccounts =>
      let d1 := set_writeAccountsScheduled false d in
      Ok (writeAccounts d1)
  | TaskRemoveRedundantAccounts => removeRedundantAccounts d
  end.

(** The closures when nobody listens to the badge. *)
Definition runTask (t : Task) (d : Domain) : Result Domain :=
  runTask_firing (fun x => x) t d.

(** One pending call leaves its queue and runs. *)
Definition runPostponedCall_firing (subscribers : Domain -> Domain)
    (d : Domain) : Result Domain :=
  match postponedCalls d with
  | [] => Ok d
  | t :: rest => runTask_firing subscribers t (set_postponedCalls rest d)
  end.

Definition runPostponedCall (d : Domain) : Result Domain :=
  runPostponedCall_firing (fun x => x) d.

Definition runMainCall (d : Domain) : Result Domain :=
  match mainCalls d with
  | [] => Ok d
  | t :: rest => runTask t (set_mainCalls rest d)
  end.

(** ** Histories *)

(** Everything that can happen to a [Domain]: calls from the storage and
    the interface layers, session events, and the scheduler running a
    pending call. *)
Inductive Op : Type :=
| OpAccountAddedInStorage (accountWithIndex : AccountWithIndex)
| OpActivateFromStorage (i : Z)
| OpActivateAfterStarting
| OpAdd (environment : Environment) (fresh : AccountPtr)
| OpActivate (account : AccountPtr)
| OpSessionCreated (account : AccountPtr) (session : Session)
| OpUnreadStateChanged (account : AccountPtr) (v : Data)
| OpSessionEnded (account : AccountPtr)
| OpRemoveRedundantAccounts
| OpRunPostponedCall
| OpRunMainCall
| OpFinish.

Definition apply_op (op : Op) (d : Domain) : Result Domain :=
  match op with
  | OpAccountAddedInStorage e => accountAddedInStorage e d
  | OpActivateFromStorage i => Ok (activateFromStorage i d)
  | OpActivateAfterStarting => activateAfterStarting d
  | OpAdd environment fresh => r <- add environment fresh d ;; Ok (snd r)
  | OpActivate p => activate p d
  | OpSessionCreated p s => Ok (sessionCreated p s d)
  | OpUnreadStateChanged p v => Ok (unreadStateChanged p v d)
  | OpSessionEnded p => sessionEnded p d
  | OpRemoveRedundantAccounts => removeRedundantAccounts d
  | OpRunPostponedCall => runPostponedCall d
  | OpRunMainCall => runMainCall d
  | OpFinish => Ok (finish d)
  end.

Fixpoint run_ops (ops : list Op) (d : Domain) : Result Domain :=
  match ops with
  | [] => Ok d
  | op :: rest => d1 <- apply_op op d ;; run_ops rest d1
  end.

(** ** What the spec says, in its own words *)

(** The badge summary of section 4.4: the sum and the conjunction over the
    accounts with a live session. *)
Definition live_sessions (accounts : list AccountWithIndex) : list Session :=
  flat_map
    (fun e => match sessionValue e with Some s => [s] | None => [] end)
    accounts.

Definition spec_count (accounts : list AccountWithIndex) : Z :=
  fold_right Z.add 0
    (map (fun s => data_unreadBadge (data s)) (live_sessions accounts)).

Definition spec_allMuted (accounts : list AccountWithIndex) : bool :=
  forallb (fun s => data_unreadBadgeMuted (data s)) (live_sessions accounts).

(** The four provisioning rules of section 4.2, in priority order. *)
Inductive Provisioned (environment : Environment) (active : Account)
    (accounts : list AccountWithIndex) (fallback : Config) : Config -> Prop :=
| FromActive :
    mtp_environment (account_mtp active) = environment ->
    Provisioned environment active accounts fallback
      (mtp_config (account_mtp active))
| FromFirstMatching (before after : list AccountWithIndex)
    (e : AccountWithIndex) :
    mtp_environment (account_mtp active) <> environment ->
    accounts = before ++ e :: after ->
    (forall o, In o before ->
       mtp_environment (account_mtp (account o)) <> environment) ->
    mtp_environment (account_mtp (account e)) = environment ->
    Provisioned environment active accounts fallback
      (mtp_config (account_mtp (account e)))
| FromFallback :
    mtp_environment (account_mtp active) <> environment ->
    (forall o, In o accounts ->
       mtp_environment (account_mtp (account o)) <> environment) ->
    environment = Production ->
    Provisioned environment active accounts fallback fallback
| FromDefault :
    mtp_environment (account_mtp active) <> environment ->
    (forall o, In o accounts ->
       mtp_environment (account_mtp (account o)) <> environment) ->
    environment <> Production ->
    Provisioned environment active accounts fallback (Config_new environment).

(** ** Sample data used by the closed examples below *)

Definition productionConfig : Config :=
  {| Config_environment := Production; Config_contents := Loaded 7 |}.

Definition testConfig : Config :=
  {| Config_environment := Test; Config_contents := Loaded 3 |}.

Definition fallbackConfig : Config :=
  {| Config_environment := Production; Config_contents := Loaded 1 |}.

Definition liveSession (unread : Z) (muted : bool) : Session :=
  {| data := {| data_unreadBadge := unread; data_unreadBadgeMuted := muted |} |}.

Definition entry (i : Z) (p : AccountPtr) (s : option Session) (c : Config)
  : AccountWithIndex :=
  {| index := i;
     account := {| account_ptr := p;
                   account_session := s;
                   account_mtp := Instance_start c |} |}.

(** A (active, logged out), B (logged out), C (logged in). *)
Definition entryA : AccountWithIndex := entry 0 1%positive None productionConfig.
Definition entryB : AccountWithIndex := entry 1 2%positive None testConfig.
Definition entryC : AccountWithIndex :=
  entry 2 3%positive (Some (liveSession 5 false)) productionConfig.

Definition with_registry (accounts : list AccountWithIndex)
    (active : option AccountPtr) (preferred : Z) (d : Domain) : Domain :=
  set_accountToActivate preferred (set_active active (set_accounts accounts d)).

Definition blank : Domain := Domain_new fallbackConfig false [].

Definition locked : Domain :=
  Domain_new fallbackConfig true [Byte.x31; Byte.x32].

Definition stateABC : Domain :=
  with_registry [entryA; entryB; entryC] (Some 1%positive) 0 blank.

(** ** Well-formedness *)

(** The active pointer designates an entry of the registry (section 3,
    ActiveState). *)
Definition active_in_registry (d : Domain) : Prop :=
  exists e, In e (_accounts d) /\ _active d = Some (account_ptr (account e)).

(** Every account is owned by one [std::unique_ptr]: no two entries live at
    the same address. *)
Definition distinct_accounts (accounts : list AccountWithIndex) : Prop :=
  NoDup (pointers accounts).

(** A redundant account, in the words of the glossary: "a non-active
    account with no live session". *)
Definition redundant (active : option AccountPtr) (e : AccountWithIndex)
  : bool :=
  negb (optptr_eqb (Some (account_ptr (account e))) active)
  && negb (has_session e).

(** Some entry other than [e] uses the production environment. *)
Definition other_production (accounts : list AccountWithIndex)
    (e : AccountWithIndex) : Prop :=
  exists o,
    In o accounts /\ account_ptr (account o) <> account_ptr (account e)
    /\ mtp_environment (account_mtp (account o)) = Production.

(** A burst of badge triggers: unread-state changes of sessions, each
    delivered to [watchSession]'s subscriber, with no scheduler turn in
    between. *)
Definition deliver (events : list (AccountPtr * Data)) (d : Domain) : Domain :=
  fold_left (fun acc ev => unreadStateChanged (fst ev) (snd ev) acc) events d.

Definition unread (v : Z) : Data :=
  {| data_unreadBadge := v; data_unreadBadgeMuted := false |}.

(** A history: one stored account is loaded and activated, two accounts
    are added, the third logs in, the second one's session-ended
    notification arrives, the two deferred calls run (the write, then the
    clean-up, which erases the first two accounts), and one more account is
    added. *)
Definition sampleHistory : list Op :=
  [OpAccountAddedInStorage entryA;
   OpActivateAfterStarting;
   OpAdd Test 2%positive;
   OpAdd Production 3%positive;
   OpSessionCreated 3%positive (liveSession 5 false);
   OpSessionEnded 2%positive;
   OpRunMainCall;
   OpRunMainCall;
   OpAdd Test 4%positive].

(** A logged-out production account next to the active, logged-in test
    account. *)
Definition entryT : AccountWithIndex :=
  entry 1 5%positive (Some (liveSession 2 true)) testConfig.

Definition stateAT : Domain :=
  with_registry [entryA; entryT] (Some 5%positive) 1 blank.

Definition stateA : Domain :=
  with_registry [entryA] (Some 1%positive) 0 locked.

Definition stateAB : Domain :=
  with_registry [entryA; entryB] (Some 1%positive) 0 locked.

(** ** The remaining accessors of [Main::Domain] *)

(** [Domain::active]: the reference it returns is the account the active
    pointer designates. *)
Definition active (d : Domain) : Result Account :=
  if negb (started d) then Fatal "Expects(!_accounts.empty())"
  else
    match _active d with
    | None => Fatal "Ensures(_active.current() != nullptr)"
    | Some _ => deref (_active d) d
    end.

(** [Domain::activeSessionValue]: the value the producer starts with,
    before it follows [_activeSessions]. *)
Definition activeSessionValue_current (d : Domain) : Result (option Session) :=
  if negb (started d) then Ok None
  else
    a <- active d ;;
    if negb (sessionExists a) then Ok None
    else a' <- active d ;; Ok (account_session a').

(** [Domain::unreadBadge], [Domain::unreadBadgeMuted], [Domain::accounts]. *)
Definition unreadBadge (d : Domain) : Z := _unreadBadge d.

Definition unreadBadgeMuted (d : Domain) : bool := _unreadBadgeMuted d.

Definition accounts (d : Domain) : list AccountWithIndex := _accounts d.

(** The active pointer is null or designates a registry entry. *)
Definition not_dangling (d : Domain) : Prop :=
  forall p, _active d = Some p -> In p (pointers (_accounts d)).

(** The config of the last entry of a list that uses the production
    environment, if there is one. *)
Fixpoint last_production (l : list AccountWithIndex) : option Config :=
  match l with
  | [] => None
  | e :: rest =>
      match last_production rest with
      | Some c => Some c
      | None =>
          if uses Production e
          then Some (mtp_config (account_mtp (account e)))
          else None
      end
  end.

(** The config a clean-up hands to the fallback provider, given the entries
    it leaves and the entries it erases (both in registry order): none while
    a production account is left, else the config of the last production
    account erased. *)
Definition pushed_config (left erased : list AccountWithIndex)
  : option Config :=
  if existsb (uses Production) left then None else last_production erased.

(** Calling [scheduleWriteAccounts] [n] times in a row. *)
Fixpoint repeat_scheduleWriteAccounts (n : nat) (d : Domain) : Domain :=
  match n with
  | O => d
  | S n' => repeat_scheduleWriteAccounts n' (scheduleWriteAccounts d)
  end.

(** A and C both logged in, C active. *)
Definition entryA_live : AccountWithIndex :=
  entry 0 1%positive (Some (liveSession 4 true)) productionConfig.

Definition stateAC_live : Domain :=
  with_registry [entryA_live; entryB; entryC] (Some 3%positive) 2 blank.

(** * SendFilesBox — the decisions of [boxes/send_files_box.cpp]

    The box is a Qt widget; what is embedded here are the decisions it
    takes from plain data: which way of sending is preselected, which radio
    buttons exist, how the files of an album are counted, whether the
    preview order is the default one, and how the footer is laid out. *)

Module SendFilesWay.
Inductive t : Type :=
| Album
| Photos
| Files.
End SendFilesWay.

Module CompressConfirm.
Inductive t : Type :=
| Auto
| Yes
| No
| None.
End CompressConfirm.

Module SendLimit.
Inductive t : Type :=
| One
| Many.
End SendLimit.

Module AlbumType.
Inductive t : Type :=
| None
| Photo
| Video.
End AlbumType.

(** [Ui::PreparedFile] and [Ui::PreparedList], as far as the box reads
    them: the album type of each file and [albumIsPossible]. *)
Record PreparedFile : Type := {
  file_type : AlbumType.t;
  file_content : N
}.

Record PreparedList : Type := {
  files : list PreparedFile;
  albumIsPossible : bool
}.

Definition is_video (f : PreparedFile) : bool :=
  match file_type f with
  | AlbumType.Video => true
  | _ => false
  end.

(** [IsFirstAlbumItem], [IsSingleItem]. *)
Definition IsFirstAlbumItem (list : PreparedList) : bool :=
  match files list with
  | [] => false
  | front :: _ =>
      match file_type front with
      | AlbumType.None => false
      | _ => true
      end
  end.

Definition IsSingleItem (list : PreparedList) : bool :=
  Nat.eqb (List.length (files list)) 1.

(** [SendFilesBox::refreshAlbumMediaCount]: the new values of
    [_albumVideosCount] and [_albumPhotosCount].  Both are counts of
    elements of [files], far inside the range of [int]. *)
Definition refreshAlbumMediaCount (list : PreparedList) : Z * Z :=
  let albumVideosCount :=
    if albumIsPossible list
    then Z.of_nat (count_if is_video (files list))
    else 0 in
  let albumPhotosCount :=
    if albumIsPossible list
    then Z.of_nat (List.length (files list)) - albumVideosCount
    else 0 in
  (albumVideosCount, albumPhotosCount).

(** The [value] lambda of [SendFilesBox::initSendWay]; [settingsWay] is
    [Core::App().settings().sendFilesWay()]. *)
Definition initSendWay_value (sendLimit : SendLimit.t)
    (compressConfirm : CompressConfirm.t) (list : PreparedList)
    (albumPhotosCount : Z) (settingsWay : SendFilesWay.t) : SendFilesWay.t :=
  if match sendLimit with SendLimit.One => true | _ => false end
     && albumIsPossible list
     && Nat.ltb 1 (List.length (files list))
  then SendFilesWay.Album
  else
    match compressConfirm with
    | CompressConfirm.None => SendFilesWay.Files
    | CompressConfirm.No => SendFilesWay.Files
    | CompressConfirm.Yes =>
        if albumIsPossible list
        then SendFilesWay.Album
        else SendFilesWay.Photos
    | CompressConfirm.Auto =>
        match settingsWay with
        | SendFilesWay.Files => SendFilesWay.Files
        | SendFilesWay.Album =>
            if albumIsPossible list
            then SendFilesWay.Album
            else SendFilesWay.Photos
        | SendFilesWay.Photos =>
            if albumIsPossible list && (albumPhotosCount =? 0)
            then SendFilesWay.Album
            else SendFilesWay.Photos
        end
    end.

(** [SendFilesBox::initSendWay]: the counts are refreshed first. *)
Definition initSendWay (sendLimit : SendLimit.t)
    (compressConfirm : CompressConfirm.t) (list : PreparedList)
    (settingsWay : SendFilesWay.t) : SendFilesWay.t :=
  initSendWay_value sendLimit compressConfirm list
    (snd (refreshAlbumMediaCount list)) settingsWay.

(** The labels [SendFilesBox::setupSendWayControls] asks the language pack
    for. *)
Inductive Phrase : Type :=
| lng_send_album
| lng_send_photo
| lng_send_separate_photos_videos
| lng_send_separate_photos
| lng_send_photos (count : nat)
| lng_send_file
| lng_send_files (count : nat).

(** The three radio buttons [_sendAlbum], [_sendPhotos], [_sendFiles]: each
    is absent or carries its label. *)
Record SendWayControls : Type := {
  _sendAlbum : option Phrase;
  _sendPhotos : option Phrase;
  _sendFiles : option Phrase
}.

(** [SendFilesBox::setupSendWayControls]. *)
Definition setupSendWayControls (compressConfirm : CompressConfirm.t)
    (sendLimit : SendLimit.t) (list : PreparedList)
    (albumVideosCount albumPhotosCount : Z) : SendWayControls :=
  if match compressConfirm with CompressConfirm.None => true | _ => false end
     || match sendLimit with SendLimit.One => true | _ => false end
  then {| _sendAlbum := None; _sendPhotos := None; _sendFiles := None |}
  else
    {| _sendAlbum :=
         if albumIsPossible list then Some lng_send_album else None;
       _sendPhotos :=
         if negb (albumIsPossible list) || (0 <? albumPhotosCount)
         then Some
                (if IsSingleItem list then lng_send_photo
                 else if 0 <? albumVideosCount
                 then lng_send_separate_photos_videos
                 else if albumIsPossible list then lng_send_separate_photos
                 else lng_send_photos (List.length (files list)))
         else None;
       _sendFiles :=
         Some (if IsSingleItem list then lng_send_file
               else lng_send_files (List.length (files list))) |}.

(** The radio button that stands for a way of sending. *)
Definition radio_of (way : SendFilesWay.t) (controls : SendWayControls)
  : option Phrase :=
  match way with
  | SendFilesWay.Album => _sendAlbum controls
  | SendFilesWay.Photos => _sendPhotos controls
  | SendFilesWay.Files => _sendFiles controls
  end.

(** The [isDefault] lambda of [SendFilesBox::applyAlbumOrder]: [i] runs
    over the positions of [order] from [from]. *)
Fixpoint isDefault_from (from : Z) (order : list Z) : bool :=
  match order with
  | [] => true
  | o :: rest =>
      if negb (o =? from) then false else isDefault_from (from + 1) rest
  end.

Definition isDefault (order : list Z) : bool := isDefault_from 0 order.

(** [SendFilesBox::applyAlbumOrder]; [order] is what the album preview
    hands out ([None] when there is no album preview) and [Reordered] is
    [Ui::PreparedList::Reordered]. *)
Definition applyAlbumOrder
    (Reordered : PreparedList -> list Z -> PreparedList)
    (order : option (list Z)) (list : PreparedList) : PreparedList :=
  match order with
  | None => list
  | Some o => if isDefault o then list else Reordered list o
  end.

Definition int_sub (a b : Z) : Z := int_wrap (a - b).

(** The two style constants of the footer. *)
Record FooterStyle : Type := {
  boxPhotoCaptionSkip : Z;
  boxPhotoCompressedSkip : Z
}.

(** [SendFilesBox::updateBoxSize]: the new [_footerHeight].  [caption] is
    the height of the caption field if there is one; [pointers] are the
    heights without margins of the radio buttons that exist, in the order
    album, photos, files. *)
Definition updateBoxSize (st : FooterStyle) (caption : option Z)
    (pointers : list (option Z)) : Z :=
  let footerHeight := 0 in
  let footerHeight :=
    match caption with
    | Some height => int_add footerHeight (int_add (boxPhotoCaptionSkip st) height)
    | None => footerHeight
    end in
  fold_left
    (fun footerHeight pointer =>
       match pointer with
       | Some heightNoMargins =>
           int_add footerHeight
             (int_add (boxPhotoCompressedSkip st) heightNoMargins)
       | None => footerHeight
       end)
    pointers footerHeight.

(** The vertical part of [SendFilesBox::updateControlsGeometry]: where the
    caption and the radio buttons are moved to (the buttons in the order
    the loop visits them, files first) and the [bottom] that is left for
    the preview. *)
Record FooterGeometry : Type := {
  caption_y : option Z;
  pointer_ys : list (option Z);
  bottom : Z
}.

Definition updateControlsGeometry (st : FooterStyle) (height : Z)
    (caption : option Z) (pointers : list (option Z)) : FooterGeometry :=
  let bottom0 := height in
  let captionY :=
    match caption with
    | Some captionHeight => Some (int_sub bottom0 captionHeight)
    | None => None
    end in
  let bottom1 :=
    match caption with
    | Some captionHeight =>
        int_sub bottom0 (int_add (boxPhotoCaptionSkip st) captionHeight)
    | None => bottom0
    end in
  let step (acc : list (option Z) * Z) (pointer : option Z) :=
    match pointer with
    | Some heightNoMargins =>
        (fst acc ++ [Some (int_sub (snd acc) heightNoMargins)],
         int_sub (snd acc)
           (int_add (boxPhotoCompressedSkip st) heightNoMargins))
    | None => (fst acc ++ [None], snd acc)
    end in
  let result := fold_left step (rev pointers) ([], bottom1) in
  {| caption_y := captionY;
     pointer_ys := fst result;
     bottom := snd result |}.

(** The room the radio buttons take, as a plain sum. *)
Definition radio_space (st : FooterStyle) (pointers : list (option Z)) : Z :=
  fold_right
    (fun pointer rest =>
       match pointer with
       | Some heightNoMargins =>
           boxPhotoCompressedSkip st + heightNoMargins + rest
       | None => rest
       end)
    0 pointers.

(** Three photos and a video that can go into one album. *)
Definition sampleAlbum : PreparedList :=
  {| files :=
       [{| file_type := AlbumType.Photo; file_content := 1 |};
        {| file_type := AlbumType.Video; file_content := 2 |};
        {| file_type := AlbumType.Photo; file_content := 3 |};
        {| file_type := AlbumType.Photo; file_content := 4 |}];
     albumIsPossible := true |}.

Definition sampleStyle : FooterStyle :=
  {| boxPhotoCaptionSkip := 8; boxPhotoCompressedSkip := 20 |}.

Ltac int_consts :=
  unfold in_int_range, int_wrap, INT_MIN, INT_MAX in *;
  change (2 ^ 31) with 2147483648 in *;
  change (2 ^ 32) with 4294967296 in *.

(** ** Basic facts *)

Lemma ptr_eqb_eq (a b : AccountPtr) : ptr_eqb a b = true <-> a = b.
Proof. unfold ptr_eqb. apply Pos.eqb_eq. Qed.

Lemma ptr_eqb_refl (a : AccountPtr) : ptr_eqb a a = true.
Proof. apply ptr_eqb_eq. reflexivity. Qed.

Lemma ptr_eqb_neq (a b : AccountPtr) : ptr_eqb a b = false <-> a <> b.
Proof. unfold ptr_eqb. apply Pos.eqb_neq. Qed.

Lemma optptr_eqb_eq (a b : option AccountPtr) :
  optptr_eqb a b = true <-> a = b.
Proof.
  destruct a as [x|], b as [y|]; simpl; try (split; congruence).
  rewrite ptr_eqb_eq. split; congruence.
Qed.

Lemma optptr_eqb_neq (a b : option AccountPtr) :
  optptr_eqb a b = false <-> a <> b.
Proof.
  rewrite <- optptr_eqb_eq. destruct (optptr_eqb a b); split; congruence.
Qed.

Lemma Environment_eqb_eq (a b : Environment) :
  Environment_eqb a b = true <-> a = b.
Proof. destruct a, b; simpl; split; congruence. Qed.

Lemma Environment_eqb_neq (a b : Environment) :
  Environment_eqb a b = false <-> a <> b.
Proof. destruct a, b; simpl; split; congruence. Qed.

Lemma has_session_sessionValue (e : AccountWithIndex) :
  has_session e = true <-> exists s, sessionValue e = Some s.
Proof.
  unfold has_session, sessionExists, sessionValue.
  destruct (account_session (account e)) as [s|]; split.
  - eauto.
  - reflexivity.
  - discriminate.
  - intros [s H]. discriminate.
Qed.

(** ** Machine arithmetic *)

Lemma int_wrap_range (z : Z) : in_int_range (int_wrap z).
Proof.
  int_consts.
  pose proof (Z.mod_pos_bound (z + 2147483648) 4294967296 eq_refl). lia.
Qed.

Lemma int_wrap_small (z : Z) : in_int_range z -> int_wrap z = z.
Proof.
  intros H. int_consts. rewrite Z.mod_small; lia.
Qed.

Lemma int_wrap_add_l (a b : Z) : int_wrap (int_wrap a + b) = int_wrap (a + b).
Proof.
  int_consts.
  replace ((a + 2147483648) mod 4294967296 - 2147483648 + b + 2147483648)
    with ((a + 2147483648) mod 4294967296 + b) by lia.
  rewrite Zplus_mod_idemp_l. f_equal. f_equal. lia.
Qed.

(** ** The badge recompute *)

Lemma updateUnreadBadge_loop_frame (accounts : list AccountWithIndex) :
  forall d,
    let d' := updateUnreadBadge_loop accounts d in
    _accounts d' = _accounts d /\ _active d' = _active d /\
    _accountToActivate d' = _accountToActivate d /\
    _unreadBadgeUpdateScheduled d' = _unreadBadgeUpdateScheduled d /\
    _writeAccountsScheduled d' = _writeAccountsScheduled d /\
    postponedCalls d' = postponedCalls d /\ mainCalls d' = mainCalls d /\
    trace d' = trace d.
Proof.
  induction accounts as [|e rest IH]; intros d; simpl.
  - repeat split.
  - destruct (account_session (account e)) as [s|]; [|apply IH].
    destruct (data_unreadBadgeMuted (data s)); simpl;
      match goal with |- context [updateUnreadBadge_loop rest ?x] =>
        specialize (IH x) end; simpl in IH; exact IH.
Qed.

Lemma updateUnreadBadge_loop_count (accounts : list AccountWithIndex) :
  forall d,
    in_int_range (_unreadBadge d) ->
    _unreadBadge (updateUnreadBadge_loop accounts d)
    = int_wrap (_unreadBadge d + spec_count accounts).
Proof.
  induction accounts as [|e rest IH]; intros d Hd; simpl.
  - unfold spec_count. simpl. rewrite Z.add_0_r.
    symmetry. apply int_wrap_small. exact Hd.
  - unfold spec_count, live_sessions in *. simpl. unfold sessionValue at 1.
    destruct (account_session (account e)) as [s|]; simpl.
    + destruct (data_unreadBadgeMuted (data s)); simpl; rewrite IH; simpl;
        try apply int_wrap_range;
        unfold int_add; rewrite int_wrap_add_l; f_equal; lia.
    + apply IH. exact Hd.
Qed.

Lemma updateUnreadBadge_loop_muted (accounts : list AccountWithIndex) :
  forall d,
    _unreadBadgeMuted (updateUnreadBadge_loop accounts d)
    = _unreadBadgeMuted d && spec_allMuted accounts.
Proof.
  induction accounts as [|e rest IH]; intros d; simpl.
  - unfold spec_allMuted. simpl. rewrite andb_true_r. reflexivity.
  - unfold spec_allMuted, live_sessions in *. simpl. unfold sessionValue at 1.
    destruct (account_session (account e)) as [s|]; simpl.
    + destruct (data_unreadBadgeMuted (data s)); simpl; rewrite IH; simpl.
      * reflexivity.
      * rewrite andb_false_r. reflexivity.
    + apply IH.
Qed.

Lemma updateUnreadBadge_wraps (d : Domain) :
  _unreadBadge (updateUnreadBadge d) = int_wrap (spec_count (_accounts d)).
Proof.
  unfold updateUnreadBadge. simpl.
  rewrite updateUnreadBadge_loop_count; simpl.
  - reflexivity.
  - int_consts. lia.
Qed.

(** C7.  Every run of [updateUnreadBadge] stores the sum of the unread
    counts of exactly the accounts with a live session (an [int], so the sum
    has to fit one) and the conjunction of their mutedness, [true] when no
    account has a session; it fires the changed event once, whatever the
    values were before, and touches nothing else. *)
Theorem updateUnreadBadge_recomputes (d : Domain)
    (Hfits : in_int_range (spec_count (_accounts d))) :
  let d' := updateUnreadBadge d in
  _unreadBadge d' = spec_count (_accounts d) /\
  _unreadBadgeMuted d' = spec_allMuted (_accounts d) /\
  ((forall e, In e (_accounts d) -> has_session e = false) ->
   _unreadBadge d' = 0 /\ _unreadBadgeMuted d' = true) /\
  trace d' = trace d ++ [UnreadBadgeChangesFired] /\
  _accounts d' = _accounts d /\ _active d' = _active d /\
  postponedCalls d' = postponedCalls d /\ mainCalls d' = mainCalls d.
Proof.
  intros d'.
  assert (Hcount : _unreadBadge d' = spec_count (_accounts d)).
  { unfold d'. rewrite updateUnreadBadge_wraps. apply int_wrap_small, Hfits. }
  assert (Hmuted : _unreadBadgeMuted d' = spec_allMuted (_accounts d)).
  { unfold d', updateUnreadBadge. simpl.
    rewrite updateUnreadBadge_loop_muted. reflexivity. }
  split; [exact Hcount|]. split; [exact Hmuted|]. split.
  - intros Hnone. rewrite Hcount, Hmuted.
    assert (Hlive : live_sessions (_accounts d) = []).
    { clear - Hnone. induction (_accounts d) as [|e rest IH]; simpl.
      - reflexivity.
      - assert (He : has_session e = false) by (apply Hnone; left; reflexivity).
        unfold has_session, sessionExists in He. unfold sessionValue.
        destruct (account_session (account e)); [discriminate|].
        simpl. apply IH. intros o Ho. apply Hnone. right. exact Ho. }
    unfold spec_count, spec_allMuted. rewrite Hlive. split; reflexivity.
  - unfold d', updateUnreadBadge. simpl.
    pose proof (updateUnreadBadge_loop_frame (_accounts d)
                  (set_unreadBadgeMuted true (set_unreadBadge 0 d))) as F.
    simpl in F. destruct F as (Fa & Fb & _ & _ & _ & Fp & Fm & Ft).
    rewrite Ft. repeat split; assumption.
Qed.

Lemma updateUnreadBadge_recomputes_witness :
  in_int_range (spec_count (_accounts stateABC)) /\
  _unreadBadge (updateUnreadBadge stateABC) = 5 /\
  _unreadBadgeMuted (updateUnreadBadge stateABC) = false.
Proof.
  assert (H : in_int_range (spec_count (_accounts stateABC))).
  { unfold in_int_range, INT_MIN, INT_MAX. vm_compute.
    split; discriminate. }
  split; [exact H|].
  destruct (updateUnreadBadge_recomputes stateABC H) as (Hc & Hm & _).
  split; [rewrite Hc | rewrite Hm]; reflexivity.
Defined.

(** ** Pointers into the registry *)

Lemma find_first {A : Type} (p : A -> bool) (before after : list A) (x : A) :
  (forall o, In o before -> p o = false) -> p x = true ->
  find p (before ++ x :: after) = Some x.
Proof.
  intros Hbefore Hx. induction before as [|b before IH]; simpl.
  - rewrite Hx. reflexivity.
  - rewrite (Hbefore b) by (left; reflexivity).
    apply IH. intros o Ho. apply Hbefore. right. exact Ho.
Qed.

Lemma find_none_iff {A : Type} (p : A -> bool) (l : list A) :
  find p l = None <-> (forall o, In o l -> p o = false).
Proof.
  split.
  - intros H o Ho. exact (find_none p l H o Ho).
  - intros H. induction l as [|x l IH]; simpl; [reflexivity|].
    rewrite (H x) by (left; reflexivity).
    apply IH. intros o Ho. apply H. right. exact Ho.
Qed.

Lemma find_split {A : Type} (p : A -> bool) (l : list A) (x : A) :
  find p l = Some x ->
  exists before after,
    l = before ++ x :: after /\ (forall o, In o before -> p o = false)
    /\ p x = true.
Proof.
  induction l as [|y l IH]; simpl; [discriminate|].
  destruct (p y) eqn:Hy.
  - intros H. inversion H; subst. exists [], l. simpl.
    repeat split; [intros o []|exact Hy].
  - intros H. destruct (IH H) as (before & after & Hl & Hb & Hx).
    exists (y :: before), after. subst l. simpl. repeat split.
    + intros o [Ho|Ho]; [subst; exact Hy|apply Hb, Ho].
    + exact Hx.
Qed.

Lemma lookup_member (p : AccountPtr) (accounts : list AccountWithIndex)
    (e : AccountWithIndex) :
  In e accounts -> account_ptr (account e) = p ->
  exists i, lookup p accounts = Some i /\ account_ptr (account i) = p
            /\ In i accounts.
Proof.
  intros Hin Hp. unfold lookup.
  destruct (find (has_ptr p) accounts) as [i|] eqn:Hfind.
  - exists i. apply find_some in Hfind. destruct Hfind as [Hi Hptr].
    unfold has_ptr in Hptr. apply ptr_eqb_eq in Hptr. auto.
  - exfalso. pose proof (find_none _ _ Hfind e Hin) as H.
    unfold has_ptr in H. apply ptr_eqb_neq in H. auto.
Qed.

Lemma lookup_distinct (accounts : list AccountWithIndex)
    (e : AccountWithIndex) :
  distinct_accounts accounts -> In e accounts ->
  lookup (account_ptr (account e)) accounts = Some e.
Proof.
  unfold distinct_accounts, pointers, lookup.
  induction accounts as [|x rest IH]; simpl; intros Hnd Hin; [contradiction|].
  inversion Hnd as [|? ? Hx Hrest]; subst.
  unfold has_ptr at 1.
  destruct (ptr_eqb (account_ptr (account x)) (account_ptr (account e)))
    eqn:Heq.
  - destruct Hin as [->|Hin]; [reflexivity|].
    exfalso. apply Hx. apply ptr_eqb_eq in Heq. rewrite Heq.
    apply (in_map (fun o => account_ptr (account o))). exact Hin.
  - destruct Hin as [->|Hin].
    + rewrite ptr_eqb_refl in Heq. discriminate.
    + apply IH; assumption.
Qed.

Lemma deref_single (d : Domain) (e : AccountWithIndex) :
  _accounts d = [e] -> active_in_registry d ->
  deref (_active d) d = Ok (account e).
Proof.
  intros Hone (o & Hin & Hact). rewrite Hone in Hin.
  destruct Hin as [<-|[]]. unfold deref, lookup. rewrite Hact, Hone. simpl.
  unfold has_ptr. rewrite ptr_eqb_refl. reflexivity.
Qed.

(** ** Passcode clean-up *)

(** C9.  In a state where a single registered account is the active one,
    [removePasscodeIfEmpty] returns [true] exactly when the registry holds
    one account, that account has no live session and a passcode is set,
    and then the passcode is cleared; whenever it returns [false] the
    passcode is as before, and with two or more accounts it returns [false]
    and changes nothing at all. *)
Theorem removePasscodeIfEmpty_clears (d : Domain)
    (Hactive : forall e,
       _accounts d = [e] -> _active d = Some (account_ptr (account e))) :
  exists r d',
    removePasscodeIfEmpty d = Ok (r, d') /\
    (r = true <->
       (exists e, _accounts d = [e] /\ has_session e = false)
       /\ LocalPasscode d = true) /\
    (r = true -> passcode d' = [] /\ LocalPasscode d' = false) /\
    (r = false ->
       passcode d' = passcode d /\ LocalPasscode d' = LocalPasscode d) /\
    ((2 <= List.length (_accounts d))%nat -> r = false /\ d' = d).
Proof.
  unfold removePasscodeIfEmpty.
  destruct (_accounts d) as [|e [|e2 rest]] eqn:Hreg; simpl.
  - exists false, d. repeat split; try discriminate; try lia.
    intros [(e & He & _) _]. discriminate.
  - rewrite (deref_single d e Hreg).
    2:{ exists e. rewrite Hreg. split; [left; reflexivity|].
        apply Hactive. reflexivity. }
    simpl. fold (has_session e).
    destruct (has_session e) eqn:Hs.
    + exists false, d. repeat split; try discriminate; try lia.
      intros [(o & Ho & Hso) _]. inversion Ho; subst. congruence.
    + destruct (LocalPasscode d) eqn:Hp; simpl.
      * eexists true, _. split; [reflexivity|]. repeat split; try discriminate;
          try lia. exists e. split; [reflexivity|exact Hs].
      * eexists false, _. split; [reflexivity|]. simpl.
        repeat split; try discriminate; try lia; try assumption;
          try (intros [_ H]; discriminate).
  - exists false, d. repeat split; try discriminate.
    intros [(o & Ho & _) _]. discriminate.
Qed.

Lemma removePasscodeIfEmpty_clears_witness :
  (exists d', removePasscodeIfEmpty stateA = Ok (true, d') /\ passcode d' = [])
  /\ removePasscodeIfEmpty stateAB = Ok (false, stateAB).
Proof.
  split.
  - assert (H : forall e, _accounts stateA = [e] ->
                _active stateA = Some (account_ptr (account e))).
    { intros e He. inversion He. reflexivity. }
    destruct (removePasscodeIfEmpty_clears stateA H)
      as (r & d' & Hrun & _ & Hclear & _).
    exists d'. vm_compute in Hrun. inversion Hrun; subst. split; reflexivity.
  - assert (H : forall e, _accounts stateAB = [e] ->
                _active stateAB = Some (account_ptr (account e))).
    { intros e He. discriminate He. }
    destruct (removePasscodeIfEmpty_clears stateAB H)
      as (r & d' & Hrun & _ & _ & _ & Htwo).
    destruct Htwo as [-> ->]; [simpl; lia|]. exact Hrun.
Defined.

(** C10.  With exactly one account, logged out and active,
    [removePasscodeIfEmpty] calls [Local::reset()] before it looks at the
    passcode flag: the reset is the first effect of the call, and when no
    passcode is set it is the only one, the function returning [false]. *)
Theorem removePasscodeIfEmpty_resets_first (d : Domain) (e : AccountWithIndex)
    (Hone : _accounts d = [e])
    (Hactive : _active d = Some (account_ptr (account e)))
    (Hlogged_out : has_session e = false) :
  exists r d' later,
    removePasscodeIfEmpty d = Ok (r, d') /\
    trace d' = trace d ++ LocalReset :: later /\
    r = LocalPasscode d /\
    (LocalPasscode d = false ->
       r = false /\ later = [] /\ passcode d' = passcode d).
Proof.
  unfold removePasscodeIfEmpty. rewrite Hone. simpl.
  rewrite (deref_single d e Hone).
  2:{ exists e. rewrite Hone. split; [left; reflexivity|exact Hactive]. }
  simpl. fold (has_session e). rewrite Hlogged_out.
  destruct (LocalPasscode d) eqn:Hp; simpl.
  - eexists true, _, [UnlockPasscode; SetPasscode []].
    split; [reflexivity|]. simpl. rewrite <- !app_assoc. simpl.
    split; [reflexivity|]. split; [reflexivity|]. discriminate.
  - eexists false, _, []. split; [reflexivity|]. simpl. repeat split.
Qed.

Lemma removePasscodeIfEmpty_resets_first_witness :
  exists d',
    removePasscodeIfEmpty (with_registry [entryA] (Some 1%positive) 0 blank)
    = Ok (false, d')
    /\ trace d' = [LocalReset].
Proof.
  destruct (removePasscodeIfEmpty_resets_first
              (with_registry [entryA] (Some 1%positive) 0 blank) entryA
              eq_refl eq_refl eq_refl)
    as (r & d' & later & Hrun & Htrace & Hr & Hnone).
  destruct (Hnone eq_refl) as (-> & -> & _).
  exists d'. split; [exact Hrun|exact Htrace].
Defined.

(** ** Activation *)

Lemma scheduleWriteAccounts_fields (d : Domain) :
  let d' := scheduleWriteAccounts d in
  _accounts d' = _accounts d /\ _active d' = _active d /\
  _activeLifetime d' = _activeLifetime d /\
  _accountToActivate d' = _accountToActivate d /\
  _unreadBadge d' = _unreadBadge d /\
  _unreadBadgeMuted d' = _unreadBadgeMuted d /\
  _unreadBadgeUpdateScheduled d' = _unreadBadgeUpdateScheduled d /\
  fallbackProductionConfig d' = fallbackProductionConfig d /\
  LocalPasscode d' = LocalPasscode d /\ passcode d' = passcode d /\
  postponedCalls d' = postponedCalls d /\ trace d' = trace d /\
  _writeAccountsScheduled d' = true /\
  mainCalls d'
  = if _writeAccountsScheduled d then mainCalls d
    else mainCalls d ++ [TaskWriteAccounts].
Proof.
  unfold scheduleWriteAccounts.
  destruct (_writeAccountsScheduled d) eqn:H; simpl; repeat split; auto.
Qed.

Lemma activate_same (account : AccountPtr) (d : Domain) :
  _active d = Some account -> activate account d = Ok d.
Proof.
  intros H. unfold activate.
  replace (optptr_eqb (_active d) (Some account)) with true; [reflexivity|].
  symmetry. apply optptr_eqb_eq. exact H.
Qed.

Lemma activate_effective (account : AccountPtr) (d : Domain)
    (i : AccountWithIndex) :
  _active d <> Some account ->
  lookup account (_accounts d) = Some i ->
  exists d',
    activate account d = Ok d' /\
    _accounts d' = _accounts d /\
    _active d' = Some account /\
    _activeLifetime d' = Some account /\
    _accountToActivate d' = index i /\
    trace d'
    = trace d ++ [ActiveChanged (Some account);
                  ActiveSessionsFired (sessionValue i)] /\
    _writeAccountsScheduled d'
    = (_writeAccountsScheduled d || negb (_accountToActivate d =? index i)) /\
    mainCalls d'
    = (if negb (_accountToActivate d =? index i)
          && negb (_writeAccountsScheduled d)
       then mainCalls d ++ [TaskWriteAccounts]
       else mainCalls d) /\
    _unreadBadge d' = _unreadBadge d /\
    _unreadBadgeMuted d' = _unreadBadgeMuted d /\
    _unreadBadgeUpdateScheduled d' = _unreadBadgeUpdateScheduled d /\
    fallbackProductionConfig d' = fallbackProductionConfig d /\
    LocalPasscode d' = LocalPasscode d /\ passcode d' = passcode d /\
    postponedCalls d' = postponedCalls d.
Proof.
  intros Hne Hfind. unfold activate.
  apply optptr_eqb_neq in Hne. rewrite Hne, Hfind.
  unfold assign_active. simpl. rewrite Hne.
  destruct (_accountToActivate d =? index i) eqn:Hidx; simpl.
  - eexists. split; [reflexivity|]. simpl. rewrite <- app_assoc.
    rewrite orb_false_r. repeat split.
  - eexists. split; [reflexivity|].
    match goal with |- context [scheduleWriteAccounts ?x] =>
      pose proof (scheduleWriteAccounts_fields x) as F end.
    simpl in F.
    destruct F as (F1 & F2 & F3 & F4 & F5 & F6 & F7 & F8 & F9 & F10 & F11
                   & F12 & F13 & F14).
    rewrite F1, F2, F3, F4, F5, F6, F7, F8, F9, F10, F11, F12, F13, F14.
    rewrite <- app_assoc, orb_true_r. simpl.
    destruct (_writeAccountsScheduled d); repeat split.
Qed.

(** C4.  [activate(account)] returns at once when [account] is already
    active.  Otherwise (for an account of the registry) the active pointer
    becomes [account], the active-changed event fires exactly once, and
    [scheduleWriteAccounts] is reached if and only if the stored preferred
    index differs from the index of [account]: if it differs a write is
    pending afterwards, and it is a newly queued one unless one was pending
    already; if it does not differ the latch and the queue are as before.
    An account that is neither active nor registered is fatal. *)
Theorem activate_effect (account : AccountPtr) (d : Domain) :
  (_active d = Some account -> activate account d = Ok d) /\
  (_active d <> Some account -> lookup account (_accounts d) = None ->
   activate account d = Fatal "Assert(i != end(_accounts))") /\
  (_active d <> Some account ->
   forall i, lookup account (_accounts d) = Some i ->
   exists d',
     activate account d = Ok d' /\
     _active d' = Some account /\
     _accounts d' = _accounts d /\
     _accountToActivate d' = index i /\
     count_if is_ActiveChanged (trace d')
     = S (count_if is_ActiveChanged (trace d)) /\
     (_accountToActivate d <> index i ->
        _writeAccountsScheduled d' = true /\
        mainCalls d'
        = if _writeAccountsScheduled d then mainCalls d
          else mainCalls d ++ [TaskWriteAccounts]) /\
     (_accountToActivate d = index i ->
        _writeAccountsScheduled d' = _writeAccountsScheduled d /\
        mainCalls d' = mainCalls d) /\
     (_writeAccountsScheduled d = false ->
        (mainCalls d' = mainCalls d ++ [TaskWriteAccounts]
         <-> _accountToActivate d <> index i))).
Proof.
  split; [apply activate_same|]. split.
  { intros Hne Hnone. unfold activate. apply optptr_eqb_neq in Hne.
    rewrite Hne, Hnone. reflexivity. }
  intros Hne i Hfind.
  destruct (activate_effective account d i Hne Hfind)
    as (d' & Hrun & Hacc & Hact & _ & Hidx & Htrace & Hlatch & Hqueue & _).
  exists d'. split; [exact Hrun|]. split; [exact Hact|].
  split; [exact Hacc|]. split; [exact Hidx|]. split.
  { rewrite Htrace. unfold count_if. rewrite filter_app, length_app. simpl.
    lia. }
  rewrite Hlatch, Hqueue.
  destruct (_accountToActivate d =? index i) eqn:Heq; simpl.
  - apply Z.eqb_eq in Heq. split; [intros H; contradiction|].
    split; [intros _; rewrite orb_false_r; split; reflexivity|].
    intros _. split; [|intros H; contradiction].
    intros H. exfalso.
    apply (f_equal (@List.length Task)) in H. rewrite length_app in H.
    simpl in H. lia.
  - apply Z.eqb_neq in Heq. split.
    { intros _. rewrite orb_true_r. split; [reflexivity|].
      destruct (_writeAccountsScheduled d); reflexivity. }
    split; [intros H; contradiction|].
    intros ->. simpl. split; [intros _; exact Heq|reflexivity].
Qed.

Lemma activate_effect_witness :
  exists d',
    activate 3%positive stateABC = Ok d' /\
    _active d' = Some 3%positive /\
    mainCalls d' = [TaskWriteAccounts].
Proof.
  destruct (activate_effect 3%positive stateABC) as (_ & _ & H).
  destruct (H ltac:(discriminate) entryC eq_refl)
    as (d' & Hrun & Hact & _ & _ & _ & Hdiff & _).
  exists d'. split; [exact Hrun|]. split; [exact Hact|].
  destruct (Hdiff ltac:(discriminate)) as [_ Hq]. exact Hq.
Defined.

Lemma activate_member (d : Domain) (e : AccountWithIndex) :
  In e (_accounts d) ->
  exists d',
    activate (account_ptr (account e)) d = Ok d' /\
    _active d' = Some (account_ptr (account e)) /\
    _accounts d' = _accounts d /\
    fallbackProductionConfig d' = fallbackProductionConfig d /\
    LocalPasscode d' = LocalPasscode d /\ passcode d' = passcode d.
Proof.
  intros Hin.
  destruct (optptr_eqb (_active d) (Some (account_ptr (account e)))) eqn:Heq.
  - apply optptr_eqb_eq in Heq. exists d.
    rewrite (activate_same _ _ Heq). repeat split. exact Heq.
  - apply optptr_eqb_neq in Heq.
    destruct (lookup_member _ _ e Hin eq_refl) as (i & Hfind & _ & _).
    destruct (activate_effective _ d i Heq Hfind)
      as (d' & Hrun & Hacc & Hact & _ & _ & _ & _ & _ & _ & _ & _ & Hf & Hl
          & Hp & _).
    exists d'. repeat split; assumption.
Qed.

Lemma deref_started (d : Domain) (a : Account) :
  deref (_active d) d = Ok a -> started d = true.
Proof.
  unfold deref, started, lookup.
  destruct (_active d); [|discriminate].
  destruct (_accounts d); simpl; [discriminate|reflexivity].
Qed.



(** ** Adding an account *)

Lemma contains_index_In (accounts : list AccountWithIndex) (i : Z) :
  contains_index accounts i = true <-> In i (indices accounts).
Proof.
  unfold contains_index, indices. rewrite existsb_exists, in_map_iff.
  split; intros (e & H1 & H2); exists e.
  - apply Z.eqb_eq in H2. auto.
  - split; [exact H2|]. apply Z.eqb_eq. exact H1.
Qed.

Lemma add_index_loop_none (accounts : list AccountWithIndex) :
  forall fuel i,
    add_index_loop fuel accounts i = None ->
    forall k, (k < fuel)%nat -> In (i + Z.of_nat k) (indices accounts).
Proof.
  induction fuel as [|fuel IH]; intros i Hnone k Hk; [lia|].
  simpl in Hnone.
  destruct (contains_index accounts i) eqn:Hc; [|discriminate].
  destruct k as [|k].
  - simpl. rewrite Z.add_0_r. apply contains_index_In. exact Hc.
  - replace (i + Z.of_nat (S k)) with (i + 1 + Z.of_nat k) by lia.
    apply IH; [exact Hnone|lia].
Qed.

Lemma add_index_loop_some (accounts : list AccountWithIndex) :
  forall fuel i j,
    add_index_loop fuel accounts i = Some j ->
    i <= j /\ ~ In j (indices accounts) /\
    (forall k, i <= k < j -> In k (indices accounts)).
Proof.
  induction fuel as [|fuel IH]; intros i j Hsome; [discriminate|].
  simpl in Hsome.
  destruct (contains_index accounts i) eqn:Hc.
  - destruct (IH _ _ Hsome) as (Hle & Hfree & Hbelow).
    split; [lia|]. split; [exact Hfree|].
    intros k Hk. destruct (Z.eq_dec k i) as [->|Hne].
    + apply contains_index_In. exact Hc.
    + apply Hbelow. lia.
  - inversion Hsome; subst. split; [lia|]. split.
    + rewrite <- contains_index_In. congruence.
    + intros k Hk. lia.
Qed.

(** The index search of [add] always ends: the registry cannot hold all of
    [0 .. size]. *)
Lemma add_index_total (accounts : list AccountWithIndex) :
  exists i, add_index accounts = Some i.
Proof.
  unfold add_index.
  destruct (add_index_loop (S (List.length accounts)) accounts 0)
    as [i|] eqn:Hloop; [eauto|].
  exfalso.
  pose proof (add_index_loop_none accounts _ _ Hloop) as Hall.
  set (n := List.length accounts) in *.
  assert (Hincl : incl (map Z.of_nat (seq 0 (S n))) (indices accounts)).
  { intros z Hz. apply in_map_iff in Hz. destruct Hz as (k & <- & Hk).
    apply in_seq in Hk. apply (Hall k). lia. }
  assert (Hnd : NoDup (map Z.of_nat (seq 0 (S n)))).
  { apply Injective_map_NoDup; [|apply seq_NoDup].
    intros a b. apply Nat2Z.inj. }
  pose proof (NoDup_incl_length Hnd Hincl) as Hlen.
  unfold indices in Hlen. rewrite !length_map, length_seq in Hlen.
  unfold n in Hlen. lia.
Qed.

Lemma add_index_smallest (accounts : list AccountWithIndex) (i : Z) :
  add_index accounts = Some i ->
  0 <= i <= Z.of_nat (List.length accounts) /\
  ~ In i (indices accounts) /\
  (forall k, 0 <= k < i -> In k (indices accounts)).
Proof.
  intros H. unfold add_index in H.
  destruct (add_index_loop_some _ _ _ _ H) as (Hle & Hfree & Hbelow).
  split; [|split; assumption]. split; [exact Hle|].
  destruct (Z_le_gt_dec i (Z.of_nat (List.length accounts))) as [|Hgt];
    [assumption|exfalso].
  set (n := List.length accounts) in *.
  assert (Hincl : incl (map Z.of_nat (seq 0 (S n))) (indices accounts)).
  { intros z Hz. apply in_map_iff in Hz. destruct Hz as (k & <- & Hk).
    apply in_seq in Hk. apply Hbelow. lia. }
  assert (Hnd : NoDup (map Z.of_nat (seq 0 (S n)))).
  { apply Injective_map_NoDup; [|apply seq_NoDup].
    intros a b. apply Nat2Z.inj. }
  pose proof (NoDup_incl_length Hnd Hincl) as Hlen.
  unfold indices in Hlen. rewrite !length_map, length_seq in Hlen.
  unfold n in Hlen. lia.
Qed.

Lemma uses_eq (environment : Environment) (e : AccountWithIndex) :
  uses environment e = true
  <-> mtp_environment (account_mtp (account e)) = environment.
Proof. unfold uses. apply Environment_eqb_eq. Qed.

Lemma uses_neq (environment : Environment) (e : AccountWithIndex) :
  uses environment e = false
  <-> mtp_environment (account_mtp (account e)) <> environment.
Proof. unfold uses. apply Environment_eqb_neq. Qed.

Lemma add_config_provisioned (environment : Environment) (d : Domain)
    (current : Account) :
  deref (_active d) d = Ok current ->
  exists config,
    add_config environment d = Ok config /\
    Provisioned environment current (_accounts d)
      (fallbackProductionConfig d) config.
Proof.
  intros Hcurrent. unfold add_config. rewrite Hcurrent. simpl.
  destruct (Environment_eqb (mtp_environment (account_mtp current))
              environment) eqn:Hactive.
  - eexists. split; [reflexivity|]. apply FromActive.
    apply Environment_eqb_eq. exact Hactive.
  - apply Environment_eqb_neq in Hactive.
    destruct (find (uses environment) (_accounts d)) as [e|] eqn:Hfind.
    + eexists. split; [reflexivity|].
      destruct (find_split _ _ _ Hfind) as (before & after & Hreg & Hb & He).
      apply (FromFirstMatching _ _ _ _ before after e); auto.
      * intros o Ho. apply uses_neq. apply Hb, Ho.
      * apply uses_eq. exact He.
    + assert (Hnone : forall o, In o (_accounts d) ->
                mtp_environment (account_mtp (account o)) <> environment).
      { intros o Ho. apply uses_neq. revert o Ho. apply find_none_iff.
        exact Hfind. }
      destruct (Environment_eqb environment Production) eqn:Hprod.
      * eexists. split; [reflexivity|]. apply FromFallback; auto.
        apply Environment_eqb_eq. exact Hprod.
      * eexists. split; [reflexivity|]. apply FromDefault; auto.
        apply Environment_eqb_neq. exact Hprod.
Qed.

(** The four rules leave no choice: they name one config. *)
Lemma Provisioned_functional (environment : Environment) (active : Account)
    (accounts : list AccountWithIndex) (fallback c1 c2 : Config) :
  Provisioned environment active accounts fallback c1 ->
  Provisioned environment active accounts fallback c2 ->
  c1 = c2.
Proof.
  intros H1 H2.
  assert (Hfirst : forall before after e,
            accounts = before ++ e :: after ->
            (forall o, In o before ->
               mtp_environment (account_mtp (account o)) <> environment) ->
            mtp_environment (account_mtp (account e)) = environment ->
            find (uses environment) accounts = Some e).
  { intros before after e -> Hb He. apply find_first.
    - intros o Ho. apply uses_neq. apply Hb, Ho.
    - apply uses_eq. exact He. }
  assert (Hnone : forall before after e,
            accounts = before ++ e :: after ->
            mtp_environment (account_mtp (account e)) = environment ->
            (forall o, In o accounts ->
               mtp_environment (account_mtp (account o)) <> environment) ->
            False).
  { intros before after e -> He Hall. apply (Hall e); [|exact He].
    apply in_or_app. right. left. reflexivity. }
  destruct H1 as [Ha1|b1 a1 e1 Ha1 Hr1 Hb1 He1|Ha1 Hn1 Hp1|Ha1 Hn1 Hp1];
    destruct H2 as [Ha2|b2 a2 e2 Ha2 Hr2 Hb2 He2|Ha2 Hn2 Hp2|Ha2 Hn2 Hp2];
    try reflexivity; try contradiction;
    try (exfalso; eapply Hnone; eassumption).
  pose proof (Hfirst _ _ _ Hr1 Hb1 He1) as F1.
  pose proof (Hfirst _ _ _ Hr2 Hb2 He2) as F2.
  rewrite F1 in F2. inversion F2. reflexivity.
Qed.

(** C5.  In a started domain whose active pointer designates [current],
    [add(environment)] succeeds and starts the new account on the config the
    four rules name: the active account's config if the active account uses
    [environment]; else the config of the first entry in registry order
    that uses it; else the fallback production config if [environment] is
    production; else a fresh default config for [environment].  The new
    entry is appended, logged out, and the active account stays. *)
Theorem add_provisions_config (environment : Environment) (fresh : AccountPtr)
    (d : Domain) (current : Account)
    (Hcurrent : deref (_active d) d = Ok current) :
  exists config i d',
    add environment fresh d = Ok (fresh, d') /\
    Provisioned environment current (_accounts d)
      (fallbackProductionConfig d) config /\
    (forall c,
       Provisioned environment current (_accounts d)
         (fallbackProductionConfig d) c -> c = config) /\
    _accounts d'
    = _accounts d
      ++ [{| index := i;
             account := {| account_ptr := fresh;
                           account_session := None;
                           account_mtp := Instance_start config |} |}] /\
    trace d' = trace d ++ [StartAdded fresh config] /\
    _active d' = _active d /\
    fallbackProductionConfig d' = fallbackProductionConfig d.
Proof.
  destruct (add_config_provisioned environment d current Hcurrent)
    as (config & Hconfig & Hprov).
  destruct (add_index_total (_accounts d)) as (i & Hi).
  exists config, i. unfold add.
  rewrite (deref_started d current Hcurrent), Hconfig, Hi. simpl.
  eexists. split; [reflexivity|]. simpl. split; [exact Hprov|].
  split; [|repeat split].
  intros c Hc. exact (Provisioned_functional _ _ _ _ _ _ Hc Hprov).
Qed.

Lemma add_provisions_config_witness :
  exists d',
    add Test 4%positive stateABC = Ok (4%positive, d') /\
    _accounts d'
    = [entryA; entryB; entryC; entry 3 4%positive None testConfig].
Proof.
  destruct (add_provisions_config Test 4%positive stateABC (account entryA)
              eq_refl)
    as (config & i & d' & Hrun & _ & _ & Hacc & _).
  exists d'. split; [exact Hrun|].
  vm_compute in Hrun. inversion Hrun. reflexivity.
Defined.

(** ** Removing redundant accounts *)

Lemma checkForLastProductionConfig_frame (a : Account) (d : Domain) :
  let d' := checkForLastProductionConfig a d in
  _accounts d' = _accounts d /\ _active d' = _active d /\
  _accountToActivate d' = _accountToActivate d /\
  LocalPasscode d' = LocalPasscode d /\ passcode d' = passcode d /\
  _unreadBadgeUpdateScheduled d' = _unreadBadgeUpdateScheduled d /\
  _writeAccountsScheduled d' = _writeAccountsScheduled d /\
  postponedCalls d' = postponedCalls d /\ mainCalls d' = mainCalls d.
Proof.
  unfold checkForLastProductionConfig.
  destruct (negb _); [repeat split|].
  destruct (existsb _ _); repeat split.
Qed.

Lemma other_production_existsb (accounts : list AccountWithIndex)
    (e : AccountWithIndex) :
  existsb
    (fun o => negb (has_ptr (account_ptr (account e)) o) && uses Production o)
    accounts = true
  <-> other_production accounts e.
Proof.
  unfold other_production. rewrite existsb_exists.
  split; intros (o & Hin & H); exists o; (split; [exact Hin|]).
  - apply andb_true_iff in H. destruct H as [Hp Hu].
    apply negb_true_iff in Hp. unfold has_ptr in Hp.
    apply ptr_eqb_neq in Hp. apply uses_eq in Hu. auto.
  - destruct H as [Hp Hu]. apply andb_true_iff. split.
    + apply negb_true_iff. unfold has_ptr. apply ptr_eqb_neq. exact Hp.
    + apply uses_eq. exact Hu.
Qed.

Lemma redundant_negb (active : option AccountPtr) (e : AccountWithIndex) :
  negb (redundant active e)
  = optptr_eqb (Some (account_ptr (account e))) active || has_session e.
Proof.
  unfold redundant. rewrite <- negb_orb, negb_involutive. reflexivity.
Qed.

Lemma removeRedundantAccounts_loop_result (from_i : list AccountWithIndex) :
  forall before d,
    _accounts d = before ++ from_i ->
    _accounts (removeRedundantAccounts_loop before from_i d)
    = before ++ filter (fun e => negb (redundant (_active d) e)) from_i /\
    _active (removeRedundantAccounts_loop before from_i d) = _active d /\
    _accountToActivate (removeRedundantAccounts_loop before from_i d)
    = _accountToActivate d /\
    LocalPasscode (removeRedundantAccounts_loop before from_i d)
    = LocalPasscode d /\
    passcode (removeRedundantAccounts_loop before from_i d) = passcode d.
Proof.
  induction from_i as [|e rest IH]; intros before d Hreg;
    cbn [removeRedundantAccounts_loop filter].
  - rewrite app_nil_r in *. repeat split. exact Hreg.
  - rewrite redundant_negb.
    destruct (optptr_eqb (Some (account_ptr (account e))) (_active d)
              || has_session e) eqn:Hkeep.
    + specialize (IH (before ++ [e]) d). rewrite <- !app_assoc in IH.
      apply IH. exact Hreg.
    + pose proof (checkForLastProductionConfig_frame (account e) d) as F.
      cbv zeta in F. destruct F as (_ & Fa & Fi & Fl & Fp & _).
      specialize (IH before
                    (set_accounts (before ++ rest)
                       (checkForLastProductionConfig (account e) d))
                    eq_refl).
      cbn [_active _accountToActivate LocalPasscode passcode set_accounts]
        in IH.
      rewrite Fa, Fi, Fl, Fp in IH. exact IH.
Qed.

(** What one call of [checkForLastProductionConfig] does when the erasing
    loop reaches a redundant entry [e]. *)
Lemma checkForLastProductionConfig_at_removal
    (before rest : list AccountWithIndex) (e : AccountWithIndex) (d : Domain) :
  _accounts d = before ++ e :: rest ->
  redundant (_active d) e = true ->
  removeRedundantAccounts_loop before (e :: rest) d
  = removeRedundantAccounts_loop before rest
      (set_accounts (before ++ rest)
         (checkForLastProductionConfig (account e) d)) /\
  In e (_accounts (checkForLastProductionConfig (account e) d)) /\
  (mtp_environment (account_mtp (account e)) = Production ->
   ~ other_production (_accounts d) e ->
   fallbackProductionConfig (checkForLastProductionConfig (account e) d)
   = mtp_config (account_mtp (account e)) /\
   trace (checkForLastProductionConfig (account e) d)
   = trace d
     ++ [RefreshFallbackProductionConfig
           (mtp_config (account_mtp (account e)))]) /\
  (mtp_environment (account_mtp (account e)) <> Production
   \/ other_production (_accounts d) e ->
   checkForLastProductionConfig (account e) d = d).
Proof.
  intros Hreg Hredundant. split.
  { cbn [removeRedundantAccounts_loop].
    rewrite <- redundant_negb, Hredundant. reflexivity. }
  split.
  { pose proof (checkForLastProductionConfig_frame (account e) d) as F.
    simpl in F. destruct F as (Fa & _). rewrite Fa, Hreg.
    apply in_or_app. right. left. reflexivity. }
  unfold checkForLastProductionConfig. split.
  - intros Hprod Hlast. apply Environment_eqb_eq in Hprod. rewrite Hprod.
    simpl.
    destruct (existsb _ (_accounts d)) eqn:Hex.
    + exfalso. apply Hlast. apply other_production_existsb. exact Hex.
    + simpl. split; reflexivity.
  - intros [Hother|Hother].
    + apply Environment_eqb_neq in Hother. rewrite Hother. reflexivity.
    + apply other_production_existsb in Hother. rewrite Hother.
      destruct (negb _); reflexivity.
Qed.

(** Production fallback preservation, on a run: the last production
    account is erased, its config has become the fallback, and the next
    production account is started on it. *)
Example production_fallback_preserved :
  exists d' d'',
    removeRedundantAccounts stateAT = Ok d' /\
    _accounts d' = [entryT] /\
    fallbackProductionConfig d' = productionConfig /\
    add Production 6%positive d' = Ok (6%positive, d'') /\
    _accounts d'' = [entryT; entry 0 6%positive None productionConfig].
Proof.
  vm_compute. eexists. eexists.
  split; [reflexivity|]. split; [reflexivity|]. split; [reflexivity|].
  split; reflexivity.
Qed.

Lemma filter_Permutation {A : Type} (p : A -> bool) (l l' : list A) :
  Permutation l l' -> Permutation (filter p l) (filter p l').
Proof.
  induction 1 as [|x l l' _ IH|x y l|l l' l'' _ IH1 _ IH2]; simpl.
  - constructor.
  - destruct (p x); [constructor|]; exact IH.
  - destruct (p x), (p y); try apply Permutation_refl. constructor.
  - exact (Permutation_trans IH1 IH2).
Qed.

Lemma pointers_Permutation (l l' : list AccountWithIndex) :
  Permutation l l' -> Permutation (pointers l) (pointers l').
Proof. apply Permutation_map. Qed.

(** C1, as the code has it.  With exactly the three accounts A (active,
    logged out), B (logged out) and C (logged in) in the registry, in any
    order, [removeRedundantAccounts] first re-runs [activateAuthedAccount],
    which makes C the active account; the loop then erases both A and B.
    C is the only entry left and it is the active one. *)
Theorem removeRedundantAccounts_keeps_only_live (d : Domain)
    (A B C : AccountWithIndex)
    (Hholds : Permutation (_accounts d) [A; B; C])
    (Hdistinct : distinct_accounts [A; B; C])
    (HA_active : _active d = Some (account_ptr (account A)))
    (HA : has_session A = false)
    (HB : has_session B = false)
    (HC : has_session C = true) :
  exists d',
    removeRedundantAccounts d = Ok d' /\
    _accounts d' = [C] /\
    _active d' = Some (account_ptr (account C)).
Proof.
  assert (Hin : forall o, In o (_accounts d) <-> o = A \/ o = B \/ o = C).
  { intros o. split; intros H.
    - apply (Permutation_in o Hholds) in H. simpl in H. intuition.
    - apply (Permutation_in o (Permutation_sym Hholds)). simpl. intuition. }
  assert (Hnd : distinct_accounts (_accounts d)).
  { unfold distinct_accounts in *.
    apply (Permutation_NoDup
             (pointers_Permutation _ _ (Permutation_sym Hholds))).
    exact Hdistinct. }
  assert (HptrA : account_ptr (account A) <> account_ptr (account C)).
  { unfold distinct_accounts, pointers in Hdistinct. simpl in Hdistinct.
    inversion Hdistinct as [|? ? HnA _]; subst.
    intros Heq. apply HnA. right. left. symmetry. exact Heq. }
  assert (HptrB : account_ptr (account B) <> account_ptr (account C)).
  { unfold distinct_accounts, pointers in Hdistinct. simpl in Hdistinct.
    inversion Hdistinct as [|? ? _ Hrest]; subst.
    inversion Hrest as [|? ? HnB _]; subst.
    intros Heq. apply HnB. left. symmetry. exact Heq. }
  assert (Hstarted : started d = true).
  { unfold started. destruct (_accounts d) eqn:Hreg; [|reflexivity].
    exfalso. apply (proj2 (Hin A)); auto. }
  (* activateAuthedAccount moves the active pointer to C *)
  assert (Hderef : deref (_active d) d = Ok (account A)).
  { unfold deref. rewrite HA_active, (lookup_distinct _ A Hnd); [reflexivity|].
    apply Hin. auto. }
  assert (Hfind : find has_session (_accounts d) = Some C).
  { destruct (find has_session (_accounts d)) as [x|] eqn:Hf.
    - apply find_some in Hf. destruct Hf as [Hx Hs].
      apply Hin in Hx. destruct Hx as [-> | [-> | ->]]; congruence.
    - exfalso. rewrite find_none_iff in Hf.
      rewrite (Hf C) in HC; [discriminate|]. apply Hin. auto. }
  destruct (activate_member d C) as (d1 & Hact & Hactive1 & Hacc1 & _).
  { apply Hin. auto. }
  assert (Hauthed : activateAuthedAccount d = Ok d1).
  { unfold activateAuthedAccount. rewrite Hstarted, Hderef. simpl.
    fold (has_session A). rewrite HA, Hfind. exact Hact. }
  (* the loop keeps C only *)
  destruct (removeRedundantAccounts_loop_result (_accounts d1) [] d1 eq_refl)
    as (Hacc2 & Hactive2 & _).
  set (d2 := removeRedundantAccounts_loop [] (_accounts d1) d1) in *.
  assert (Hkept : _accounts d2 = [C]).
  { rewrite Hacc2. simpl. rewrite Hacc1, Hactive1.
    apply Permutation_length_1_inv.
    apply Permutation_sym.
    eapply Permutation_trans; [apply filter_Permutation, Hholds|].
    simpl. rewrite !redundant_negb. simpl. rewrite HA, HB, HC.
    rewrite orb_true_r, !orb_false_r.
    apply ptr_eqb_neq in HptrA, HptrB. rewrite HptrA, HptrB.
    apply Permutation_refl. }
  (* nothing left for removePasscodeIfEmpty to do *)
  assert (Hpass : removePasscodeIfEmpty d2 = Ok (false, d2)).
  { unfold removePasscodeIfEmpty. rewrite Hkept. simpl.
    rewrite (deref_single d2 C Hkept).
    - simpl. fold (has_session C). rewrite HC. reflexivity.
    - exists C. rewrite Hkept, Hactive2, Hactive1.
      split; [left|]; reflexivity. }
  unfold removeRedundantAccounts. rewrite Hstarted, Hauthed. simpl.
  fold d2. rewrite Hpass. simpl.
  destruct (negb (Nat.eqb (List.length (_accounts d2))
                    (List.length (_accounts d)))).
  - eexists. split; [reflexivity|].
    destruct (scheduleWriteAccounts_fields d2) as (Fa & Fb & _).
    rewrite Fa, Fb, Hkept, Hactive2, Hactive1. split; reflexivity.
  - eexists. split; [reflexivity|].
    rewrite Hkept, Hactive2, Hactive1. split; reflexivity.
Qed.

Lemma removeRedundantAccounts_keeps_only_live_witness :
  exists d',
    removeRedundantAccounts stateABC = Ok d' /\
    _accounts d' = [entryC] /\ _active d' = Some 3%positive.
Proof.
  apply (removeRedundantAccounts_keeps_only_live stateABC
           entryA entryB entryC).
  - apply Permutation_refl.
  - unfold distinct_accounts. simpl. repeat constructor; simpl; intuition;
      discriminate.
  - reflexivity.
  - reflexivity.
  - reflexivity.
  - reflexivity.
Defined.

(** C1, as the spec words it, fails on A, B, C as above: A does not stay in
    the registry and does not stay active. *)
Lemma removeRedundantAccounts_removes_A :
  ~ (exists d',
       removeRedundantAccounts stateABC = Ok d' /\
       _accounts d' = [entryA; entryC] /\
       _active d' = Some (account_ptr (account entryA))).
Proof.
  intros (d' & Hrun & Hacc & _).
  vm_compute in Hrun. inversion Hrun; subst d'. discriminate Hacc.
Qed.

(** ** Index uniqueness *)

Lemma activate_accounts (account : AccountPtr) (d d' : Domain) :
  activate account d = Ok d' -> _accounts d' = _accounts d.
Proof.
  intros H.
  destruct (optptr_eqb (_active d) (Some account)) eqn:Heq.
  - apply optptr_eqb_eq in Heq. rewrite (activate_same _ _ Heq) in H.
    inversion H. reflexivity.
  - apply optptr_eqb_neq in Heq.
    destruct (lookup account (_accounts d)) as [i|] eqn:Hfind.
    + destruct (activate_effective _ _ _ Heq Hfind) as (d1 & Hrun & Hacc & _).
      rewrite Hrun in H. inversion H; subst. exact Hacc.
    + unfold activate in H. apply optptr_eqb_neq in Heq.
      rewrite Heq, Hfind in H. discriminate.
Qed.

Lemma activateAuthedAccount_accounts (d d' : Domain) :
  activateAuthedAccount d = Ok d' -> _accounts d' = _accounts d.
Proof.
  unfold activateAuthedAccount.
  destruct (negb (started d)); [discriminate|].
  destruct (deref (_active d) d) as [current|]; simpl; [|discriminate].
  destruct (sessionExists current); [intros H; inversion H; reflexivity|].
  destruct (find has_session (_accounts d)) as [i|].
  - apply activate_accounts.
  - intros H; inversion H; reflexivity.
Qed.

Lemma removePasscodeIfEmpty_accounts (d d' : Domain) (r : bool) :
  removePasscodeIfEmpty d = Ok (r, d') -> _accounts d' = _accounts d.
Proof.
  unfold removePasscodeIfEmpty.
  destruct (negb _); [intros H; inversion H; reflexivity|].
  destruct (deref (_active d) d) as [current|]; simpl; [|discriminate].
  destruct (sessionExists current); [intros H; inversion H; reflexivity|].
  destruct (negb (LocalPasscode d)); intros H; inversion H; reflexivity.
Qed.

Lemma scheduleUpdateUnreadBadge_accounts (d : Domain) :
  _accounts (scheduleUpdateUnreadBadge d) = _accounts d.
Proof.
  unfold scheduleUpdateUnreadBadge.
  destruct (_unreadBadgeUpdateScheduled d); reflexivity.
Qed.

Lemma scheduleWriteAccounts_accounts (d : Domain) :
  _accounts (scheduleWriteAccounts d) = _accounts d.
Proof. apply scheduleWriteAccounts_fields. Qed.

Lemma updateUnreadBadge_accounts (d : Domain) :
  _accounts (updateUnreadBadge d) = _accounts d.
Proof.
  unfold updateUnreadBadge. simpl.
  pose proof (updateUnreadBadge_loop_frame (_accounts d)
                (set_unreadBadgeMuted true (set_unreadBadge 0 d))) as F.
  simpl in F. apply F.
Qed.

Lemma indices_update_account (p : AccountPtr) (f : Account -> Account)
    (accounts : list AccountWithIndex) :
  indices (update_account p f accounts) = indices accounts.
Proof.
  unfold indices, update_account. rewrite map_map. apply map_ext.
  intros e. destruct (has_ptr p e); reflexivity.
Qed.

Lemma NoDup_indices_filter (p : AccountWithIndex -> bool)
    (accounts : list AccountWithIndex) :
  NoDup (indices accounts) -> NoDup (indices (filter p accounts)).
Proof.
  unfold indices. induction accounts as [|e rest IH]; simpl; intros H.
  - constructor.
  - inversion H as [|? ? Hnot Hrest]; subst.
    destruct (p e); simpl; [|apply IH, Hrest].
    constructor; [|apply IH, Hrest].
    intros Hin. apply Hnot. apply in_map_iff in Hin.
    destruct Hin as (o & Ho & Hin). apply filter_In in Hin.
    apply in_map_iff. exists o. tauto.
Qed.

Lemma NoDup_indices_snoc (accounts : list AccountWithIndex)
    (e : AccountWithIndex) :
  NoDup (indices accounts) -> ~ In (index e) (indices accounts) ->
  NoDup (indices (accounts ++ [e])).
Proof.
  intros Hnd Hfree. unfold indices in *. rewrite map_app. simpl.
  apply NoDup_app.
  - exact Hnd.
  - constructor; [intros []|constructor].
  - intros x Hx [<-|[]]. exact (Hfree Hx).
Qed.

Lemma accountAddedInStorage_result (e : AccountWithIndex) (d : Domain) :
  (In (index e) (indices (_accounts d)) ->
   accountAddedInStorage e d = Fatal "Repeated account index.") /\
  (~ In (index e) (indices (_accounts d)) ->
   accountAddedInStorage e d = Ok (set_accounts (_accounts d ++ [e]) d)).
Proof.
  unfold accountAddedInStorage. fold (contains_index (_accounts d) (index e)).
  destruct (contains_index (_accounts d) (index e)) eqn:Hc.
  - split; [reflexivity|]. intros H. exfalso. apply H.
    apply contains_index_In. exact Hc.
  - split; [|reflexivity]. intros H. apply contains_index_In in H. congruence.
Qed.

Lemma add_result (environment : Environment) (fresh : AccountPtr)
    (d d' : Domain) (p : AccountPtr) :
  add environment fresh d = Ok (p, d') ->
  exists e,
    _accounts d' = _accounts d ++ [e] /\
    account_ptr (account e) = fresh /\ p = fresh /\
    0 <= index e <= Z.of_nat (List.length (_accounts d)) /\
    ~ In (index e) (indices (_accounts d)) /\
    (forall k, 0 <= k < index e -> In k (indices (_accounts d))).
Proof.
  unfold add. destruct (negb (started d)); [discriminate|].
  destruct (add_config environment d) as [config|]; simpl; [|discriminate].
  destruct (add_index (_accounts d)) as [i|] eqn:Hi; [|discriminate].
  intros H. inversion H; subst. simpl.
  eexists. split; [reflexivity|]. simpl.
  destruct (add_index_smallest _ _ Hi) as (Hrange & Hfree & Hbelow).
  repeat split; try assumption; apply Hrange.
Qed.

Lemma removeRedundantAccounts_accounts (d d' : Domain) :
  removeRedundantAccounts d = Ok d' ->
  exists d1,
    activateAuthedAccount d = Ok d1 /\
    _accounts d'
    = filter (fun e => negb (redundant (_active d1) e)) (_accounts d).
Proof.
  unfold removeRedundantAccounts.
  destruct (negb (started d)); [discriminate|].
  destruct (activateAuthedAccount d) as [d1|] eqn:Hauthed; simpl;
    [|discriminate].
  destruct (removeRedundantAccounts_loop_result (_accounts d1) [] d1 eq_refl)
    as (Hacc2 & _).
  set (d2 := removeRedundantAccounts_loop [] (_accounts d1) d1) in *.
  destruct (removePasscodeIfEmpty d2) as [[r d3]|] eqn:Hpass; simpl;
    [|discriminate].
  pose proof (removePasscodeIfEmpty_accounts _ _ _ Hpass) as Hacc3.
  pose proof (activateAuthedAccount_accounts _ _ Hauthed) as Hacc1.
  intros H. exists d1. split; [reflexivity|].
  destruct (negb r && _); inversion H; subst;
    rewrite ?scheduleWriteAccounts_accounts, Hacc3, Hacc2, Hacc1;
    reflexivity.
Qed.

Lemma runTask_indices (t : Task) (d d' : Domain) :
  NoDup (indices (_accounts d)) -> runTask t d = Ok d' ->
  NoDup (indices (_accounts d')).
Proof.
  intros Hnd. destruct t; simpl; intros H.
  - inversion H; subst. rewrite updateUnreadBadge_accounts. exact Hnd.
  - inversion H; subst. exact Hnd.
  - destruct (removeRedundantAccounts_accounts _ _ H) as (d1 & _ & ->).
    apply NoDup_indices_filter, Hnd.
Qed.

Lemma apply_op_indices (op : Op) (d d' : Domain) :
  NoDup (indices (_accounts d)) -> apply_op op d = Ok d' ->
  NoDup (indices (_accounts d')).
Proof.
  intros Hnd. destruct op; simpl; intros H.
  - destruct (in_dec Z.eq_dec (index accountWithIndex)
                (indices (_accounts d))) as [Hin|Hout].
    + rewrite (proj1 (accountAddedInStorage_result _ d) Hin) in H.
      discriminate.
    + rewrite (proj2 (accountAddedInStorage_result _ d) Hout) in H.
      inversion H; subst. simpl. apply NoDup_indices_snoc; assumption.
  - inversion H; subst. exact Hnd.
  - unfold activateAfterStarting in H.
    destruct (_accounts d) as [|front others] eqn:Hreg; [discriminate|].
    match type of H with
    | context [activate ?p d] =>
        destruct (activate p d) as [d1|] eqn:Hact
    end; simpl in H; [|discriminate].
    destruct (removePasscodeIfEmpty d1) as [[r d2]|] eqn:Hpass; simpl in H;
      [|discriminate].
    inversion H; subst.
    rewrite (removePasscodeIfEmpty_accounts _ _ _ Hpass),
      (activate_accounts _ _ _ Hact), Hreg.
    exact Hnd.
  - destruct (add environment fresh d) as [[p d1]|] eqn:Hadd; simpl in H;
      [|discriminate].
    inversion H; subst.
    destruct (add_result _ _ _ _ _ Hadd) as (e & -> & _ & _ & _ & Hfree & _).
    apply NoDup_indices_snoc; assumption.
  - rewrite (activate_accounts _ _ _ H). exact Hnd.
  - inversion H; subst. unfold sessionCreated. simpl.
    rewrite indices_update_account. exact Hnd.
  - inversion H; subst.
    unfold unreadStateChanged, watchSession_unreadBadgeChanged.
    rewrite scheduleUpdateUnreadBadge_accounts. simpl.
    rewrite indices_update_account. exact Hnd.
  - unfold sessionEnded, watchSession_sessionEnded in H.
    match type of H with
    | context [scheduleUpdateUnreadBadge ?x] =>
        pose proof (scheduleUpdateUnreadBadge_accounts x) as Hs;
        set (d1 := scheduleUpdateUnreadBadge x) in *
    end.
    simpl in Hs.
    assert (Hnd1 : NoDup (indices (_accounts d1))).
    { rewrite Hs, indices_update_account. exact Hnd. }
    destruct (optptr_eqb (Some account0) (_active d1)).
    + destruct (activateAuthedAccount d1) as [d2|] eqn:Hauthed; simpl in H;
        [|discriminate].
      inversion H; subst. simpl.
      rewrite (activateAuthedAccount_accounts _ _ Hauthed). exact Hnd1.
    + simpl in H. inversion H; subst. exact Hnd1.
  - destruct (removeRedundantAccounts_accounts _ _ H) as (d1 & _ & ->).
    apply NoDup_indices_filter, Hnd.
  - unfold runPostponedCall, runPostponedCall_firing in H.
    destruct (postponedCalls d) as [|t rest].
    + inversion H; subst. exact Hnd.
    + apply (runTask_indices t (set_postponedCalls rest d) d' Hnd H).
  - unfold runMainCall in H.
    destruct (mainCalls d) as [|t rest].
    + inversion H; subst. exact Hnd.
    + apply (runTask_indices t (set_mainCalls rest d) d' Hnd H).
  - inversion H; subst. simpl. constructor.
Qed.

Lemma run_ops_indices (ops : list Op) :
  forall d d',
    NoDup (indices (_accounts d)) -> run_ops ops d = Ok d' ->
    NoDup (indices (_accounts d')).
Proof.
  induction ops as [|op rest IH]; simpl; intros d d' Hnd H.
  - inversion H; subst. exact Hnd.
  - destruct (apply_op op d) as [d1|] eqn:Hop; simpl in H; [|discriminate].
    apply (IH d1 d'); [|exact H]. apply (apply_op_indices op d d1 Hnd Hop).
Qed.

Lemma run_ops_app (ops1 ops2 : list Op) :
  forall d d',
    run_ops (ops1 ++ ops2) d = Ok d' ->
    exists d1, run_ops ops1 d = Ok d1 /\ run_ops ops2 d1 = Ok d'.
Proof.
  induction ops1 as [|op rest IH]; simpl; intros d d' H.
  - exists d. split; [reflexivity|exact H].
  - destruct (apply_op op d) as [d1|]; simpl in *; [|discriminate].
    apply IH. exact H.
Qed.

(** Activation fallback: when the session of the active account ends, the
    first other account that is still logged in becomes the active one. *)
Lemma lookup_update_account (p : AccountPtr) (f : Account -> Account)
    (accounts : list AccountWithIndex) :
  (forall a, account_ptr (f a) = account_ptr a) ->
  In p (pointers accounts) ->
  exists o,
    In o accounts /\
    lookup p (update_account p f accounts)
    = Some {| index := index o; account := f (account o) |}.
Proof.
  intros Hf. unfold lookup, update_account, pointers.
  induction accounts as [|x rest IH]; simpl; [intros []|].
  intros Hin. destruct (has_ptr p x) eqn:Hx.
  - exists x. split; [left; reflexivity|].
    unfold has_ptr at 1. simpl. rewrite Hf. unfold has_ptr in Hx.
    rewrite Hx. reflexivity.
  - rewrite Hx. destruct Hin as [Hin|Hin].
    + unfold has_ptr in Hx. rewrite Hin, ptr_eqb_refl in Hx. discriminate.
    + destruct (IH Hin) as (o & Ho & Hfind). exists o.
      split; [right; exact Ho|exact Hfind].
Qed.

Lemma sessionEnded_activation_fallback (d : Domain) (p : AccountPtr)
    (before after : list AccountWithIndex) (e : AccountWithIndex) :
  _active d = Some p ->
  In p (pointers (_accounts d)) ->
  _accounts d = before ++ e :: after ->
  (forall o, In o before ->
     has_session o = false \/ account_ptr (account o) = p) ->
  has_session e = true ->
  account_ptr (account e) <> p ->
  exists d',
    sessionEnded p d = Ok d' /\ _active d' = Some (account_ptr (account e)).
Proof.
  intros Hactive Hp Hreg Hbefore He Hne.
  unfold sessionEnded, watchSession_sessionEnded.
  set (d0 := set_accounts
               (update_account p (with_session None) (_accounts d)) d).
  set (d1 := scheduleUpdateUnreadBadge d0).
  assert (Hacc1 : _accounts d1
                  = update_account p (with_session None) (_accounts d)).
  { unfold d1. rewrite scheduleUpdateUnreadBadge_accounts. reflexivity. }
  assert (Hact1 : _active d1 = Some p).
  { unfold d1, scheduleUpdateUnreadBadge.
    destruct (_unreadBadgeUpdateScheduled d0); exact Hactive. }
  rewrite Hact1. simpl. rewrite ptr_eqb_refl.
  assert (He_kept : In e (_accounts d1)).
  { rewrite Hacc1, Hreg. unfold update_account. rewrite map_app. simpl.
    apply in_or_app. right. left.
    apply ptr_eqb_neq in Hne. unfold has_ptr. rewrite Hne. reflexivity. }
  assert (Hfind : find has_session (_accounts d1) = Some e).
  { rewrite Hacc1, Hreg. unfold update_account. rewrite map_app. simpl.
    assert (Hkeep : has_ptr p e = false)
      by (apply ptr_eqb_neq; exact Hne).
    rewrite Hkeep. apply find_first; [|exact He].
    intros o Ho. apply in_map_iff in Ho. destruct Ho as (x & <- & Hx).
    destruct (has_ptr p x) eqn:Hpx; [reflexivity|].
    destruct (Hbefore x Hx) as [H|H]; [exact H|].
    unfold has_ptr in Hpx. rewrite H, ptr_eqb_refl in Hpx. discriminate. }
  destruct (lookup_update_account p (with_session None) (_accounts d)
              (fun a => eq_refl) Hp) as (o & _ & Hlook).
  destruct (activate_member d1 e He_kept) as (d2 & Hrun & Hact2 & _).
  assert (Hstarted : started d1 = true).
  { unfold started. destruct (_accounts d1); [contradiction|reflexivity]. }
  unfold activateAuthedAccount, deref.
  rewrite Hstarted, Hact1, Hacc1, Hlook, <- Hacc1. simpl.
  rewrite Hfind, Hrun. simpl.
  eexists. split; [reflexivity|]. exact Hact2.
Qed.

(** C2.  In every state a history of operations reaches from a new
    [Domain], and in every state it passes through, the indices of the
    registry entries are pairwise distinct.  [accountAddedInStorage] checks
    the index on every call: it is fatal when the index is present and
    appends otherwise; [add] appends under the smallest index not in use. *)
Theorem indices_pairwise_distinct (fallback : Config) (flag : bool)
    (code : QByteArray) (ops : list Op) (d : Domain)
    (Hrun : run_ops ops (Domain_new fallback flag code) = Ok d) :
  NoDup (indices (_accounts d)) /\
  (forall earlier later,
     ops = earlier ++ later ->
     exists d1,
       run_ops earlier (Domain_new fallback flag code) = Ok d1 /\
       NoDup (indices (_accounts d1))) /\
  (forall e,
     In (index e) (indices (_accounts d)) ->
     accountAddedInStorage e d = Fatal "Repeated account index.") /\
  (forall e,
     ~ In (index e) (indices (_accounts d)) ->
     accountAddedInStorage e d = Ok (set_accounts (_accounts d ++ [e]) d)) /\
  (forall environment fresh p d',
     add environment fresh d = Ok (p, d') ->
     exists e,
       _accounts d' = _accounts d ++ [e] /\
       ~ In (index e) (indices (_accounts d)) /\
       0 <= index e /\
       (forall k, 0 <= k < index e -> In k (indices (_accounts d))) /\
       NoDup (indices (_accounts d'))).
Proof.
  assert (Hnew : NoDup (indices (_accounts (Domain_new fallback flag code)))).
  { simpl. constructor. }
  assert (Hnd : NoDup (indices (_accounts d))).
  { exact (run_ops_indices ops _ _ Hnew Hrun). }
  split; [exact Hnd|]. split.
  { intros earlier later ->.
    destruct (run_ops_app earlier later _ _ Hrun) as (d1 & H1 & _).
    exists d1. split; [exact H1|].
    exact (run_ops_indices earlier _ _ Hnew H1). }
  split; [intros e; apply accountAddedInStorage_result|].
  split; [intros e; apply accountAddedInStorage_result|].
  intros environment fresh p d' Hadd.
  destruct (add_result _ _ _ _ _ Hadd)
    as (e & Hacc & _ & _ & Hrange & Hfree & Hbelow).
  exists e. split; [exact Hacc|]. split; [exact Hfree|].
  split; [apply Hrange|]. split; [exact Hbelow|].
  rewrite Hacc. apply NoDup_indices_snoc; assumption.
Qed.

Lemma indices_pairwise_distinct_witness :
  exists d,
    run_ops sampleHistory blank = Ok d /\
    indices (_accounts d) = [2; 0] /\
    NoDup (indices (_accounts d)).
Proof.
  assert (H : exists d,
            run_ops sampleHistory blank = Ok d /\
            indices (_accounts d) = [2; 0]).
  { vm_compute. eexists. split; reflexivity. }
  destruct H as (d & Hrun & Hidx).
  exists d. split; [exact Hrun|]. split; [exact Hidx|].
  exact (proj1 (indices_pairwise_distinct fallbackConfig false []
                  sampleHistory d Hrun)).
Defined.

(** ** Debouncing *)

Lemma unreadStateChanged_fields (p : AccountPtr) (v : Data) (d : Domain) :
  _unreadBadgeUpdateScheduled (unreadStateChanged p v d) = true /\
  postponedCalls (unreadStateChanged p v d)
  = (if _unreadBadgeUpdateScheduled d then postponedCalls d
     else postponedCalls d ++ [TaskUpdateUnreadBadge]) /\
  trace (unreadStateChanged p v d) = trace d /\
  _unreadBadge (unreadStateChanged p v d) = _unreadBadge d /\
  _unreadBadgeMuted (unreadStateChanged p v d) = _unreadBadgeMuted d.
Proof.
  unfold unreadStateChanged, watchSession_unreadBadgeChanged,
    scheduleUpdateUnreadBadge.
  simpl. destruct (_unreadBadgeUpdateScheduled d) eqn:H; simpl;
    repeat split; auto.
Qed.

Lemma deliver_while_scheduled (events : list (AccountPtr * Data)) :
  forall d,
    _unreadBadgeUpdateScheduled d = true ->
    _unreadBadgeUpdateScheduled (deliver events d) = true /\
    postponedCalls (deliver events d) = postponedCalls d /\
    trace (deliver events d) = trace d /\
    _unreadBadge (deliver events d) = _unreadBadge d /\
    _unreadBadgeMuted (deliver events d) = _unreadBadgeMuted d.
Proof.
  induction events as [|[p v] rest IH]; intros d Hlatch; simpl.
  - repeat split. exact Hlatch.
  - destruct (unreadStateChanged_fields p v d) as (F1 & F2 & F3 & F4 & F5).
    rewrite Hlatch in F2.
    destruct (IH _ F1) as (G1 & G2 & G3 & G4 & G5).
    unfold deliver in *.
    rewrite G2, G3, G4, G5, F2, F3, F4, F5. repeat split. exact G1.
Qed.

Lemma deliver_burst (first : AccountPtr * Data)
    (more : list (AccountPtr * Data)) (d : Domain) :
  _unreadBadgeUpdateScheduled d = false ->
  _unreadBadgeUpdateScheduled (deliver (first :: more) d) = true /\
  postponedCalls (deliver (first :: more) d)
  = postponedCalls d ++ [TaskUpdateUnreadBadge] /\
  trace (deliver (first :: more) d) = trace d /\
  _unreadBadge (deliver (first :: more) d) = _unreadBadge d /\
  _unreadBadgeMuted (deliver (first :: more) d) = _unreadBadgeMuted d.
Proof.
  intros Hlatch. destruct first as [p v].
  destruct (unreadStateChanged_fields p v d) as (F1 & F2 & F3 & F4 & F5).
  rewrite Hlatch in F2.
  destruct (deliver_while_scheduled more _ F1) as (G1 & G2 & G3 & G4 & G5).
  change (deliver ((p, v) :: more) d)
    with (deliver more (unreadStateChanged p v d)).
  rewrite G2, G3, G4, G5, F2, F3, F4, F5. repeat split. exact G1.
Qed.

(** C8.  Starting with nothing pending, any burst of one or more badge
    triggers leaves exactly one deferred recompute in the queue and
    recomputes nothing yet.  When that call runs, [updateUnreadBadge] runs
    exactly once, on the registry as the last trigger of the burst left it.
    The latch is reset before the body: triggers that arrive during the
    body (from the subscribers of the changed event, [during]) find it down
    and queue exactly one follow-up, and so does any burst after the
    call. *)
Theorem badge_triggers_coalesce (d : Domain) (first : AccountPtr * Data)
    (more during : list (AccountPtr * Data))
    (Hidle : _unreadBadgeUpdateScheduled d = false)
    (Hnone : postponedCalls d = []) :
  let burst := deliver (first :: more) d in
  postponedCalls burst = [TaskUpdateUnreadBadge] /\
  trace burst = trace d /\
  _unreadBadge burst = _unreadBadge d /\
  runPostponedCall burst = runPostponedCall_firing (deliver []) burst /\
  exists d',
    runPostponedCall_firing (deliver during) burst = Ok d' /\
    count_if is_UnreadBadgeChangesFired (trace d')
    = S (count_if is_UnreadBadgeChangesFired (trace d)) /\
    _unreadBadge d' = int_wrap (spec_count (_accounts burst)) /\
    _unreadBadgeMuted d' = spec_allMuted (_accounts burst) /\
    _unreadBadgeUpdateScheduled d'
    = match during with [] => false | _ :: _ => true end /\
    postponedCalls d'
    = match during with [] => [] | _ :: _ => [TaskUpdateUnreadBadge] end /\
    (forall again others,
       postponedCalls (deliver (again :: others) d')
       = [TaskUpdateUnreadBadge]).
Proof.
  intros burst.
  destruct (deliver_burst first more d Hidle) as (B1 & B2 & B3 & B4 & B5).
  fold burst in B1, B2, B3, B4, B5. rewrite Hnone in B2. simpl in B2.
  set (reset :=
         set_unreadBadgeUpdateScheduled false (set_postponedCalls [] burst)).
  pose proof (updateUnreadBadge_loop_frame (_accounts reset)
                (set_unreadBadgeMuted true (set_unreadBadge 0 reset))) as F.
  cbv zeta in F. destruct F as (_ & _ & _ & Flatch & _ & Fq & _ & Ft).
  set (u := updateUnreadBadge reset).
  assert (Ulatch : _unreadBadgeUpdateScheduled u = false).
  { unfold u, updateUnreadBadge. simpl. simpl in Flatch. rewrite Flatch.
    reflexivity. }
  assert (Uqueue : postponedCalls u = []).
  { unfold u, updateUnreadBadge. simpl. simpl in Fq. rewrite Fq.
    reflexivity. }
  assert (Ucount : count_if is_UnreadBadgeChangesFired (trace u)
                   = S (count_if is_UnreadBadgeChangesFired (trace d))).
  { unfold u, updateUnreadBadge, count_if. simpl. simpl in Ft. rewrite Ft.
    rewrite filter_app, length_app, B3. simpl. lia. }
  assert (Ubadge : _unreadBadge u = int_wrap (spec_count (_accounts burst))).
  { exact (updateUnreadBadge_wraps reset). }
  assert (Umuted : _unreadBadgeMuted u = spec_allMuted (_accounts burst)).
  { unfold u, updateUnreadBadge. simpl.
    rewrite updateUnreadBadge_loop_muted. reflexivity. }
  split; [exact B2|]. split; [exact B3|]. split; [exact B4|].
  split; [reflexivity|].
  exists (deliver during u). split.
  { unfold runPostponedCall_firing. rewrite B2. reflexivity. }
  destruct during as [|now later].
  - change (deliver [] u) with u.
    split; [exact Ucount|]. split; [exact Ubadge|].
    split; [exact Umuted|]. split; [exact Ulatch|]. split; [exact Uqueue|].
    intros again others.
    destruct (deliver_burst again others u Ulatch) as (_ & Q & _).
    rewrite Q, Uqueue. reflexivity.
  - destruct (deliver_burst now later u Ulatch) as (D1 & D2 & D3 & D4 & D5).
    rewrite D3, D4, D5, D2, Uqueue.
    split; [exact Ucount|]. split; [exact Ubadge|].
    split; [exact Umuted|]. split; [exact D1|]. split; [reflexivity|].
    intros again others.
    change (deliver (again :: others) (deliver (now :: later) u))
      with (deliver others
              (unreadStateChanged (fst again) (snd again)
                 (deliver (now :: later) u))).
    destruct (unreadStateChanged_fields (fst again) (snd again)
                (deliver (now :: later) u)) as (F1 & F2 & _).
    rewrite D1 in F2.
    destruct (deliver_while_scheduled others _ F1) as (_ & G2 & _).
    rewrite G2, F2, D2, Uqueue. reflexivity.
Qed.

Lemma badge_triggers_coalesce_witness :
  let burst :=
    deliver [(3%positive, unread 7); (3%positive, unread 9)] stateABC in
  postponedCalls burst = [TaskUpdateUnreadBadge] /\
  exists d',
    runPostponedCall_firing (deliver [(3%positive, unread 11)]) burst = Ok d' /\
    _unreadBadge d' = 9 /\
    postponedCalls d' = [TaskUpdateUnreadBadge].
Proof.
  intros burst.
  destruct (badge_triggers_coalesce stateABC (3%positive, unread 7)
              [(3%positive, unread 9)] [(3%positive, unread 11)]
              eq_refl eq_refl)
    as (Hq & _ & _ & _ & d' & Hrun & _ & Hbadge & _ & _ & Hqueue & _).
  split; [exact Hq|]. exists d'. split; [exact Hrun|].
  split; [rewrite Hbadge; reflexivity|exact Hqueue].
Defined.

(** ** The active pointer never dangles *)

Lemma pointers_update_account (p : AccountPtr) (f : Account -> Account)
    (l : list AccountWithIndex) :
  (forall a, account_ptr (f a) = account_ptr a) ->
  pointers (update_account p f l) = pointers l.
Proof.
  intros Hf. unfold pointers, update_account. rewrite map_map.
  apply map_ext. intros e. destruct (has_ptr p e); simpl; [apply Hf|reflexivity].
Qed.

Lemma pointers_In (l : list AccountWithIndex) (p : AccountPtr) :
  In p (pointers l) <-> exists e, In e l /\ account_ptr (account e) = p.
Proof.
  unfold pointers. rewrite in_map_iff. split; intros (e & H1 & H2); exists e; auto.
Qed.

Lemma activate_active (account : AccountPtr) (d d' : Domain) :
  activate account d = Ok d' ->
  _active d' = Some account /\
  (_active d = Some account \/ In account (pointers (_accounts d))).
Proof.
  intros H.
  destruct (optptr_eqb (_active d) (Some account)) eqn:Heq.
  - apply optptr_eqb_eq in Heq. rewrite (activate_same _ _ Heq) in H.
    inversion H; subst. auto.
  - apply optptr_eqb_neq in Heq.
    destruct (lookup account (_accounts d)) as [i|] eqn:Hfind.
    + destruct (activate_effective _ _ _ Heq Hfind) as (d1 & Hrun & _ & Hact & _).
      rewrite Hrun in H. inversion H; subst. split; [exact Hact|]. right.
      apply find_some in Hfind. destruct Hfind as [Hin Hp].
      apply pointers_In. exists i. split; [exact Hin|].
      apply ptr_eqb_eq. exact Hp.
    + unfold activate in H. apply optptr_eqb_neq in Heq.
      rewrite Heq, Hfind in H. discriminate.
Qed.

Lemma activate_not_dangling (account : AccountPtr) (d d' : Domain) :
  not_dangling d -> activate account d = Ok d' -> not_dangling d'.
Proof.
  intros Hinv H. destruct (activate_active _ _ _ H) as [Hact Hmem].
  intros p Hp. rewrite Hact in Hp. inversion Hp; subst p.
  rewrite (activate_accounts _ _ _ H).
  destruct Hmem as [Hsame|Hin]; [apply Hinv, Hsame|exact Hin].
Qed.

Lemma activateAuthedAccount_not_dangling (d d' : Domain) :
  not_dangling d -> activateAuthedAccount d = Ok d' -> not_dangling d'.
Proof.
  intros Hinv. unfold activateAuthedAccount.
  destruct (negb (started d)); [discriminate|].
  destruct (deref (_active d) d) as [current|]; simpl; [|discriminate].
  destruct (sessionExists current); [intros H; inversion H; subst; exact Hinv|].
  destruct (find has_session (_accounts d)) as [i|].
  - apply activate_not_dangling. exact Hinv.
  - intros H; inversion H; subst; exact Hinv.
Qed.

Lemma removePasscodeIfEmpty_active (d d' : Domain) (r : bool) :
  removePasscodeIfEmpty d = Ok (r, d') -> _active d' = _active d.
Proof.
  unfold removePasscodeIfEmpty.
  destruct (negb _); [intros H; inversion H; reflexivity|].
  destruct (deref (_active d) d) as [current|]; simpl; [|discriminate].
  destruct (sessionExists current); [intros H; inversion H; reflexivity|].
  destruct (negb (LocalPasscode d)); intros H; inversion H; reflexivity.
Qed.

Lemma scheduleUpdateUnreadBadge_active (d : Domain) :
  _active (scheduleUpdateUnreadBadge d) = _active d.
Proof.
  unfold scheduleUpdateUnreadBadge.
  destruct (_unreadBadgeUpdateScheduled d); reflexivity.
Qed.

Lemma updateUnreadBadge_active (d : Domain) :
  _active (updateUnreadBadge d) = _active d.
Proof.
  unfold updateUnreadBadge. simpl.
  pose proof (updateUnreadBadge_loop_frame (_accounts d)
                (set_unreadBadgeMuted true (set_unreadBadge 0 d))) as F.
  simpl in F. apply F.
Qed.

(** What [removeRedundantAccounts] leaves: the entries that are not
    redundant with respect to the account [activateAuthedAccount] made
    active, in their old order. *)
Lemma removeRedundantAccounts_result (d d' : Domain) :
  removeRedundantAccounts d = Ok d' ->
  exists d1,
    activateAuthedAccount d = Ok d1 /\
    _accounts d1 = _accounts d /\
    _accounts d'
    = filter (fun e => negb (redundant (_active d1) e)) (_accounts d) /\
    _active d' = _active d1.
Proof.
  unfold removeRedundantAccounts.
  destruct (negb (started d)); [discriminate|].
  destruct (activateAuthedAccount d) as [d1|] eqn:Hauthed; simpl;
    [|discriminate].
  destruct (removeRedundantAccounts_loop_result (_accounts d1) [] d1 eq_refl)
    as (Hacc2 & Hact2 & _).
  set (d2 := removeRedundantAccounts_loop [] (_accounts d1) d1) in *.
  destruct (removePasscodeIfEmpty d2) as [[r d3]|] eqn:Hpass; simpl;
    [|discriminate].
  pose proof (removePasscodeIfEmpty_accounts _ _ _ Hpass) as Hacc3.
  pose proof (removePasscodeIfEmpty_active _ _ _ Hpass) as Hact3.
  pose proof (activateAuthedAccount_accounts _ _ Hauthed) as Hacc1.
  intros H. exists d1. split; [reflexivity|]. split; [exact Hacc1|].
  destruct (negb r && _); inversion H; subst.
  - destruct (scheduleWriteAccounts_fields d3) as (Fa & Fb & _).
    rewrite Fa, Fb, Hacc3, Hacc2, Hacc1, Hact3, Hact2. split; reflexivity.
  - rewrite Hacc3, Hacc2, Hacc1, Hact3, Hact2. split; reflexivity.
Qed.

Lemma filter_keeps_active (q : option AccountPtr) (l : list AccountWithIndex)
    (p : AccountPtr) :
  q = Some p -> In p (pointers l) ->
  In p (pointers (filter (fun e => negb (redundant q e)) l)).
Proof.
  intros -> Hin. apply pointers_In in Hin. destruct Hin as (e & He & Hp).
  apply pointers_In. exists e. split; [|exact Hp].
  apply filter_In. split; [exact He|].
  rewrite redundant_negb. simpl. rewrite Hp, ptr_eqb_refl. reflexivity.
Qed.

Lemma removeRedundantAccounts_not_dangling (d d' : Domain) :
  not_dangling d -> removeRedundantAccounts d = Ok d' -> not_dangling d'.
Proof.
  intros Hinv H.
  destruct (removeRedundantAccounts_result _ _ H)
    as (d1 & Hauthed & Hacc1 & Hacc & Hact).
  pose proof (activateAuthedAccount_not_dangling _ _ Hinv Hauthed) as Hinv1.
  intros p Hp. rewrite Hact in Hp. rewrite Hacc.
  apply filter_keeps_active; [exact Hp|].
  rewrite <- Hacc1. apply Hinv1, Hp.
Qed.

Lemma runTask_not_dangling (t : Task) (d d' : Domain) :
  not_dangling d -> runTask t d = Ok d' -> not_dangling d'.
Proof.
  intros Hinv. destruct t; simpl; intros H.
  - inversion H; subst. unfold not_dangling.
    rewrite updateUnreadBadge_active, updateUnreadBadge_accounts. exact Hinv.
  - inversion H; subst. exact Hinv.
  - apply (removeRedundantAccounts_not_dangling d d' Hinv H).
Qed.

Lemma apply_op_not_dangling (op : Op) (d d' : Domain) :
  not_dangling d -> apply_op op d = Ok d' -> not_dangling d'.
Proof.
  intros Hinv. destruct op; simpl; intros H.
  - unfold accountAddedInStorage in H.
    destruct (existsb _ _); [discriminate|]. inversion H; subst.
    intros p Hp. simpl in *. unfold pointers. rewrite map_app.
    apply in_or_app. left. apply Hinv, Hp.
  - inversion H; subst. exact Hinv.
  - unfold activateAfterStarting in H.
    destruct (_accounts d) as [|front others] eqn:Hreg; [discriminate|].
    match type of H with
    | context [activate ?p d] =>
        destruct (activate p d) as [d1|] eqn:Hact
    end; simpl in H; [|discriminate].
    destruct (removePasscodeIfEmpty d1) as [[r d2]|] eqn:Hpass; simpl in H;
      [|discriminate].
    inversion H; subst.
    pose proof (activate_not_dangling _ _ _ Hinv Hact) as Hinv1.
    unfold not_dangling.
    rewrite (removePasscodeIfEmpty_accounts _ _ _ Hpass),
      (removePasscodeIfEmpty_active _ _ _ Hpass).
    exact Hinv1.
  - destruct (add environment fresh d) as [[p d1]|] eqn:Hadd; simpl in H;
      [|discriminate].
    inversion H; subst.
    destruct (add_result _ _ _ _ _ Hadd) as (e & Hacc & _).
    assert (Hact : _active d' = _active d).
    { unfold add in Hadd. destruct (negb (started d)); [discriminate|].
      destruct (add_config environment d); simpl in Hadd; [|discriminate].
      destruct (add_index (_accounts d)); [|discriminate].
      inversion Hadd; subst. reflexivity. }
    intros q Hq. rewrite Hact in Hq. rewrite Hacc. unfold pointers.
    rewrite map_app. apply in_or_app. left. apply Hinv, Hq.
  - apply (activate_not_dangling _ _ _ Hinv H).
  - inversion H; subst. unfold sessionCreated, not_dangling. simpl.
    rewrite pointers_update_account by reflexivity. exact Hinv.
  - inversion H; subst.
    unfold unreadStateChanged, watchSession_unreadBadgeChanged, not_dangling.
    rewrite scheduleUpdateUnreadBadge_active,
      scheduleUpdateUnreadBadge_accounts.
    simpl. rewrite pointers_update_account; [exact Hinv|].
    intros a. destruct (account_session a); reflexivity.
  - unfold sessionEnded, watchSession_sessionEnded in H.
    match type of H with
    | context [scheduleUpdateUnreadBadge ?x] =>
        pose proof (scheduleUpdateUnreadBadge_accounts x) as Hs;
        pose proof (scheduleUpdateUnreadBadge_active x) as Ha;
        set (d1 := scheduleUpdateUnreadBadge x) in *
    end.
    simpl in Hs, Ha.
    assert (Hinv1 : not_dangling d1).
    { unfold not_dangling. rewrite Hs, Ha.
      rewrite pointers_update_account by reflexivity. exact Hinv. }
    destruct (optptr_eqb (Some account0) (_active d1)).
    + destruct (activateAuthedAccount d1) as [d2|] eqn:Hauthed; simpl in H;
        [|discriminate].
      inversion H; subst.
      exact (activateAuthedAccount_not_dangling _ _ Hinv1 Hauthed).
    + simpl in H. inversion H; subst. exact Hinv1.
  - apply (removeRedundantAccounts_not_dangling d d' Hinv H).
  - unfold runPostponedCall, runPostponedCall_firing in H.
    destruct (postponedCalls d) as [|t rest].
    + inversion H; subst. exact Hinv.
    + apply (runTask_not_dangling t (set_postponedCalls rest d) d' Hinv H).
  - unfold runMainCall in H.
    destruct (mainCalls d) as [|t rest].
    + inversion H; subst. exact Hinv.
    + apply (runTask_not_dangling t (set_mainCalls rest d) d' Hinv H).
  - inversion H; subst. intros p Hp. unfold finish, assign_active in Hp.
    simpl in Hp. destruct (optptr_eqb (_active d) None) eqn:Hnone.
    + simpl in Hp. apply optptr_eqb_eq in Hnone. congruence.
    + simpl in Hp. discriminate.
Qed.

Lemma run_ops_not_dangling (ops : list Op) :
  forall d d',
    not_dangling d -> run_ops ops d = Ok d' -> not_dangling d'.
Proof.
  induction ops as [|op rest IH]; simpl; intros d d' Hinv H.
  - inversion H; subst. exact Hinv.
  - destruct (apply_op op d) as [d1|] eqn:Hop; simpl in H; [|discriminate].
    apply (IH d1 d'); [|exact H]. apply (apply_op_not_dangling op d d1 Hinv Hop).
Qed.

Lemma active_of_member (d : Domain) (p : AccountPtr) :
  _active d = Some p -> In p (pointers (_accounts d)) ->
  exists a, active d = Ok a /\ account_ptr a = p /\
            exists e, In e (_accounts d) /\ account e = a.
Proof.
  intros Hact Hin. apply pointers_In in Hin. destruct Hin as (e & He & Hp).
  destruct (lookup_member p _ e He Hp) as (i & Hfind & Hpi & Hi).
  exists (account i). unfold active, deref, started. rewrite Hact, Hfind.
  destruct (_accounts d); [contradiction|]. simpl.
  split; [reflexivity|]. split; [exact Hpi|]. exists i. auto.
Qed.

(** X1.  In every state a history reaches from a new [Domain], the active
    pointer is null or designates an entry of the registry; when it is not
    null, [active()] returns an account of the registry that lives at that
    address. *)
Theorem active_never_dangles (fallback : Config) (flag : bool)
    (code : QByteArray) (ops : list Op) (d : Domain)
    (Hrun : run_ops ops (Domain_new fallback flag code) = Ok d) :
  not_dangling d /\
  (forall p,
     _active d = Some p ->
     exists a,
       active d = Ok a /\ account_ptr a = p /\
       exists e, In e (_accounts d) /\ account e = a).
Proof.
  assert (Hinv : not_dangling d).
  { apply (run_ops_not_dangling ops (Domain_new fallback flag code) d);
      [|exact Hrun].
    intros p Hp. discriminate Hp. }
  split; [exact Hinv|].
  intros p Hp. apply active_of_member; [exact Hp|apply Hinv, Hp].
Qed.

Lemma active_never_dangles_witness :
  exists d a,
    run_ops sampleHistory blank = Ok d /\
    _active d = Some 3%positive /\
    active d = Ok a /\ account_ptr a = 3%positive.
Proof.
  assert (H : exists d,
            run_ops sampleHistory blank = Ok d /\ _active d = Some 3%positive).
  { vm_compute. eexists. split; reflexivity. }
  destruct H as (d & Hrun & Hact).
  destruct (active_never_dangles fallbackConfig false [] sampleHistory d Hrun)
    as (_ & Hderef).
  destruct (Hderef _ Hact) as (a & Ha & Hp & _).
  exists d, a. repeat split; assumption.
Defined.

(** ** What the clean-up keeps *)

Lemma deref_not_dangling (d : Domain) (a : Account) :
  deref (_active d) d = Ok a ->
  not_dangling d /\ exists p, _active d = Some p.
Proof.
  unfold deref. destruct (_active d) as [p|] eqn:Hact; [|discriminate].
  destruct (lookup p (_accounts d)) as [e|] eqn:Hfind; [|discriminate].
  intros _. split; [|eauto].
  intros q Hq. rewrite Hact in Hq. inversion Hq; subst q.
  apply find_some in Hfind. destruct Hfind as [Hin Hp].
  apply pointers_In. exists e. split; [exact Hin|]. apply ptr_eqb_eq, Hp.
Qed.

Lemma activateAuthedAccount_some (d d1 : Domain) :
  activateAuthedAccount d = Ok d1 ->
  not_dangling d1 /\ exists p, _active d1 = Some p.
Proof.
  intros H. pose proof H as H0. unfold activateAuthedAccount in H.
  destruct (negb (started d)); [discriminate|].
  destruct (deref (_active d) d) as [current|] eqn:Hderef; simpl in H;
    [|discriminate].
  destruct (deref_not_dangling _ _ Hderef) as [Hinv Hsome].
  split; [exact (activateAuthedAccount_not_dangling _ _ Hinv H0)|].
  destruct (sessionExists current); [inversion H; subst; exact Hsome|].
  destruct (find has_session (_accounts d)) as [i|].
  - destruct (activate_active _ _ _ H) as [Hact _]. eauto.
  - inversion H; subst; exact Hsome.
Qed.

(** X2.  Whenever [removeRedundantAccounts] returns, the registry it leaves
    is the old one filtered, in the old order.  No account with a live
    session and no account at the active address has been erased, every
    entry left has a live session or is the active one, and the registry is
    not empty: [active()] still answers. *)
Theorem removeRedundantAccounts_spares (d d' : Domain)
    (Hrun : removeRedundantAccounts d = Ok d') :
  (exists keep, _accounts d' = filter keep (_accounts d)) /\
  (forall e, In e (_accounts d) -> has_session e = true ->
     In e (_accounts d')) /\
  (forall e, In e (_accounts d) ->
     _active d' = Some (account_ptr (account e)) -> In e (_accounts d')) /\
  (forall e, In e (_accounts d') ->
     has_session e = true \/ _active d' = Some (account_ptr (account e))) /\
  _accounts d' <> [] /\
  (exists a, active d' = Ok a).
Proof.
  destruct (removeRedundantAccounts_result _ _ Hrun)
    as (d1 & Hauthed & Hacc1 & Hacc & Hact).
  destruct (activateAuthedAccount_some _ _ Hauthed) as (Hinv1 & p & Hp).
  assert (Hkeep : forall e,
            In e (_accounts d') <->
            In e (_accounts d) /\
            (_active d' = Some (account_ptr (account e))
             \/ has_session e = true)).
  { intros e. rewrite Hacc, filter_In, redundant_negb, orb_true_iff, Hact.
    rewrite optptr_eqb_eq. intuition congruence. }
  assert (Hmember : In p (pointers (_accounts d'))).
  { rewrite Hacc. apply filter_keeps_active; [exact Hp|].
    rewrite <- Hacc1. apply Hinv1, Hp. }
  split; [eexists; exact Hacc|].
  split; [intros e He Hs; apply Hkeep; auto|].
  split; [intros e He Ha; apply Hkeep; auto|].
  split; [intros e He; apply Hkeep in He; tauto|].
  split.
  - intros Hempty. rewrite Hempty in Hmember. contradiction.
  - destruct (active_of_member d' p) as (a & Ha & _).
    + rewrite Hact. exact Hp.
    + exact Hmember.
    + eauto.
Qed.

Lemma removeRedundantAccounts_spares_witness :
  exists d',
    removeRedundantAccounts stateAC_live = Ok d' /\
    In entryA_live (_accounts d') /\ In entryC (_accounts d').
Proof.
  assert (H : exists d', removeRedundantAccounts stateAC_live = Ok d').
  { vm_compute. eexists. reflexivity. }
  destruct H as (d' & Hrun).
  destruct (removeRedundantAccounts_spares stateAC_live d' Hrun)
    as (_ & Hlive & _).
  exists d'. split; [exact Hrun|].
  split; apply Hlive; simpl; auto.
Defined.

(** ** The clean-up and the badge *)

Lemma live_sessions_filter (keep : AccountWithIndex -> bool)
    (l : list AccountWithIndex) :
  (forall e, In e l -> has_session e = true -> keep e = true) ->
  live_sessions (filter keep l) = live_sessions l.
Proof.
  unfold live_sessions. induction l as [|e rest IH]; simpl; intros H.
  - reflexivity.
  - assert (Hrest : forall o, In o rest -> has_session o = true ->
              keep o = true) by (intros o Ho; apply H; right; exact Ho).
    destruct (keep e) eqn:Hk; simpl.
    + rewrite (IH Hrest). reflexivity.
    + rewrite (IH Hrest).
      assert (Hs : has_session e = false).
      { destruct (has_session e) eqn:Hs; [|reflexivity].
        rewrite (H e (or_introl eq_refl) Hs) in Hk. discriminate. }
      unfold has_session, sessionExists in Hs. unfold sessionValue.
      destruct (account_session (account e)); [discriminate|reflexivity].
Qed.

(** X3.  Erasing redundant accounts never changes the badge: the recompute
    gives the same count and the same mutedness on the registry before and
    after [removeRedundantAccounts]. *)
Theorem removeRedundantAccounts_keeps_badge (d d' : Domain)
    (Hrun : removeRedundantAccounts d = Ok d') :
  unreadBadge (updateUnreadBadge d') = unreadBadge (updateUnreadBadge d) /\
  unreadBadgeMuted (updateUnreadBadge d')
  = unreadBadgeMuted (updateUnreadBadge d).
Proof.
  destruct (removeRedundantAccounts_result _ _ Hrun)
    as (d1 & _ & _ & Hacc & _).
  assert (Hlive : live_sessions (_accounts d') = live_sessions (_accounts d)).
  { rewrite Hacc. apply live_sessions_filter. intros e _ Hs.
    rewrite redundant_negb, Hs. apply orb_true_r. }
  unfold unreadBadge, unreadBadgeMuted. split.
  - rewrite !updateUnreadBadge_wraps. unfold spec_count. rewrite Hlive.
    reflexivity.
  - unfold updateUnreadBadge. simpl.
    rewrite !updateUnreadBadge_loop_muted. unfold spec_allMuted.
    rewrite Hlive. reflexivity.
Qed.

Lemma removeRedundantAccounts_keeps_badge_witness :
  exists d',
    removeRedundantAccounts stateABC = Ok d' /\
    unreadBadge (updateUnreadBadge d') = 5.
Proof.
  assert (H : exists d', removeRedundantAccounts stateABC = Ok d').
  { vm_compute. eexists. reflexivity. }
  destruct H as (d' & Hrun).
  destruct (removeRedundantAccounts_keeps_badge stateABC d' Hrun) as [Hc _].
  exists d'. split; [exact Hrun|]. rewrite Hc. reflexivity.
Defined.

(** ** Running the clean-up twice *)

Lemma NoDup_pointers_filter (keep : AccountWithIndex -> bool)
    (l : list AccountWithIndex) :
  distinct_accounts l -> distinct_accounts (filter keep l).
Proof.
  unfold distinct_accounts, pointers.
  induction l as [|e rest IH]; simpl; intros H.
  - constructor.
  - inversion H as [|? ? Hnot Hrest]; subst.
    destruct (keep e); simpl; [|apply IH, Hrest].
    constructor; [|apply IH, Hrest].
    intros Hin. apply Hnot. apply in_map_iff in Hin.
    destruct Hin as (o & Ho & Hin). apply filter_In in Hin.
    apply in_map_iff. exists o. tauto.
Qed.

Lemma filter_all_true {A : Type} (f : A -> bool) (l : list A) :
  (forall x, In x l -> f x = true) -> filter f l = l.
Proof.
  induction l as [|x rest IH]; simpl; intros H; [reflexivity|].
  rewrite (H x (or_introl eq_refl)). f_equal. apply IH.
  intros y Hy. apply H. right. exact Hy.
Qed.

(** After [activateAuthedAccount] the active account is logged in, unless
    nobody is. *)
Lemma activateAuthedAccount_settled (d d1 : Domain) :
  activateAuthedAccount d = Ok d1 ->
  exists e,
    In e (_accounts d) /\ _active d1 = Some (account_ptr (account e)) /\
    (has_session e = true
     \/ ((forall o, In o (_accounts d) -> has_session o = false)
         /\ lookup (account_ptr (account e)) (_accounts d) = Some e)).
Proof.
  unfold activateAuthedAccount.
  destruct (negb (started d)); [discriminate|].
  unfold deref. destruct (_active d) as [p|] eqn:Hact; [|discriminate].
  destruct (lookup p (_accounts d)) as [e0|] eqn:Hlook; simpl; [|discriminate].
  pose proof Hlook as Hfound. apply find_some in Hfound.
  destruct Hfound as [Hin0 Hp0]. apply ptr_eqb_eq in Hp0. subst p.
  fold (has_session e0). destruct (has_session e0) eqn:Hs0.
  - intros H; inversion H; subst d1. exists e0. auto.
  - destruct (find has_session (_accounts d)) as [i|] eqn:Hfind.
    + intros H. destruct (activate_active _ _ _ H) as [Hact1 _].
      apply find_some in Hfind. destruct Hfind as [Hin Hs].
      exists i. auto.
    + intros H; inversion H; subst d1. exists e0.
      split; [exact Hin0|]. split; [exact Hact|]. right.
      split; [apply find_none_iff; exact Hfind|exact Hlook].
Qed.

(** X4.  Running [removeRedundantAccounts] a second time succeeds and
    erases nothing more: the registry and the active account stay as the
    first run left them (no two registry entries living at one address). *)
Theorem removeRedundantAccounts_twice (d d' : Domain)
    (Hdistinct : distinct_accounts (_accounts d))
    (Hrun : removeRedundantAccounts d = Ok d') :
  exists d'',
    removeRedundantAccounts d' = Ok d'' /\
    _accounts d'' = _accounts d' /\
    _active d'' = _active d'.
Proof.
  destruct (removeRedundantAccounts_result _ _ Hrun)
    as (d1 & Hauthed & Hacc1 & Hacc & Hact).
  destruct (activateAuthedAccount_settled _ _ Hauthed)
    as (e & Hin & Hact1 & Hsettled).
  assert (Hkeep : forall o,
            In o (_accounts d') ->
            negb (redundant (_active d') o) = true).
  { intros o Ho. rewrite Hacc in Ho. apply filter_In in Ho.
    rewrite Hact. tauto. }
  assert (Hin' : In e (_accounts d')).
  { rewrite Hacc. apply filter_In. split; [exact Hin|].
    rewrite redundant_negb, Hact1. simpl. rewrite ptr_eqb_refl. reflexivity. }
  assert (Hdistinct' : distinct_accounts (_accounts d')).
  { rewrite Hacc. apply NoDup_pointers_filter, Hdistinct. }
  assert (Hderef : deref (_active d') d' = Ok (account e)).
  { unfold deref. rewrite Hact, Hact1.
    rewrite (lookup_distinct _ e Hdistinct' Hin'). reflexivity. }
  assert (Hstarted : started d' = true).
  { unfold started. destruct (_accounts d'); [contradiction|reflexivity]. }
  assert (Hauthed' : activateAuthedAccount d' = Ok d').
  { unfold activateAuthedAccount. rewrite Hstarted, Hderef. simpl.
    fold (has_session e). destruct Hsettled as [Hs|[Hnone _]].
    - rewrite Hs. reflexivity.
    - rewrite (Hnone e Hin).
      replace (find has_session (_accounts d')) with
        (@None AccountWithIndex); [reflexivity|].
      symmetry. apply find_none_iff. intros o Ho. apply Hnone.
      rewrite Hacc in Ho. apply filter_In in Ho. tauto. }
  destruct (removeRedundantAccounts_loop_result (_accounts d') [] d' eq_refl)
    as (Hacc2 & Hact2 & _).
  set (d2 := removeRedundantAccounts_loop [] (_accounts d') d') in *.
  simpl in Hacc2. rewrite (filter_all_true _ _ Hkeep) in Hacc2.
  assert (Hpass : exists r d3, removePasscodeIfEmpty d2 = Ok (r, d3)).
  { unfold removePasscodeIfEmpty.
    destruct (negb _); [eauto|].
    assert (Hderef2 : deref (_active d2) d2 = Ok (account e)).
    { unfold deref. rewrite Hact2, Hacc2. exact Hderef. }
    rewrite Hderef2. simpl.
    destruct (sessionExists (account e)); [eauto|].
    destruct (LocalPasscode d2); simpl; eauto. }
  destruct Hpass as (r & d3 & Hpass).
  pose proof (removePasscodeIfEmpty_accounts _ _ _ Hpass) as Hacc3.
  pose proof (removePasscodeIfEmpty_active _ _ _ Hpass) as Hact3.
  unfold removeRedundantAccounts. rewrite Hstarted, Hauthed'. simpl.
  fold d2. rewrite Hpass. simpl.
  destruct (negb r && _).
  - eexists. split; [reflexivity|].
    destruct (scheduleWriteAccounts_fields d3) as (Fa & Fb & _).
    rewrite Fa, Fb, Hacc3, Hact3, Hacc2, Hact2. split; reflexivity.
  - eexists. split; [reflexivity|].
    rewrite Hacc3, Hact3, Hacc2, Hact2. split; reflexivity.
Qed.

Lemma removeRedundantAccounts_twice_witness :
  exists d' d'',
    removeRedundantAccounts stateABC = Ok d' /\
    removeRedundantAccounts d' = Ok d'' /\
    _accounts d'' = _accounts d'.
Proof.
  assert (H : exists d', removeRedundantAccounts stateABC = Ok d').
  { vm_compute. eexists. reflexivity. }
  destruct H as (d' & Hrun).
  assert (Hd : distinct_accounts (_accounts stateABC)).
  { unfold distinct_accounts. simpl. repeat constructor; simpl; intuition;
      discriminate. }
  destruct (removeRedundantAccounts_twice stateABC d' Hd Hrun)
    as (d'' & Hrun2 & Hacc & _).
  exists d', d''. repeat split; assumption.
Defined.

(** ** The clean-up and the fallback config *)

Lemma last_production_none (l : list AccountWithIndex) :
  last_production l = None <-> existsb (uses Production) l = false.
Proof.
  induction l as [|e rest IH]; simpl; [tauto|].
  destruct (last_production rest) as [c|].
  - split; [discriminate|]. intros H. apply orb_false_iff in H.
    destruct H as [_ H]. apply IH in H. discriminate.
  - destruct (uses Production e); simpl.
    + split; discriminate.
    + split; intros _; [apply IH|]; reflexivity.
Qed.

Lemma existsb_filter_split {A : Type} (P f : A -> bool) (l : list A) :
  existsb P l
  = existsb P (filter (fun x => negb (f x)) l) || existsb P (filter f l).
Proof.
  induction l as [|x rest IH]; simpl; [reflexivity|].
  destruct (f x); simpl; rewrite IH.
  - destruct (P x), (existsb P (filter (fun x => negb (f x)) rest));
      reflexivity.
  - rewrite orb_assoc. reflexivity.
Qed.

Lemma existsb_ext_in {A : Type} (f g : A -> bool) (l : list A) :
  (forall x, In x l -> f x = g x) -> existsb f l = existsb g l.
Proof.
  induction l as [|x rest IH]; simpl; intros H; [reflexivity|].
  rewrite (H x (or_introl eq_refl)). f_equal. apply IH.
  intros y Hy. apply H. right. exact Hy.
Qed.

Lemma existsb_other_production (before rest : list AccountWithIndex)
    (e : AccountWithIndex) :
  distinct_accounts (before ++ e :: rest) ->
  existsb
    (fun o => negb (has_ptr (account_ptr (account e)) o) && uses Production o)
    (before ++ e :: rest)
  = existsb (uses Production) (before ++ rest).
Proof.
  unfold distinct_accounts, pointers. intros Hnd.
  rewrite map_app in Hnd. simpl in Hnd.
  pose proof (NoDup_remove_2 _ _ _ Hnd) as Hnot.
  rewrite <- map_app in Hnot.
  assert (Hother : forall o, In o (before ++ rest) ->
            negb (has_ptr (account_ptr (account e)) o) && uses Production o
            = uses Production o).
  { intros o Ho.
    replace (has_ptr (account_ptr (account e)) o) with false; [reflexivity|].
    symmetry. unfold has_ptr. apply ptr_eqb_neq.
    intros Heq. apply Hnot. rewrite <- Heq.
    apply (in_map (fun x => account_ptr (account x))). exact Ho. }
  rewrite !existsb_app. simpl. unfold has_ptr at 2. rewrite ptr_eqb_refl.
  simpl. f_equal; apply existsb_ext_in; intros o Ho; apply Hother;
    apply in_or_app; auto.
Qed.

Lemma checkForLastProductionConfig_step (before rest : list AccountWithIndex)
    (e : AccountWithIndex) (d : Domain) :
  distinct_accounts (before ++ e :: rest) ->
  _accounts d = before ++ e :: rest ->
  checkForLastProductionConfig (account e) d
  = if uses Production e && negb (existsb (uses Production) (before ++ rest))
    then refreshFallbackProductionConfig (mtp_config (account_mtp (account e)))
           d
    else d.
Proof.
  intros Hnd Hreg. unfold checkForLastProductionConfig.
  rewrite Hreg, (existsb_other_production before rest e Hnd).
  change (Environment_eqb (mtp_environment (account_mtp (account e)))
            Production) with (uses Production e).
  destruct (uses Production e); simpl; [|reflexivity].
  destruct (existsb (uses Production) (before ++ rest)); reflexivity.
Qed.

Lemma distinct_accounts_remove (before rest : list AccountWithIndex)
    (e : AccountWithIndex) :
  distinct_accounts (before ++ e :: rest) -> distinct_accounts (before ++ rest).
Proof.
  unfold distinct_accounts, pointers. rewrite !map_app. simpl.
  apply NoDup_remove_1.
Qed.

Lemma removeRedundantAccounts_loop_fallback (from_i : list AccountWithIndex) :
  forall before d,
    _accounts d = before ++ from_i ->
    distinct_accounts (before ++ from_i) ->
    let left :=
      before ++ filter (fun e => negb (redundant (_active d) e)) from_i in
    let erased := filter (redundant (_active d)) from_i in
    fallbackProductionConfig (removeRedundantAccounts_loop before from_i d)
    = match pushed_config left erased with
      | Some c => c
      | None => fallbackProductionConfig d
      end /\
    trace (removeRedundantAccounts_loop before from_i d)
    = trace d
      ++ match pushed_config left erased with
         | Some c => [RefreshFallbackProductionConfig c]
         | None => []
         end.
Proof.
  induction from_i as [|e rest IH]; intros before d Hreg Hnd;
    cbn [removeRedundantAccounts_loop filter].
  - cbv zeta. unfold pushed_config. simpl.
    destruct (existsb _ _); rewrite app_nil_r; split; reflexivity.
  - cbv zeta. rewrite <- (redundant_negb (_active d) e).
    destruct (redundant (_active d) e) eqn:Hred; cbn [negb].
    + (* [e] is erased *)
      rewrite (checkForLastProductionConfig_step before rest e d Hnd Hreg).
      set (left := before
                   ++ filter (fun o => negb (redundant (_active d) o)) rest).
      set (erased := filter (redundant (_active d)) rest).
      assert (Hsplit : existsb (uses Production) (before ++ rest)
                       = existsb (uses Production) left
                         || existsb (uses Production) erased).
      { unfold left, erased. rewrite !existsb_app.
        rewrite (existsb_filter_split (uses Production)
                   (redundant (_active d)) rest).
        rewrite orb_assoc. reflexivity. }
      rewrite Hsplit.
      pose proof (distinct_accounts_remove _ _ _ Hnd) as Hnd'.
      unfold pushed_config. fold left. cbn [last_production].
      destruct (uses Production e
                && negb (existsb (uses Production) left
                         || existsb (uses Production) erased)) eqn:Hpush.
      * apply andb_true_iff in Hpush. destruct Hpush as [He Hnone].
        apply negb_true_iff, orb_false_iff in Hnone.
        destruct Hnone as [Hleft Herased].
        specialize (IH before
                      (set_accounts (before ++ rest)
                         (refreshFallbackProductionConfig
                            (mtp_config (account_mtp (account e))) d))
                      eq_refl Hnd').
        cbv zeta in IH. simpl in IH. fold left erased in IH.
        unfold pushed_config in IH. rewrite Hleft in IH.
        apply last_production_none in Herased. fold erased.
        rewrite Herased in IH. rewrite Hleft, Herased, He.
        destruct IH as [IH1 IH2]. rewrite IH1, IH2, app_nil_r.
        split; reflexivity.
      * specialize (IH before (set_accounts (before ++ rest) d) eq_refl Hnd').
        cbv zeta in IH. simpl in IH. fold left erased in IH.
        unfold pushed_config in IH. fold erased.
        destruct IH as [IH1 IH2]. rewrite IH1, IH2.
        destruct (existsb (uses Production) left) eqn:Hleft;
          [split; reflexivity|].
        destruct (last_production erased) as [c|] eqn:Hlast;
          [split; reflexivity|].
        apply last_production_none in Hlast. rewrite Hlast in Hpush.
        simpl in Hpush. rewrite andb_true_r in Hpush. rewrite Hpush.
        split; reflexivity.
    + (* [e] stays *)
      specialize (IH (before ++ [e]) d).
      rewrite <- !app_assoc in IH. simpl in IH.
      apply IH; assumption.
Qed.

(** C6.  When the erasing loop of [removeRedundantAccounts] reaches a
    redundant entry [e], it calls [checkForLastProductionConfig] while [e]
    is still in the registry, erases [e], and goes on.  In the state the
    loop ends in (no two entries living at one address) [e] is gone and:
    if [e] uses the production environment and no other entry of the
    registry does, the fallback production config is the config of [e],
    refreshed by that one call; if [e] is not a production account, or is
    not the last one, its removal leaves the fallback alone, which then is
    whatever the removals after it make of it. *)
Theorem last_production_config_is_kept (before rest : list AccountWithIndex)
    (e : AccountWithIndex) (d : Domain)
    (Hreg : _accounts d = before ++ e :: rest)
    (Hredundant : redundant (_active d) e = true) :
  let d1 := checkForLastProductionConfig (account e) d in
  let d' := removeRedundantAccounts_loop before (e :: rest) d in
  let left :=
    before ++ filter (fun o => negb (redundant (_active d) o)) rest in
  let erased := filter (redundant (_active d)) rest in
  In e (_accounts d1) /\
  d'
  = removeRedundantAccounts_loop before rest
      (set_accounts (before ++ rest) d1) /\
  _accounts d' = left /\
  (mtp_environment (account_mtp (account e)) <> Production
   \/ other_production (_accounts d) e ->
   d1 = d) /\
  (distinct_accounts (_accounts d) ->
   ~ In e (_accounts d') /\
   (mtp_environment (account_mtp (account e)) = Production ->
    ~ other_production (_accounts d) e ->
    fallbackProductionConfig d' = mtp_config (account_mtp (account e)) /\
    trace d'
    = trace d
      ++ [RefreshFallbackProductionConfig
            (mtp_config (account_mtp (account e)))]) /\
   (mtp_environment (account_mtp (account e)) <> Production
    \/ other_production (_accounts d) e ->
    fallbackProductionConfig d'
    = match pushed_config left erased with
      | Some c => c
      | None => fallbackProductionConfig d
      end /\
    trace d'
    = trace d
      ++ match pushed_config left erased with
         | Some c => [RefreshFallbackProductionConfig c]
         | None => []
         end)).
Proof.
  intros d1 d' left erased.
  destruct (checkForLastProductionConfig_at_removal before rest e d Hreg
              Hredundant) as (Hstep & Hstill & _ & Hnoop).
  destruct (removeRedundantAccounts_loop_result (e :: rest) before d Hreg)
    as (Hacc & _).
  cbn [filter] in Hacc. rewrite Hredundant in Hacc. cbn [negb] in Hacc.
  split; [exact Hstill|]. split; [exact Hstep|]. split; [exact Hacc|].
  split; [exact Hnoop|].
  intros Hdistinct. rewrite Hreg in Hdistinct.
  destruct (removeRedundantAccounts_loop_fallback (e :: rest) before d Hreg
              Hdistinct) as (Hf & Ht).
  cbv zeta in Hf, Ht. cbn [filter] in Hf, Ht.
  rewrite Hredundant in Hf, Ht. cbn [negb] in Hf, Ht.
  fold left erased in Hf, Ht. fold d' in Hf, Ht.
  assert (Hsplit : existsb (uses Production) (before ++ rest)
                   = existsb (uses Production) left
                     || existsb (uses Production) erased).
  { unfold left, erased. rewrite !existsb_app.
    rewrite (existsb_filter_split (uses Production)
               (redundant (_active d)) rest).
    rewrite orb_assoc. reflexivity. }
  assert (Hothers : existsb (uses Production) (before ++ rest) = true
                    <-> other_production (_accounts d) e).
  { rewrite <- other_production_existsb, Hreg.
    rewrite (existsb_other_production before rest e Hdistinct). tauto. }
  split.
  { unfold d'. rewrite Hacc. fold left. intros Hin.
    unfold distinct_accounts, pointers in Hdistinct.
    rewrite map_app in Hdistinct. simpl in Hdistinct.
    apply (NoDup_remove_2 _ _ _ Hdistinct). rewrite <- map_app.
    apply (in_map (fun o => account_ptr (account o))).
    unfold left in Hin. apply in_app_or in Hin. apply in_or_app.
    destruct Hin as [Hin|Hin]; [left; exact Hin|right].
    apply filter_In in Hin. tauto. }
  unfold pushed_config in Hf, Ht. cbn [last_production] in Hf, Ht.
  split.
  - intros Hprod Hlast.
    assert (Hnone : existsb (uses Production) (before ++ rest) = false).
    { destruct (existsb (uses Production) (before ++ rest)) eqn:Hex;
        [|reflexivity].
      exfalso. apply Hlast, Hothers. reflexivity. }
    rewrite Hsplit in Hnone. apply orb_false_iff in Hnone.
    destruct Hnone as [Hleft Herased].
    apply last_production_none in Herased.
    apply uses_eq in Hprod.
    rewrite Hleft, Herased, Hprod in Hf, Ht. split; assumption.
  - intros Helse. unfold pushed_config.
    destruct (existsb (uses Production) left) eqn:Hleft;
      [split; assumption|].
    destruct (last_production erased) as [c|] eqn:Hlast;
      [split; assumption|].
    assert (Hnot : uses Production e = false).
    { destruct Helse as [Hnp|Hop]; [apply uses_neq; exact Hnp|].
      apply Hothers in Hop. rewrite Hsplit in Hop.
      apply orb_true_iff in Hop. apply last_production_none in Hlast.
      destruct Hop; congruence. }
    rewrite Hnot in Hf, Ht. split; assumption.
Qed.

Lemma last_production_config_is_kept_witness :
  fallbackProductionConfig
    (removeRedundantAccounts_loop [] [entryA; entryB]
       (with_registry [entryA; entryB] (Some 2%positive) 1 blank))
  = productionConfig
  /\ _accounts
       (removeRedundantAccounts_loop [] [entryA; entryB]
          (with_registry [entryA; entryB] (Some 2%positive) 1 blank))
     = [entryB].
Proof.
  destruct (last_production_config_is_kept [] [entryB] entryA
              (with_registry [entryA; entryB] (Some 2%positive) 1 blank)
              eq_refl eq_refl)
    as (_ & _ & Hacc & _ & Hfinal).
  split; [|exact Hacc].
  destruct Hfinal as (_ & Hlast & _).
  { unfold distinct_accounts. simpl. repeat constructor; simpl; intuition;
      discriminate. }
  destruct Hlast as [Hf _]; [reflexivity| |exact Hf].
  intros (o & Hin & Hp & Hu).
  destruct Hin as [<-|[<-|[]]]; [apply Hp; reflexivity|discriminate].
Defined.

Lemma removeRedundantAccounts_unfold (d d' : Domain) :
  removeRedundantAccounts d = Ok d' ->
  exists d1 r d3,
    activateAuthedAccount d = Ok d1 /\
    removePasscodeIfEmpty (removeRedundantAccounts_loop [] (_accounts d1) d1)
    = Ok (r, d3) /\
    (d' = d3 \/ d' = scheduleWriteAccounts d3).
Proof.
  unfold removeRedundantAccounts.
  destruct (negb (started d)); [discriminate|].
  destruct (activateAuthedAccount d) as [d1|]; simpl; [|discriminate].
  destruct (removePasscodeIfEmpty _) as [[r d3]|] eqn:Hpass; simpl;
    [|discriminate].
  intros H. exists d1, r, d3. split; [reflexivity|]. split; [exact Hpass|].
  destruct (negb r && _); inversion H; auto.
Qed.

Lemma count_if_app {A : Type} (p : A -> bool) (l1 l2 : list A) :
  count_if p (l1 ++ l2) = (count_if p l1 + count_if p l2)%nat.
Proof. unfold count_if. rewrite filter_app, length_app. reflexivity. Qed.

Lemma activate_refreshes_nothing (account : AccountPtr) (d d' : Domain) :
  activate account d = Ok d' ->
  fallbackProductionConfig d' = fallbackProductionConfig d /\
  count_if is_RefreshFallback (trace d')
  = count_if is_RefreshFallback (trace d).
Proof.
  intros H.
  destruct (optptr_eqb (_active d) (Some account)) eqn:Heq.
  - apply optptr_eqb_eq in Heq. rewrite (activate_same _ _ Heq) in H.
    inversion H; subst. auto.
  - apply optptr_eqb_neq in Heq.
    destruct (lookup account (_accounts d)) as [i|] eqn:Hfind.
    + destruct (activate_effective _ _ _ Heq Hfind)
        as (d1 & Hrun & _ & _ & _ & _ & Htrace & _ & _ & _ & _ & _ & Hf & _).
      rewrite Hrun in H. inversion H; subst. split; [exact Hf|].
      rewrite Htrace. unfold count_if. rewrite filter_app, length_app.
      simpl. lia.
    + unfold activate in H. apply optptr_eqb_neq in Heq.
      rewrite Heq, Hfind in H. discriminate.
Qed.

Lemma activateAuthedAccount_refreshes_nothing (d d' : Domain) :
  activateAuthedAccount d = Ok d' ->
  fallbackProductionConfig d' = fallbackProductionConfig d /\
  count_if is_RefreshFallback (trace d')
  = count_if is_RefreshFallback (trace d).
Proof.
  unfold activateAuthedAccount.
  destruct (negb (started d)); [discriminate|].
  destruct (deref (_active d) d) as [current|]; simpl; [|discriminate].
  destruct (sessionExists current); [intros H; inversion H; auto|].
  destruct (find has_session (_accounts d)) as [i|].
  - apply activate_refreshes_nothing.
  - intros H; inversion H; auto.
Qed.

Lemma removePasscodeIfEmpty_refreshes_nothing (d d' : Domain) (r : bool) :
  removePasscodeIfEmpty d = Ok (r, d') ->
  fallbackProductionConfig d' = fallbackProductionConfig d /\
  count_if is_RefreshFallback (trace d')
  = count_if is_RefreshFallback (trace d).
Proof.
  unfold removePasscodeIfEmpty.
  destruct (negb _); [intros H; inversion H; auto|].
  destruct (deref (_active d) d) as [current|]; simpl; [|discriminate].
  destruct (sessionExists current); [intros H; inversion H; auto|].
  destruct (negb (LocalPasscode d)); intros H; inversion H; subst; simpl;
    (split; [reflexivity|]); unfold count_if;
    rewrite ?filter_app, ?length_app; simpl; lia.
Qed.

(** X5.  What a whole run of [removeRedundantAccounts] does to the fallback
    production config (no two registry entries living at one address): it
    is refreshed at most once; it is untouched while a production account
    is left in the registry or when no production account was erased;
    otherwise it holds the config of the last production account erased. *)
Theorem removeRedundantAccounts_fallback (d d' : Domain)
    (Hdistinct : distinct_accounts (_accounts d))
    (Hrun : removeRedundantAccounts d = Ok d') :
  let erased := filter (redundant (_active d')) (_accounts d) in
  fallbackProductionConfig d'
  = match pushed_config (_accounts d') erased with
    | Some c => c
    | None => fallbackProductionConfig d
    end /\
  count_if is_RefreshFallback (trace d')
  = (count_if is_RefreshFallback (trace d)
     + match pushed_config (_accounts d') erased with
       | Some _ => 1
       | None => 0
       end)%nat.
Proof.
  destruct (removeRedundantAccounts_result _ _ Hrun)
    as (d1 & Hauthed & Hacc1 & Hacc & Hact).
  destruct (removeRedundantAccounts_unfold _ _ Hrun)
    as (d1' & r & d3 & Hauthed' & Hpass & Hlast).
  rewrite Hauthed in Hauthed'. inversion Hauthed'; subst d1'. clear Hauthed'.
  destruct (activateAuthedAccount_refreshes_nothing _ _ Hauthed) as [Hf1 Ht1].
  destruct (removePasscodeIfEmpty_refreshes_nothing _ _ _ Hpass) as [Hf3 Ht3].
  assert (Hnd1 : distinct_accounts ([] ++ _accounts d1)).
  { simpl. rewrite Hacc1. exact Hdistinct. }
  destruct (removeRedundantAccounts_loop_fallback (_accounts d1) [] d1
              eq_refl Hnd1) as [Hf2 Ht2].
  simpl in Hf2, Ht2. rewrite Hf2 in Hf3. rewrite Ht2 in Ht3.
  rewrite Hacc1, <- Hacc, <- Hact in Hf3, Ht3.
  cbv zeta.
  assert (Hfinal : fallbackProductionConfig d' = fallbackProductionConfig d3
                   /\ trace d' = trace d3).
  { destruct Hlast as [->| ->]; [auto|].
    destruct (scheduleWriteAccounts_fields d3)
      as (_ & _ & _ & _ & _ & _ & _ & F & _ & _ & _ & T & _).
    auto. }
  destruct Hfinal as [Hf Ht]. rewrite Hf, Ht, Hf3, Ht3, Hf1.
  split; [reflexivity|].
  rewrite count_if_app, Ht1.
  destruct (pushed_config _ _); unfold count_if; simpl; lia.
Qed.

Lemma removeRedundantAccounts_fallback_witness :
  exists d',
    removeRedundantAccounts stateAT = Ok d' /\
    fallbackProductionConfig d' = productionConfig.
Proof.
  assert (H : exists d',
            removeRedundantAccounts stateAT = Ok d' /\
            _accounts d' = [entryT] /\ _active d' = Some 5%positive).
  { vm_compute. eexists. repeat split. }
  destruct H as (d' & Hrun & Hacc & Hact).
  assert (Hd : distinct_accounts (_accounts stateAT)).
  { unfold distinct_accounts. simpl. repeat constructor; simpl; intuition;
      discriminate. }
  destruct (removeRedundantAccounts_fallback stateAT d' Hd Hrun) as [Hf _].
  exists d'. split; [exact Hrun|].
  rewrite Hf, Hacc, Hact. reflexivity.
Defined.

(** ** The clean-up never aborts on a valid active pointer *)

Lemma deref_of_member (d : Domain) (p : AccountPtr) :
  _active d = Some p -> In p (pointers (_accounts d)) ->
  exists e, lookup p (_accounts d) = Some e /\ deref (_active d) d = Ok (account e).
Proof.
  intros Hact Hin. apply pointers_In in Hin. destruct Hin as (o & Ho & Hp).
  destruct (lookup_member p _ o Ho Hp) as (i & Hfind & _).
  exists i. split; [exact Hfind|]. unfold deref. rewrite Hact, Hfind.
  reflexivity.
Qed.

Lemma activateAuthedAccount_succeeds (d : Domain) (a : Account) :
  deref (_active d) d = Ok a -> exists d1, activateAuthedAccount d = Ok d1.
Proof.
  intros Hderef. unfold activateAuthedAccount.
  rewrite (deref_started d a Hderef), Hderef. simpl.
  destruct (sessionExists a); [eauto|].
  destruct (find has_session (_accounts d)) as [i|] eqn:Hfind; [|eauto].
  apply find_some in Hfind. destruct Hfind as [Hin _].
  destruct (activate_member d i Hin) as (d1 & Hrun & _). eauto.
Qed.

Lemma removePasscodeIfEmpty_succeeds (d : Domain) (a : Account) :
  deref (_active d) d = Ok a -> exists r d', removePasscodeIfEmpty d = Ok (r, d').
Proof.
  intros Hderef. unfold removePasscodeIfEmpty. rewrite Hderef. simpl.
  destruct (negb _); [eauto|].
  destruct (sessionExists a); [eauto|].
  destruct (LocalPasscode d); simpl; eauto.
Qed.

Lemma removeRedundantAccounts_total (d : Domain) (a : Account) :
  deref (_active d) d = Ok a ->
  exists d', removeRedundantAccounts d = Ok d'.
Proof.
  intros Hactive.
  destruct (activateAuthedAccount_succeeds d a Hactive) as (d1 & Hauthed).
  destruct (activateAuthedAccount_some _ _ Hauthed) as (Hinv1 & p & Hp).
  pose proof (activateAuthedAccount_accounts _ _ Hauthed) as Hacc1.
  destruct (removeRedundantAccounts_loop_result (_accounts d1) [] d1 eq_refl)
    as (Hacc2 & Hact2 & _).
  set (d2 := removeRedundantAccounts_loop [] (_accounts d1) d1) in *.
  simpl in Hacc2.
  assert (Hmember : In p (pointers (_accounts d2))).
  { rewrite Hacc2. apply filter_keeps_active; [exact Hp|]. apply Hinv1, Hp. }
  destruct (deref_of_member d2 p) as (e & _ & Hderef2).
  { rewrite Hact2. exact Hp. }
  { exact Hmember. }
  destruct (removePasscodeIfEmpty_succeeds d2 _ Hderef2) as (r & d3 & Hpass).
  unfold removeRedundantAccounts.
  rewrite (deref_started d a Hactive), Hauthed. simpl. fold d2.
  rewrite Hpass. simpl. destruct (negb r && _); eauto.
Qed.

(** X6.  [removeRedundantAccounts] returns normally exactly when the active
    pointer designates an entry of the registry: its only fatal paths are
    the empty registry and a null or dangling active pointer. *)
Theorem removeRedundantAccounts_succeeds (d : Domain) :
  (exists d', removeRedundantAccounts d = Ok d')
  <-> (exists a, deref (_active d) d = Ok a).
Proof.
  split.
  - intros (d' & Hrun).
    destruct (removeRedundantAccounts_result _ _ Hrun) as (d1 & Hauthed & _).
    unfold activateAuthedAccount in Hauthed.
    destruct (negb (started d)); [discriminate|].
    destruct (deref (_active d) d) as [a|]; [eauto|discriminate].
  - intros (a & Hactive). exact (removeRedundantAccounts_total d a Hactive).
Qed.

Lemma removeRedundantAccounts_succeeds_witness :
  (exists d', removeRedundantAccounts stateAT = Ok d') /\
  ~ (exists d', removeRedundantAccounts blank = Ok d').
Proof.
  split.
  - apply (proj2 (removeRedundantAccounts_succeeds stateAT)).
    exists (account entryT). reflexivity.
  - intros H. apply (proj1 (removeRedundantAccounts_succeeds blank)) in H.
    destruct H as (a & Ha). discriminate Ha.
Defined.

(** ** Persisting the activation *)

Lemma repeat_scheduleWriteAccounts_pending (n : nat) :
  forall d,
    _writeAccountsScheduled d = true -> repeat_scheduleWriteAccounts n d = d.
Proof.
  induction n as [|n IH]; intros d Hlatch; simpl; [reflexivity|].
  unfold scheduleWriteAccounts at 1. rewrite Hlatch. apply IH. exact Hlatch.
Qed.

(** X7.  An activation that changes the preferred index is written exactly
    once: after [activate], however many further write requests arrive
    before the main context runs, one deferred write is pending; when it
    runs it resets its latch and hands the storage the registry's indices
    together with the index of the newly active account. *)
Theorem activation_is_written_once (account : AccountPtr) (d : Domain)
    (i : AccountWithIndex) (n : nat)
    (Hother : _active d <> Some account)
    (Hfound : lookup account (_accounts d) = Some i)
    (Hchanged : _accountToActivate d <> index i)
    (Hidle : _writeAccountsScheduled d = false)
    (Hnone : mainCalls d = []) :
  exists d1 d3,
    activate account d = Ok d1 /\
    mainCalls (repeat_scheduleWriteAccounts n d1) = [TaskWriteAccounts] /\
    runMainCall (repeat_scheduleWriteAccounts n d1) = Ok d3 /\
    trace d3
    = trace d1 ++ [WriteAccounts (indices (_accounts d)) (index i)] /\
    count_if (fun e => match e with WriteAccounts _ _ => true | _ => false end)
      (trace d3)
    = S (count_if
           (fun e => match e with WriteAccounts _ _ => true | _ => false end)
           (trace d)) /\
    _writeAccountsScheduled d3 = false /\
    mainCalls d3 = [] /\
    _active d3 = Some account.
Proof.
  destruct (activate_effective account d i Hother Hfound)
    as (d1 & Hrun & Hacc & Hact & _ & Hidx & Htrace & Hlatch & Hqueue & _).
  apply Z.eqb_neq in Hchanged. rewrite Hchanged in Hlatch, Hqueue.
  rewrite Hidle, Hnone in Hqueue. simpl in Hqueue.
  rewrite orb_true_r in Hlatch.
  exists d1. rewrite (repeat_scheduleWriteAccounts_pending n d1 Hlatch).
  eexists. split; [exact Hrun|]. split; [exact Hqueue|].
  split.
  { unfold runMainCall. rewrite Hqueue. simpl. reflexivity. }
  simpl. rewrite Hacc, Hidx, Hact. split; [reflexivity|].
  split.
  { rewrite Htrace. unfold count_if. rewrite !filter_app, !length_app.
    simpl. lia. }
  repeat split.
Qed.

Lemma activation_is_written_once_witness :
  exists d1 d3,
    activate 3%positive stateABC = Ok d1 /\
    runMainCall (repeat_scheduleWriteAccounts 2 d1) = Ok d3 /\
    trace d3
    = trace d1 ++ [WriteAccounts [0; 1; 2] 2].
Proof.
  destruct (activation_is_written_once 3%positive stateABC entryC 2)
    as (d1 & d3 & Hrun & _ & Hmain & Htrace & _);
    try reflexivity; try discriminate.
  exists d1, d3. split; [exact Hrun|]. split; [exact Hmain|exact Htrace].
Defined.

(** ** Choosing the account to activate at start *)






(** ** Logging out *)

Lemma scheduleUpdateUnreadBadge_frame (d : Domain) :
  mainCalls (scheduleUpdateUnreadBadge d) = mainCalls d /\
  LocalPasscode (scheduleUpdateUnreadBadge d) = LocalPasscode d /\
  passcode (scheduleUpdateUnreadBadge d) = passcode d /\
  _writeAccountsScheduled (scheduleUpdateUnreadBadge d)
  = _writeAccountsScheduled d.
Proof.
  unfold scheduleUpdateUnreadBadge.
  destruct (_unreadBadgeUpdateScheduled d); repeat split.
Qed.

Lemma lookup_update_other (a p : AccountPtr) (f : Account -> Account)
    (l : list AccountWithIndex) :
  (forall x, account_ptr (f x) = account_ptr x) -> a <> p ->
  lookup a (update_account p f l) = lookup a l.
Proof.
  intros Hf Hne. unfold lookup, update_account.
  induction l as [|x rest IH]; simpl; [reflexivity|].
  destruct (has_ptr p x) eqn:Hpx.
  - unfold has_ptr in Hpx. apply ptr_eqb_eq in Hpx.
    assert (Hax : has_ptr a x = false).
    { unfold has_ptr. apply ptr_eqb_neq. congruence. }
    assert (Hax' : has_ptr a {| index := index x; account := f (account x) |}
                   = false).
    { unfold has_ptr. simpl. rewrite Hf. exact Hax. }
    rewrite Hax, Hax'. exact IH.
  - destruct (has_ptr a x); [reflexivity|exact IH].
Qed.

Lemma update_account_In (p : AccountPtr) (f : Account -> Account)
    (l : list AccountWithIndex) (o : AccountWithIndex) :
  In o (update_account p f l) ->
  exists x,
    In x l /\
    ((has_ptr p x = true /\ o = {| index := index x; account := f (account x) |})
     \/ (has_ptr p x = false /\ o = x)).
Proof.
  unfold update_account. intros H. apply in_map_iff in H.
  destruct H as (x & Hx & Hin). exists x. split; [exact Hin|].
  destruct (has_ptr p x); [left|right]; auto.
Qed.

Lemma update_account_keeps (p : AccountPtr) (f : Account -> Account)
    (l : list AccountWithIndex) (e : AccountWithIndex) :
  In e l -> account_ptr (account e) <> p -> In e (update_account p f l).
Proof.
  intros Hin Hne. unfold update_account. apply in_map_iff. exists e.
  split; [|exact Hin].
  replace (has_ptr p e) with false; [reflexivity|].
  symmetry. unfold has_ptr. apply ptr_eqb_neq. exact Hne.
Qed.

Lemma activateAuthedAccount_when_live (d : Domain) (a : Account) :
  deref (_active d) d = Ok a -> sessionExists a = true ->
  activateAuthedAccount d = Ok d.
Proof.
  intros Hderef Hs. unfold activateAuthedAccount.
  rewrite (deref_started d a Hderef), Hderef. simpl. rewrite Hs. reflexivity.
Qed.

(** X9.  When the session of an account other than the active one ends
    while the active account is logged in, the handler leaves the active
    account alone and queues the clean-up; when the main context runs it,
    the logged-out account is erased from the registry, while the active
    account and every other logged-in account stay. *)
Theorem logged_out_account_is_erased (d : Domain) (p a : AccountPtr)
    (ea : AccountWithIndex)
    (Hactive : _active d = Some a)
    (Hother : a <> p)
    (Hfound : lookup a (_accounts d) = Some ea)
    (Hlive : has_session ea = true)
    (Hnone : mainCalls d = []) :
  exists d1 d2,
    sessionEnded p d = Ok d1 /\
    mainCalls d1 = [TaskRemoveRedundantAccounts] /\
    _active d1 = Some a /\
    runMainCall d1 = Ok d2 /\
    ~ In p (pointers (_accounts d2)) /\
    _active d2 = Some a /\
    (forall e,
       In e (_accounts d) -> has_session e = true ->
       account_ptr (account e) <> p -> In e (_accounts d2)).
Proof.
  set (U := update_account p (with_session None) (_accounts d)).
  set (d0 := set_accounts U d).
  set (d1' := scheduleUpdateUnreadBadge d0).
  assert (Hacc1 : _accounts d1' = U)
    by (unfold d1'; rewrite scheduleUpdateUnreadBadge_accounts; reflexivity).
  assert (Hact1 : _active d1' = Some a)
    by (unfold d1'; rewrite scheduleUpdateUnreadBadge_active; exact Hactive).
  assert (Hmain1 : mainCalls d1' = [])
    by (unfold d1';
        rewrite (proj1 (scheduleUpdateUnreadBadge_frame d0)); exact Hnone).
  assert (Hended : sessionEnded p d = Ok (on_main TaskRemoveRedundantAccounts d1')).
  { unfold sessionEnded, watchSession_sessionEnded. fold U d0 d1'.
    rewrite Hact1. simpl.
    replace (ptr_eqb p a) with false; [reflexivity|].
    symmetry. apply ptr_eqb_neq. congruence. }
  set (d1 := on_main TaskRemoveRedundantAccounts d1') in *.
  set (dm := set_mainCalls [] d1).
  assert (HlookU : lookup a U = Some ea).
  { unfold U. rewrite lookup_update_other; [exact Hfound|reflexivity|exact Hother]. }
  assert (Hderef : deref (_active dm) dm = Ok (account ea)).
  { unfold deref. simpl. rewrite Hact1, Hacc1, HlookU. reflexivity. }
  destruct (removeRedundantAccounts_total dm _ Hderef) as (d2 & Hrun).
  destruct (removeRedundantAccounts_result _ _ Hrun)
    as (dx & Hauthed & _ & Hacc2 & Hact2).
  rewrite (activateAuthedAccount_when_live dm _ Hderef Hlive) in Hauthed.
  inversion Hauthed; subst dx. clear Hauthed.
  simpl in Hacc2, Hact2. rewrite Hact1 in Hacc2, Hact2.
  rewrite Hacc1 in Hacc2.
  exists d1, d2. split; [exact Hended|].
  split; [simpl; rewrite Hmain1; reflexivity|].
  split; [exact Hact1|].
  split.
  { unfold runMainCall. simpl. rewrite Hmain1. simpl. exact Hrun. }
  split.
  { intros Hin. apply pointers_In in Hin. destruct Hin as (o & Ho & Hp).
    rewrite Hacc2 in Ho. apply filter_In in Ho. destruct Ho as [HoU Hkeep].
    rewrite redundant_negb in Hkeep. simpl in Hkeep. rewrite Hp in Hkeep.
    replace (ptr_eqb p a) with false in Hkeep
      by (symmetry; apply ptr_eqb_neq; congruence).
    simpl in Hkeep.
    apply update_account_In in HoU.
    destruct HoU as (x & _ & [[_ ->]|[Hpx ->]]).
    - discriminate Hkeep.
    - unfold has_ptr in Hpx. rewrite Hp, ptr_eqb_refl in Hpx. discriminate. }
  split; [exact Hact2|].
  intros e Hin Hs Hne. rewrite Hacc2. apply filter_In. split.
  - apply update_account_keeps; assumption.
  - rewrite redundant_negb, Hs. apply orb_true_r.
Qed.

Lemma logged_out_account_is_erased_witness :
  exists d1 d2,
    sessionEnded 1%positive stateAC_live = Ok d1 /\
    runMainCall d1 = Ok d2 /\
    ~ In 1%positive (pointers (_accounts d2)).
Proof.
  destruct (logged_out_account_is_erased stateAC_live 1%positive 3%positive
              entryC eq_refl ltac:(discriminate) eq_refl eq_refl eq_refl)
    as (d1 & d2 & Hended & _ & _ & Hrun & Hgone & _).
  exists d1, d2. repeat split; assumption.
Defined.

(** ** The active session value *)

(** X10.  In every state a history reaches from a new [Domain],
    [activeSessionValue] starts with no session when the registry is empty
    and with the session slot of the active account when the active pointer
    is set; it aborts only in the loading window, while accounts are
    registered but none has been activated. *)
Theorem activeSessionValue_starts_with (fallback : Config) (flag : bool)
    (code : QByteArray) (ops : list Op) (d : Domain)
    (Hrun : run_ops ops (Domain_new fallback flag code) = Ok d) :
  (_accounts d = [] -> activeSessionValue_current d = Ok None) /\
  (forall p,
     _active d = Some p ->
     exists e,
       lookup p (_accounts d) = Some e /\
       activeSessionValue_current d = Ok (sessionValue e)) /\
  (_accounts d <> [] -> _active d = None ->
   activeSessionValue_current d
   = Fatal "Ensures(_active.current() != nullptr)").
Proof.
  assert (Hinv : not_dangling d).
  { apply (run_ops_not_dangling ops (Domain_new fallback flag code) d);
      [|exact Hrun].
    intros p Hp. discriminate Hp. }
  unfold activeSessionValue_current, active, started.
  split; [|split].
  - intros ->. reflexivity.
  - intros p Hp.
    destruct (deref_of_member d p Hp (Hinv p Hp)) as (e & Hfind & Hderef).
    exists e. split; [exact Hfind|].
    pose proof (deref_started d _ Hderef) as Hstarted.
    unfold started in Hstarted.
    destruct (_accounts d) eqn:Hreg; [discriminate|]. simpl.
    rewrite <- Hreg in *. rewrite Hp in *. rewrite Hderef. simpl.
    unfold sessionValue, sessionExists.
    destruct (account_session (account e)); reflexivity.
  - intros Hne Hnull. destruct (_accounts d); [contradiction|].
    simpl. rewrite Hnull. reflexivity.
Qed.

Lemma activeSessionValue_starts_with_witness :
  exists d,
    run_ops sampleHistory blank = Ok d /\
    activeSessionValue_current d = Ok (Some (liveSession 5 false)).
Proof.
  assert (H : exists d,
            run_ops sampleHistory blank = Ok d /\ _active d = Some 3%positive
            /\ lookup 3%positive (_accounts d)
               = Some (entry 2 3%positive (Some (liveSession 5 false))
                         productionConfig)).
  { vm_compute. eexists. repeat split. }
  destruct H as (d & Hrun & Hact & Hlook).
  destruct (activeSessionValue_starts_with fallbackConfig false []
              sampleHistory d Hrun) as (_ & Hvalue & _).
  destruct (Hvalue _ Hact) as (e & Hfind & Hv).
  exists d. split; [exact Hrun|].
  rewrite Hlook in Hfind. inversion Hfind; subst e. exact Hv.
Defined.

(** ** Logging out of the last session *)

Lemma activateAuthedAccount_when_nobody (d : Domain) (a : Account) :
  deref (_active d) d = Ok a ->
  (forall o, In o (_accounts d) -> has_session o = false) ->
  activateAuthedAccount d = Ok d.
Proof.
  intros Hderef Hnone. unfold activateAuthedAccount.
  rewrite (deref_started d a Hderef), Hderef. simpl.
  assert (Hs : sessionExists a = false).
  { unfold deref in Hderef. destruct (_active d) as [p|]; [|discriminate].
    destruct (lookup p (_accounts d)) as [e|] eqn:Hfind; [|discriminate].
    inversion Hderef; subst a. apply find_some in Hfind.
    apply (Hnone e), Hfind. }
  rewrite Hs. apply find_none_iff in Hnone. rewrite Hnone. reflexivity.
Qed.

Lemma filter_none {A : Type} (f : A -> bool) (l : list A) :
  (forall x, In x l -> f x = false) -> filter f l = [].
Proof.
  induction l as [|x rest IH]; simpl; intros H; [reflexivity|].
  rewrite (H x (or_introl eq_refl)). apply IH.
  intros y Hy. apply H. right. exact Hy.
Qed.

Lemma filter_only_active (l : list AccountWithIndex) (x : AccountWithIndex) :
  distinct_accounts l -> In x l ->
  (forall o, In o l -> has_session o = false) ->
  filter (fun o => negb (redundant (Some (account_ptr (account x))) o)) l
  = [x].
Proof.
  unfold distinct_accounts, pointers.
  induction l as [|y rest IH]; simpl; intros Hnd Hin Hnone; [contradiction|].
  inversion Hnd as [|? ? Hnot Hrest]; subst.
  rewrite redundant_negb. simpl.
  rewrite (Hnone y (or_introl eq_refl)), orb_false_r.
  destruct Hin as [->|Hin].
  - rewrite ptr_eqb_refl. f_equal.
    apply filter_none.
    intros o Ho. rewrite redundant_negb. simpl.
    rewrite (Hnone o (or_intror Ho)), orb_false_r.
    apply ptr_eqb_neq. intros Heq. apply Hnot. rewrite <- Heq.
    apply (in_map (fun e => account_ptr (account e))). exact Ho.
  - replace (ptr_eqb (account_ptr (account y)) (account_ptr (account x)))
      with false.
    + apply IH; auto.
    + symmetry. apply ptr_eqb_neq. intros Heq. apply Hnot. rewrite Heq.
      apply (in_map (fun e => account_ptr (account e))). exact Hin.
Qed.

Lemma removePasscodeIfEmpty_single (d : Domain) (x : AccountWithIndex) :
  _accounts d = [x] -> deref (_active d) d = Ok (account x) ->
  has_session x = false ->
  removePasscodeIfEmpty d
  = if LocalPasscode d
    then Ok (true, setPasscode [] (unlockPasscode (Local_reset d)))
    else Ok (false, Local_reset d).
Proof.
  intros Hone Hderef Hs. unfold removePasscodeIfEmpty.
  rewrite Hone, Hderef. simpl. fold (has_session x). rewrite Hs.
  destruct (LocalPasscode d); reflexivity.
Qed.

(** X12.  "We completely logged out, remove the passcode if it was there":
    when the session of the active account ends and no other account is
    logged in, the deferred clean-up leaves the active account as the only
    entry of the registry and, if a passcode was set, clears it (no two
    registry entries living at one address). *)
Theorem full_logout_clears_passcode (d : Domain) (e : AccountWithIndex)
    (Hactive : _active d = Some (account_ptr (account e)))
    (Hin : In e (_accounts d))
    (Hdistinct : distinct_accounts (_accounts d))
    (Hothers : forall o,
       In o (_accounts d) ->
       account_ptr (account o) <> account_ptr (account e) ->
       has_session o = false)
    (Hnone : mainCalls d = []) :
  exists d1 d2,
    sessionEnded (account_ptr (account e)) d = Ok d1 /\
    runMainCall d1 = Ok d2 /\
    _accounts d2
    = [{| index := index e; account := with_session None (account e) |}] /\
    _active d2 = Some (account_ptr (account e)) /\
    (LocalPasscode d = true -> passcode d2 = [] /\ LocalPasscode d2 = false) /\
    (LocalPasscode d = false -> passcode d2 = passcode d).
Proof.
  set (p := account_ptr (account e)) in *.
  set (e' := {| index := index e; account := with_session None (account e) |}).
  set (U := update_account p (with_session None) (_accounts d)).
  set (d0 := set_accounts U d).
  set (d1' := scheduleUpdateUnreadBadge d0).
  destruct (scheduleUpdateUnreadBadge_frame d0) as (Fm & Fl & Fp & _).
  fold d1' in Fm, Fl, Fp. simpl in Fm, Fl, Fp.
  assert (Hacc1 : _accounts d1' = U)
    by (unfold d1'; rewrite scheduleUpdateUnreadBadge_accounts; reflexivity).
  assert (Hact1 : _active d1' = Some p)
    by (unfold d1'; rewrite scheduleUpdateUnreadBadge_active; exact Hactive).
  assert (HinU : In e' U).
  { unfold U, update_account. apply in_map_iff. exists e.
    split; [|exact Hin]. unfold has_ptr. fold p. rewrite ptr_eqb_refl.
    reflexivity. }
  assert (HdistinctU : distinct_accounts U).
  { unfold distinct_accounts, U.
    rewrite pointers_update_account by reflexivity. exact Hdistinct. }
  assert (HnoneU : forall o, In o U -> has_session o = false).
  { intros o Ho. apply update_account_In in Ho.
    destruct Ho as (x & Hx & [[_ ->]|[Hpx ->]]); [reflexivity|].
    apply Hothers; [exact Hx|]. unfold has_ptr in Hpx.
    apply ptr_eqb_neq in Hpx. exact Hpx. }
  assert (HlookU : lookup p U = Some e').
  { apply (lookup_distinct U e' HdistinctU HinU). }
  assert (Hderef1 : deref (_active d1') d1' = Ok (account e')).
  { unfold deref. rewrite Hact1, Hacc1, HlookU. reflexivity. }
  assert (Hended : sessionEnded p d
                   = Ok (on_main TaskRemoveRedundantAccounts d1')).
  { unfold sessionEnded, watchSession_sessionEnded. fold U d0 d1'.
    rewrite Hact1. simpl. rewrite ptr_eqb_refl.
    rewrite (activateAuthedAccount_when_nobody d1' _ Hderef1).
    - reflexivity.
    - rewrite Hacc1. exact HnoneU. }
  set (d1 := on_main TaskRemoveRedundantAccounts d1') in *.
  set (dm := set_mainCalls [] d1).
  assert (Hderefm : deref (_active dm) dm = Ok (account e')).
  { exact Hderef1. }
  assert (Hautm : activateAuthedAccount dm = Ok dm).
  { apply (activateAuthedAccount_when_nobody dm _ Hderefm).
    simpl. rewrite Hacc1. exact HnoneU. }
  destruct (removeRedundantAccounts_loop_result (_accounts dm) [] dm eq_refl)
    as (Hacc2 & Hact2 & _ & Hl2 & Hp2).
  set (d2 := removeRedundantAccounts_loop [] (_accounts dm) dm) in *.
  simpl in Hacc2, Hact2, Hl2, Hp2.
  rewrite Hact1, Hacc1 in Hacc2. rewrite Hact1 in Hact2.
  change p with (account_ptr (account e')) in Hacc2.
  rewrite (filter_only_active U e' HdistinctU HinU HnoneU) in Hacc2.
  assert (Hderef2 : deref (_active d2) d2 = Ok (account e')).
  { unfold deref, lookup. rewrite Hact2, Hacc2. simpl. unfold has_ptr. simpl.
    fold p. rewrite ptr_eqb_refl. reflexivity. }
  assert (Hmain : runMainCall d1 = removeRedundantAccounts dm).
  { unfold runMainCall. simpl. rewrite Fm, Hnone. reflexivity. }
  destruct (removeRedundantAccounts_total dm _ Hderefm) as (dz & Hrun).
  destruct (removeRedundantAccounts_unfold _ _ Hrun)
    as (dx & r & d3 & Hautx & Hpass & Hlast).
  rewrite Hautm in Hautx. inversion Hautx; subst dx. clear Hautx.
  fold d2 in Hpass.
  rewrite (removePasscodeIfEmpty_single d2 e' Hacc2 Hderef2 eq_refl) in Hpass.
  rewrite Hl2, Fl in Hpass.
  exists d1, dz. split; [exact Hended|]. split; [rewrite Hmain; exact Hrun|].
  assert (Hfields : _accounts dz = _accounts d3 /\ _active dz = _active d3 /\
                    passcode dz = passcode d3 /\
                    LocalPasscode dz = LocalPasscode d3).
  { destruct Hlast as [->| ->]; [repeat split|].
    destruct (scheduleWriteAccounts_fields d3)
      as (Fa & Fb & _ & _ & _ & _ & _ & _ & Flp & Fpc & _).
    repeat split; assumption. }
  destruct Hfields as (Ha & Hb & Hc & Hd).
  rewrite Ha, Hb, Hc, Hd.
  destruct (LocalPasscode d); inversion Hpass; subst; simpl;
    rewrite Hacc2, Hact2, ?Hp2, ?Fp; repeat split; discriminate.
Qed.

Lemma full_logout_clears_passcode_witness :
  exists d1 d2,
    sessionEnded 1%positive
      (with_registry [entryA_live; entryB] (Some 1%positive) 0 locked)
    = Ok d1 /\
    runMainCall d1 = Ok d2 /\
    passcode d2 = [].
Proof.
  destruct (full_logout_clears_passcode
              (with_registry [entryA_live; entryB] (Some 1%positive) 0 locked)
              entryA_live)
    as (d1 & d2 & Hended & Hrun & _ & _ & Hclear & _).
  - reflexivity.
  - simpl. auto.
  - unfold distinct_accounts. simpl. repeat constructor; simpl; intuition;
      discriminate.
  - intros o [<-|[<-|[]]] Hne; [exfalso; apply Hne|]; reflexivity.
  - reflexivity.
  - exists d1, d2. split; [exact Hended|]. split; [exact Hrun|].
    apply Hclear. reflexivity.
Defined.

(** * SendFilesBox *)

(** ** The preselected way of sending *)

Lemma count_if_le {A : Type} (p : A -> bool) (l : list A) :
  (count_if p l <= List.length l)%nat.
Proof. unfold count_if. apply filter_length_le. Qed.

Lemma refreshAlbumMediaCount_photos (list : PreparedList) :
  0 <= snd (refreshAlbumMediaCount list).
Proof.
  unfold refreshAlbumMediaCount. simpl.
  destruct (albumIsPossible list); [|lia].
  pose proof (count_if_le is_video (files list)). lia.
Qed.

(** X13.  [initSendWay] never preselects "album" for a list that cannot be
    sent as an album.  When no compression is offered or it was declined it
    preselects "files", the only exception being the one-message limit
    with several files that can form an album, which always gives
    "album". *)
Theorem initSendWay_respects_album (sendLimit : SendLimit.t)
    (compressConfirm : CompressConfirm.t) (list : PreparedList)
    (settingsWay : SendFilesWay.t) :
  let way := initSendWay sendLimit compressConfirm list settingsWay in
  (way = SendFilesWay.Album -> albumIsPossible list = true) /\
  (sendLimit = SendLimit.One -> albumIsPossible list = true ->
   (1 < List.length (files list))%nat -> way = SendFilesWay.Album) /\
  (compressConfirm = CompressConfirm.None
   \/ compressConfirm = CompressConfirm.No ->
   way = SendFilesWay.Files
   \/ (way = SendFilesWay.Album /\ sendLimit = SendLimit.One
       /\ (1 < List.length (files list))%nat)).
Proof.
  unfold initSendWay, initSendWay_value. cbv zeta.
  destruct (Nat.ltb 1 (List.length (files list))) eqn:Hsize.
  - apply Nat.ltb_lt in Hsize.
    destruct sendLimit, (albumIsPossible list), compressConfirm, settingsWay;
      simpl;
      try destruct (snd (refreshAlbumMediaCount _) =? 0);
      repeat split; intros; auto; try discriminate;
      try (destruct H; discriminate).
  - apply Nat.ltb_ge in Hsize.
    destruct sendLimit, (albumIsPossible list), compressConfirm, settingsWay;
      simpl;
      try destruct (snd (refreshAlbumMediaCount _) =? 0);
      repeat split; intros; auto; try discriminate; try lia;
      try (destruct H; discriminate).
Qed.

Lemma initSendWay_respects_album_witness :
  initSendWay SendLimit.One CompressConfirm.No sampleAlbum SendFilesWay.Files
  = SendFilesWay.Album.
Proof.
  destruct (initSendWay_respects_album SendLimit.One CompressConfirm.No
              sampleAlbum SendFilesWay.Files) as (_ & Hone & _).
  apply Hone; [reflexivity|reflexivity|simpl; lia].
Defined.

(** X14.  Whenever [setupSendWayControls] creates radio buttons (it always
    creates the "files" one then), the way [initSendWay] preselected for the
    same list, limit and compression setting has its radio button. *)
Theorem preselected_way_has_radio (sendLimit : SendLimit.t)
    (compressConfirm : CompressConfirm.t) (list : PreparedList)
    (settingsWay : SendFilesWay.t)
    (Hshown :
       _sendFiles
         (setupSendWayControls compressConfirm sendLimit list
            (fst (refreshAlbumMediaCount list))
            (snd (refreshAlbumMediaCount list)))
       <> None) :
  radio_of (initSendWay sendLimit compressConfirm list settingsWay)
    (setupSendWayControls compressConfirm sendLimit list
       (fst (refreshAlbumMediaCount list))
       (snd (refreshAlbumMediaCount list)))
  <> None.
Proof.
  pose proof (refreshAlbumMediaCount_photos list) as Hphotos.
  unfold initSendWay, initSendWay_value, setupSendWayControls in *.
  destruct (snd (refreshAlbumMediaCount list) =? 0) eqn:Hzero.
  - destruct sendLimit, compressConfirm; simpl in *; try contradiction;
      destruct (albumIsPossible list), settingsWay; simpl; discriminate.
  - assert (Hpos : (0 <? snd (refreshAlbumMediaCount list)) = true).
    { apply Z.ltb_lt. apply Z.eqb_neq in Hzero. lia. }
    rewrite Hpos.
    destruct sendLimit, compressConfirm; simpl in *; try contradiction;
      destruct (albumIsPossible list), settingsWay; simpl; discriminate.
Qed.

Lemma preselected_way_has_radio_witness :
  radio_of
    (initSendWay SendLimit.Many CompressConfirm.Auto sampleAlbum
       SendFilesWay.Photos)
    (setupSendWayControls CompressConfirm.Auto SendLimit.Many sampleAlbum
       (fst (refreshAlbumMediaCount sampleAlbum))
       (snd (refreshAlbumMediaCount sampleAlbum)))
  <> None.
Proof.
  apply preselected_way_has_radio. discriminate.
Defined.

(** ** The order of the album *)

Lemma isDefault_from_spec (order : list Z) :
  forall from,
    isDefault_from from order = true
    <-> order
        = map (fun i => from + Z.of_nat i) (seq 0 (List.length order)).
Proof.
  induction order as [|o rest IH]; intros from; simpl.
  - split; reflexivity.
  - rewrite <- seq_shift, map_map.
    destruct (o =? from) eqn:Ho; simpl.
    + apply Z.eqb_eq in Ho. subst o. rewrite IH. split; intros H.
      * rewrite Z.add_0_r. f_equal.
        etransitivity; [exact H|]. apply map_ext. intros i. lia.
      * injection H as _ Hrest.
        etransitivity; [exact Hrest|]. apply map_ext. intros i. lia.
    + apply Z.eqb_neq in Ho. split; [discriminate|].
      intros H. injection H as Hhead _. lia.
Qed.

(** X15.  The order check of [applyAlbumOrder] accepts exactly the order
    0, 1, ..., n-1; for that order, and when there is no album preview, the
    list is left as it is, and for every other order it is handed to
    [Reordered]. *)
Theorem applyAlbumOrder_default
    (Reordered : PreparedList -> list Z -> PreparedList) (order : list Z)
    (list : PreparedList) :
  (isDefault order = true
   <-> order = map Z.of_nat (seq 0 (List.length order))) /\
  applyAlbumOrder Reordered None list = list /\
  (order = map Z.of_nat (seq 0 (List.length order)) ->
   applyAlbumOrder Reordered (Some order) list = list) /\
  (order <> map Z.of_nat (seq 0 (List.length order)) ->
   applyAlbumOrder Reordered (Some order) list = Reordered list order).
Proof.
  assert (Hspec : isDefault order = true
                  <-> order = map Z.of_nat (seq 0 (List.length order))).
  { unfold isDefault. rewrite isDefault_from_spec.
    replace (map (fun i => 0 + Z.of_nat i) (seq 0 (List.length order)))
      with (map Z.of_nat (seq 0 (List.length order)));
      [tauto|apply map_ext; intros i; lia]. }
  split; [exact Hspec|]. split; [reflexivity|]. split.
  - intros H. apply Hspec in H. simpl. rewrite H. reflexivity.
  - intros H. simpl. destruct (isDefault order) eqn:Hd; [|reflexivity].
    exfalso. apply H, Hspec. reflexivity.
Qed.

Lemma applyAlbumOrder_default_witness :
  applyAlbumOrder (fun l _ => l) (Some [0; 1; 2; 3]) sampleAlbum = sampleAlbum
  /\ isDefault [0; 2; 1; 3] = false.
Proof.
  destruct (applyAlbumOrder_default (fun l _ => l) [0; 1; 2; 3] sampleAlbum)
    as (_ & _ & Hid & _).
  split; [apply Hid; reflexivity|reflexivity].
Defined.

(** ** The footer *)

Lemma int_wrap_idem (a : Z) : int_wrap (int_wrap a) = int_wrap a.
Proof. apply int_wrap_small, int_wrap_range. Qed.

Lemma int_wrap_decomp (a : Z) : exists k, int_wrap a = a + k * 4294967296.
Proof.
  int_consts. exists (- ((a + 2147483648) / 4294967296)).
  pose proof (Z_div_mod_eq_full (a + 2147483648) 4294967296). lia.
Qed.

Lemma int_wrap_shift (a k : Z) : int_wrap (a + k * 4294967296) = int_wrap a.
Proof.
  int_consts.
  replace (a + k * 4294967296 + 2147483648)
    with (a + 2147483648 + k * 4294967296) by lia.
  rewrite Z_mod_plus_full. reflexivity.
Qed.

Lemma int_wrap_add_r (a b : Z) : int_wrap (a + int_wrap b) = int_wrap (a + b).
Proof. rewrite Z.add_comm, int_wrap_add_l. f_equal. lia. Qed.

Lemma int_wrap_sub_l (a b : Z) : int_wrap (int_wrap a - b) = int_wrap (a - b).
Proof. unfold Z.sub. apply int_wrap_add_l. Qed.

Lemma int_wrap_sub_r (a b : Z) : int_wrap (a - int_wrap b) = int_wrap (a - b).
Proof.
  destruct (int_wrap_decomp b) as (k & ->).
  replace (a - (b + k * 4294967296)) with (a - b + (- k) * 4294967296) by lia.
  apply int_wrap_shift.
Qed.

Lemma radio_space_app (st : FooterStyle) (l1 l2 : list (option Z)) :
  radio_space st (l1 ++ l2) = radio_space st l1 + radio_space st l2.
Proof.
  unfold radio_space. induction l1 as [|x l1 IH]; simpl; [reflexivity|].
  destruct x; rewrite IH; lia.
Qed.

Lemma radio_space_rev (st : FooterStyle) (l : list (option Z)) :
  radio_space st (rev l) = radio_space st l.
Proof.
  induction l as [|x l IH]; simpl; [reflexivity|].
  rewrite radio_space_app, IH. unfold radio_space at 2 3. simpl.
  destruct x; fold (radio_space st l); lia.
Qed.

Lemma footer_fold (st : FooterStyle) (pointers : list (option Z)) :
  forall footerHeight,
    in_int_range footerHeight ->
    fold_left
      (fun footerHeight pointer =>
         match pointer with
         | Some heightNoMargins =>
             int_add footerHeight
               (int_add (boxPhotoCompressedSkip st) heightNoMargins)
         | None => footerHeight
         end)
      pointers footerHeight
    = int_wrap (footerHeight + radio_space st pointers).
Proof.
  induction pointers as [|x rest IH]; intros f Hf; simpl.
  - rewrite Z.add_0_r. symmetry. apply int_wrap_small, Hf.
  - destruct x as [h|]; [|apply IH, Hf].
    rewrite IH by apply int_wrap_range.
    unfold int_add. rewrite int_wrap_add_l.
    replace (f + int_wrap (boxPhotoCompressedSkip st + h)
             + radio_space st rest)
      with (f + radio_space st rest
            + int_wrap (boxPhotoCompressedSkip st + h)) by lia.
    rewrite int_wrap_add_r. f_equal. lia.
Qed.

Lemma bottom_fold (st : FooterStyle) (pointers : list (option Z)) :
  forall ys b,
    in_int_range b ->
    snd (fold_left
           (fun (acc : list (option Z) * Z) (pointer : option Z) =>
              match pointer with
              | Some heightNoMargins =>
                  (fst acc ++ [Some (int_sub (snd acc) heightNoMargins)],
                   int_sub (snd acc)
                     (int_add (boxPhotoCompressedSkip st) heightNoMargins))
              | None => (fst acc ++ [None], snd acc)
              end)
           pointers (ys, b))
    = int_wrap (b - radio_space st pointers).
Proof.
  induction pointers as [|x rest IH]; intros ys b Hb; simpl.
  - rewrite Z.sub_0_r. symmetry. apply int_wrap_small, Hb.
  - destruct x as [h|]; [|apply IH, Hb].
    rewrite IH by apply int_wrap_range.
    unfold int_sub, int_add. rewrite int_wrap_sub_l.
    replace (b - int_wrap (boxPhotoCompressedSkip st + h)
             - radio_space st rest)
      with (b - radio_space st rest
            - int_wrap (boxPhotoCompressedSkip st + h)) by lia.
    rewrite int_wrap_sub_r. f_equal. lia.
Qed.

(** X16.  The layout agrees with the size: for a box of any height (an
    [int]), the bottom edge [updateControlsGeometry] leaves for the preview
    is the height minus the footer height [updateBoxSize] computes for the
    same caption and radio buttons. *)
Theorem footer_matches_geometry (st : FooterStyle) (height : Z)
    (caption : option Z) (pointers : list (option Z))
    (Hheight : in_int_range height) :
  bottom (updateControlsGeometry st height caption pointers)
  = int_sub height (updateBoxSize st caption pointers).
Proof.
  unfold updateControlsGeometry, updateBoxSize. cbv zeta. simpl.
  destruct caption as [h|].
  - rewrite bottom_fold by apply int_wrap_range.
    rewrite footer_fold by apply int_wrap_range.
    rewrite radio_space_rev.
    unfold int_sub, int_add. rewrite int_wrap_sub_l, int_wrap_sub_r.
    rewrite Z.add_0_l, int_wrap_idem.
    replace (height - int_wrap (boxPhotoCaptionSkip st + h)
             - radio_space st pointers)
      with (height - radio_space st pointers
            - int_wrap (boxPhotoCaptionSkip st + h)) by lia.
    replace (height
             - (int_wrap (boxPhotoCaptionSkip st + h)
                + radio_space st pointers))
      with (height - radio_space st pointers
            - int_wrap (boxPhotoCaptionSkip st + h)) by lia.
    reflexivity.
  - rewrite bottom_fold by exact Hheight.
    rewrite footer_fold by (int_consts; lia).
    rewrite radio_space_rev. unfold int_sub.
    rewrite int_wrap_sub_r. f_equal.
Qed.

Lemma footer_matches_geometry_witness :
  bottom (updateControlsGeometry sampleStyle 400 (Some 30)
            [Some 18; None; Some 18])
  = 286
  /\ updateBoxSize sampleStyle (Some 30) [Some 18; None; Some 18] = 114.
Proof.
  assert (H : in_int_range 400) by (int_consts; lia).
  rewrite (footer_matches_geometry sampleStyle 400 (Some 30)
             [Some 18; None; Some 18] H).
  split; reflexivity.
Defined.
